(** * Attendance calculator: working days, period parsing, record store

    A shallow embedding of the logic of [src/App.jsx] and of the second
    variant of the same component that is kept in [README.md] (the one
    with [parsePeriodNameToSortableDate] and [handlePlusOne]).

    Conventions of the embedding.
    - Integer-valued JavaScript numbers (months, years, day counts, extra
      holidays, time values) are [Z]; this is exact below 2^53.
    - Numbers that may carry a fraction (days attended, percentages) are
      exact rationals, with [NaN] as a separate value ([JSNumber.number]);
      the rounding of binary64 arithmetic is not modelled.
    - Strings are [string]; a character stands for the code unit with the
      same number (code units below 256).
    - A [Date] is the day number of its local wall-clock date, computed
      with the day-number algorithms of ECMAScript (section 21.4.1); the
      time of day is not needed by the functions modelled here. *)

From Stdlib Require Import ZArith QArith Qround Lia List Bool String Ascii.
From Stdlib Require Import Permutation Sorted.
Import ListNotations.

Local Open Scope string_scope.
Local Open Scope Z_scope.

(* ================================================================== *)
(** * Part I: definitions                                              *)
(* ================================================================== *)

(** ** ECMAScript day-number algorithms and the [Date] object *)

Module JSDate.

(** Day number of the first day of year [y] (ECMAScript DayFromYear). *)
Definition DayFromYear (y : Z) : Z :=
  365 * (y - 1970) + (y - 1969) / 4 - (y - 1901) / 100 + (y - 1601) / 400.

Definition DaysInYear (y : Z) : Z :=
  if negb (y mod 4 =? 0) then 365
  else if negb (y mod 100 =? 0) then 366
  else if negb (y mod 400 =? 0) then 365
  else 366.

Definition InLeapYearOf (y : Z) : Z :=
  if DaysInYear y =? 366 then 1 else 0.

(** Walk down from an upper estimate to the largest year that starts on
    or before day [d]. *)
Fixpoint year_search (fuel : nat) (y d : Z) : Z :=
  match fuel with
  | O => y
  | S fuel' => if DayFromYear y <=? d then y else year_search fuel' (y - 1) d
  end.

(** ECMAScript YearFromTime, on day numbers. *)
Definition YearFromDay (d : Z) : Z :=
  year_search (Z.to_nat (Z.abs d / 100000 + 4)) (1970 + d / 365 + 1) d.

Definition DayWithinYear (d : Z) : Z := d - DayFromYear (YearFromDay d).

Definition InLeapYear (d : Z) : Z := InLeapYearOf (YearFromDay d).

(** ECMAScript MonthFromTime: month index 0..11. *)
Definition MonthFromDay (d : Z) : Z :=
  let w := DayWithinYear d in
  let l := InLeapYear d in
  if w <? 31 then 0
  else if w <? 59 + l then 1
  else if w <? 90 + l then 2
  else if w <? 120 + l then 3
  else if w <? 151 + l then 4
  else if w <? 181 + l then 5
  else if w <? 212 + l then 6
  else if w <? 243 + l then 7
  else if w <? 273 + l then 8
  else if w <? 304 + l then 9
  else if w <? 334 + l then 10
  else 11.

(** ECMAScript DateFromTime: day of the month, 1..31. *)
Definition DateFromDay (d : Z) : Z :=
  let w := DayWithinYear d in
  let l := InLeapYear d in
  match MonthFromDay d with
  | 0 => w + 1
  | 1 => w - 30
  | 2 => w - 58 - l
  | 3 => w - 89 - l
  | 4 => w - 119 - l
  | 5 => w - 150 - l
  | 6 => w - 180 - l
  | 7 => w - 211 - l
  | 8 => w - 242 - l
  | 9 => w - 272 - l
  | 10 => w - 303 - l
  | _ => w - 333 - l
  end.

(** ECMAScript WeekDay: 0 = Sunday ... 6 = Saturday. *)
Definition WeekDay (d : Z) : Z := (d + 4) mod 7.

(** Days of the year before month index [mn] (0..11). *)
Definition days_before_month (mn l : Z) : Z :=
  match mn with
  | 0 => 0
  | 1 => 31
  | 2 => 59 + l
  | 3 => 90 + l
  | 4 => 120 + l
  | 5 => 151 + l
  | 6 => 181 + l
  | 7 => 212 + l
  | 8 => 243 + l
  | 9 => 273 + l
  | 10 => 304 + l
  | _ => 334 + l
  end.

(** ECMAScript MakeDay: month indices outside 0..11 and dates outside the
    month carry over into the neighbouring months and years. *)
Definition MakeDay (year month date : Z) : Z :=
  let ym := year + month / 12 in
  let mn := month mod 12 in
  DayFromYear ym + days_before_month mn (InLeapYearOf ym) + date - 1.

(** ECMAScript TimeClip, on day numbers: a time value is valid up to
    8.64e15 ms, that is 10^8 days, from the epoch. *)
Definition TimeClip (d : Z) : option Z :=
  if Z.abs d <=? 100000000 then Some d else None.

(** A [Date] object: [None] is the Invalid Date. *)
Definition Date := option Z.

(** [new Date(year, monthIndex, day)]; years 0..99 mean 1900..1999. *)
Definition newDate (year monthIndex day : Z) : Date :=
  let yr := if (0 <=? year) && (year <=? 99) then 1900 + year else year in
  TimeClip (MakeDay yr monthIndex day).

(** [date.getDate()] and [date.getDay()]: [None] stands for NaN. *)
Definition getDate (t : Date) : option Z := option_map DateFromDay t.

Definition getDay (t : Date) : option Z := option_map WeekDay t.

(** [date.setDate(i)]: same year and month, day of the month [i]. *)
Definition setDate (t : Date) (i : Z) : Date :=
  match t with
  | None => None
  | Some d => TimeClip (MakeDay (YearFromDay d) (MonthFromDay d) i)
  end.

End JSDate.

(** ** The working-day calculator ([calculateMonthlyWorkingDays]) *)

(** The mutable locals of the loop. *)
Record loop_state := mkLoop {
  date : JSDate.Date;
  nonWorkingDays : Z;
  secondSaturdayFound : bool;
  saturdayCount : Z
}.

(** [x === w] for [x] a number or NaN ([None]) and [w] a number. *)
Definition is_weekday (w : Z) (x : option Z) : bool :=
  match x with
  | Some v => v =? w
  | None => false
  end.

(** One pass through the body of the [for] loop, for day [i]. *)
Definition loop_body (i : Z) (s : loop_state) : loop_state :=
  let date' := JSDate.setDate (date s) i in
  let dayOfWeek := JSDate.getDay date' in
  if is_weekday 0 dayOfWeek then
    mkLoop date' (nonWorkingDays s + 1) (secondSaturdayFound s) (saturdayCount s)
  else if is_weekday 6 dayOfWeek then
    let saturdayCount' := saturdayCount s + 1 in
    if (saturdayCount' =? 2) && negb (secondSaturdayFound s)
    then mkLoop date' (nonWorkingDays s + 1) true saturdayCount'
    else mkLoop date' (nonWorkingDays s) (secondSaturdayFound s) saturdayCount'
  else mkLoop date' (nonWorkingDays s) (secondSaturdayFound s) (saturdayCount s).

(** [for (let i = i0; i <= totalDaysInMonth; i++) body], with [n] the
    number of passes that remain. *)
Fixpoint for_days (n : nat) (i : Z) (s : loop_state) : loop_state :=
  match n with
  | O => s
  | S n' => for_days n' (i + 1) (loop_body i s)
  end.

Definition calculateMonthlyWorkingDays (month year extraHolidaysCount : Z) : Z :=
  let date := JSDate.newDate year (month - 1) 1 in
  match JSDate.getDate (JSDate.newDate year month 0) with
  | None => 0 (* NaN: the loop is skipped and [NaN > 0] is false *)
  | Some totalDaysInMonth =>
      let s := for_days (Z.to_nat totalDaysInMonth) 1 (mkLoop date 0 false 0) in
      let totalCalculatedWorkingDays :=
        totalDaysInMonth - nonWorkingDays s - extraHolidaysCount in
      if totalCalculatedWorkingDays >? 0 then totalCalculatedWorkingDays else 0
  end.

(** ** The calendar of the specification *)

Module CalendarSpec.

Definition isLeapYear (y : Z) : bool :=
  ((y mod 4 =? 0) && negb (y mod 100 =? 0)) || (y mod 400 =? 0).

(** Days of month [m] (1..12) of year [y] in the Gregorian calendar. *)
Definition daysInMonth (m y : Z) : Z :=
  match m with
  | 2 => if isLeapYear y then 29 else 28
  | 4 | 6 | 9 | 11 => 30
  | _ => 31
  end.

(** Weekday of a Gregorian date by Zeller's congruence, turned so that
    0 = Sunday ... 6 = Saturday. *)
Definition weekday (y m d : Z) : Z :=
  let m' := if m <? 3 then m + 12 else m in
  let y' := if m <? 3 then y - 1 else y in
  let k := y' mod 100 in
  let j := y' / 100 in
  (d + (13 * (m' + 1)) / 5 + k + k / 4 + j / 4 + 5 * j + 6) mod 7.

(** The days 1..n of a month. *)
Definition daysOf (n : Z) : list Z := map Z.of_nat (seq 1 (Z.to_nat n)).

Definition countWeekday (w m y : Z) : Z :=
  Z.of_nat (List.length (filter (fun d => weekday y m d =? w) (daysOf (daysInMonth m y)))).

Definition sundaysIn (m y : Z) : Z := countWeekday 0 m y.
Definition saturdaysIn (m y : Z) : Z := countWeekday 6 m y.
Definition secondSaturdayExists (m y : Z) : bool := 2 <=? saturdaysIn m y.

Definition workingDays0 (m y : Z) : Z :=
  daysInMonth m y - sundaysIn m y - (if secondSaturdayExists m y then 1 else 0).

End CalendarSpec.

(** ** JavaScript strings *)

Module JSString.

Local Open Scope string_scope.
Local Open Scope Z_scope.

Definition code (c : ascii) : N := N_of_ascii c.

(** White space and line terminators below 256: what [\s] matches and
    what [trim] and [parseInt] strip. *)
Definition is_space (c : ascii) : bool :=
  let n := code c in
  (((9 <=? n) && (n <=? 13)) || (n =? 32) || (n =? 160))%N.

(** [\d]: the ASCII digits. *)
Definition is_digit (c : ascii) : bool :=
  let n := code c in ((48 <=? n) && (n <=? 57))%N.

Definition digit_value (c : ascii) : Z := Z.of_N (code c) - 48.

(** [c.toLowerCase()] for a code unit below 256: A..Z and the capital
    letters of Latin-1 (all of 192..222 but the multiplication sign). *)
Definition lower_char (c : ascii) : ascii :=
  let n := code c in
  if (((65 <=? n) && (n <=? 90))
      || ((192 <=? n) && (n <=? 222) && negb (n =? 215)))%N
  then ascii_of_N (n + 32) else c.

Fixpoint toLowerCase (s : string) : string :=
  match s with
  | "" => ""
  | String c s' => String (lower_char c) (toLowerCase s')
  end.

(** Drop the white space at the front. *)
Fixpoint skip_spaces (s : string) : string :=
  match s with
  | "" => ""
  | String c s' => if is_space c then skip_spaces s' else s
  end.

Fixpoint rev_string (s : string) : string :=
  match s with
  | "" => ""
  | String c s' => rev_string s' ++ String c ""
  end.

Definition trimEnd (s : string) : string := rev_string (skip_spaces (rev_string s)).

(** [s.trim()]. *)
Definition trim (s : string) : string := trimEnd (skip_spaces s).

(** [s.split(' ')]: the pieces between single spaces; never empty. *)
Fixpoint split_space (s : string) : list string :=
  match s with
  | "" => [""]
  | String c s' =>
      if (code c =? 32)%N then "" :: split_space s'
      else match split_space s' with
           | [] => [String c ""]
           | p :: ps => String c p :: ps
           end
  end.

(** [Some rest] when [s] is [p] followed by [rest]. *)
Fixpoint strip_prefix (p s : string) : option string :=
  match p, s with
  | "", _ => Some s
  | String a p', String b s' => if Ascii.eqb a b then strip_prefix p' s' else None
  | String _ _, "" => None
  end.

(** [list.indexOf(x)]: the first position of [x], or -1. *)
Fixpoint indexOf (l : list string) (x : string) : Z :=
  match l with
  | [] => -1
  | y :: l' =>
      if String.eqb y x then 0
      else let i := indexOf l' x in if i <? 0 then -1 else i + 1
  end.

(** Value of a digit in radix 10 or 16, if it is one. *)
Definition radix_digit (radix : Z) (c : ascii) : option Z :=
  let n := Z.of_N (code c) in
  if (48 <=? n) && (n <=? 57) then Some (n - 48)
  else if radix =? 16 then
    if (97 <=? n) && (n <=? 102) then Some (n - 87)
    else if (65 <=? n) && (n <=? 70) then Some (n - 55)
    else None
  else None.

(** The longest run of digits at the front of [s] read in [radix],
    continuing from [acc]; [seen] tells whether a digit was read. *)
Fixpoint read_digits (radix : Z) (s : string) (acc : Z) (seen : bool) : option Z :=
  match s with
  | "" => if seen then Some acc else None
  | String c s' =>
      match radix_digit radix c with
      | Some v => read_digits radix s' (acc * radix + v) true
      | None => if seen then Some acc else None
      end
  end.

(** [parseInt(s)] with no radix argument; [None] is NaN. *)
Definition parseInt (s : string) : option Z :=
  let s1 := skip_spaces s in
  let '(sign, s2) :=
    match s1 with
    | String "-" r => (-1, r)
    | String "+" r => (1, r)
    | _ => (1, s1)
    end in
  let '(radix, s3) :=
    match s2 with
    | String "0" (String "x" r) => (16, r)
    | String "0" (String "X" r) => (16, r)
    | _ => (10, s2)
    end in
  option_map (Z.mul sign) (read_digits radix s3 0 false).

End JSString.

(** ** JavaScript numbers that may carry a fraction *)

Module JSNumber.

Import JSString.
Local Open Scope string_scope.
Local Open Scope Z_scope.

(** A number: NaN, an infinity, or a rational. The two zeros of
    binary64 are one value here. *)
Inductive number :=
| NaN
| Inf (negative : bool)
| Fin (q : Q).

Definition of_Z (z : Z) : number := Fin (inject_Z z).

Definition isNaN (x : number) : bool :=
  match x with
  | NaN => true
  | _ => false
  end.

Definition Qltb (a b : Q) : bool := negb (Qle_bool b a).

(** [x < y]; false as soon as one side is NaN. *)
Definition lt (x y : number) : bool :=
  match x, y with
  | NaN, _ => false
  | _, NaN => false
  | Inf true, Inf true => false
  | Inf true, _ => true
  | _, Inf true => false
  | Inf false, _ => false
  | Fin _, Inf false => true
  | Fin a, Fin b => Qltb a b
  end.

(** [x > y]. *)
Definition gt (x y : number) : bool := lt y x.

(** [x <= y]. *)
Definition le (x y : number) : bool :=
  match x, y with
  | NaN, _ => false
  | _, NaN => false
  | Inf true, _ => true
  | _, Inf false => true
  | Inf false, _ => false
  | Fin _, Inf true => false
  | Fin a, Fin b => Qle_bool a b
  end.

Definition is_zero (q : Q) : bool := Qeq_bool q 0.
Definition is_neg (q : Q) : bool := Qltb q 0.

(** [x + y]. *)
Definition add (x y : number) : number :=
  match x, y with
  | NaN, _ => NaN
  | _, NaN => NaN
  | Inf a, Inf b => if Bool.eqb a b then Inf a else NaN
  | Inf a, Fin _ => Inf a
  | Fin _, Inf b => Inf b
  | Fin a, Fin b => Fin (Qred (a + b))
  end.

(** [x * y]. *)
Definition mul (x y : number) : number :=
  match x, y with
  | NaN, _ => NaN
  | _, NaN => NaN
  | Inf a, Inf b => Inf (xorb a b)
  | Inf a, Fin q => if is_zero q then NaN else Inf (xorb a (is_neg q))
  | Fin q, Inf b => if is_zero q then NaN else Inf (xorb (is_neg q) b)
  | Fin a, Fin b => Fin (Qred (a * b))
  end.

(** [x / y]; a zero divisor counts as the positive zero. *)
Definition div (x y : number) : number :=
  match x, y with
  | NaN, _ => NaN
  | _, NaN => NaN
  | Inf _, Inf _ => NaN
  | Inf a, Fin q => Inf (xorb a (is_neg q))
  | Fin _, Inf _ => Fin 0
  | Fin a, Fin b =>
      if is_zero b then (if is_zero a then NaN else Inf (is_neg a))
      else Fin (Qred (a / b))
  end.

(** Decimal digits of a natural number, most significant first. *)
Fixpoint digits_fuel (fuel : nat) (n : Z) (acc : string) : string :=
  match fuel with
  | O => acc
  | S fuel' =>
      let acc' := String (ascii_of_N (Z.to_N (48 + n mod 10))) acc in
      if n <? 10 then acc' else digits_fuel fuel' (n / 10) acc'
  end.

Definition nat_digits (n : Z) : string :=
  digits_fuel (S (Z.to_nat (Z.log2 n))) n "".

(** [String(z)] for an integer. *)
Definition Z_to_string (z : Z) : string :=
  if z <? 0 then String "-" (nat_digits (- z)) else nat_digits z.

(** The integer [n] for which [n / 100] is nearest to [q >= 0], the
    larger one of two. *)
Definition nearest_hundredth (q : Q) : Z :=
  (200 * Qnum q + Z.pos (Qden q)) / (2 * Z.pos (Qden q)).

(** The digits of [n / 100] with two decimals. *)
Definition hundredths_to_string (n : Z) : string :=
  let frac := n mod 100 in
  nat_digits (n / 100) ++ "." ++ (if frac <? 10 then "0" else "") ++ nat_digits frac.

(** [x.toFixed(2)]. From 10^21 on JavaScript switches to the exponent
    notation of [String(x)]; the model keeps plain digits there. *)
Definition toFixed2 (x : number) : string :=
  match x with
  | NaN => "NaN"
  | Inf false => "Infinity"
  | Inf true => "-Infinity"
  | Fin q =>
      if is_neg q
      then "-" ++ hundredths_to_string (nearest_hundredth (Qopp q))
      else hundredths_to_string (nearest_hundredth q)
  end.

(** The digits at the front of [s]: their value continuing [acc], how
    many there are, and the rest of [s]. *)
Fixpoint take_digits (s : string) (acc : Z) (count : nat) : Z * nat * string :=
  match s with
  | String c s' =>
      if is_digit c then take_digits s' (acc * 10 + digit_value c) (S count)
      else (acc, count, s)
  | "" => (acc, count, s)
  end.

(** The exponent part [e] or [E], a sign and digits, if [s] starts with
    a complete one; else 0. *)
Definition take_exponent (s : string) : Z :=
  match s with
  | String c r =>
      if (Ascii.eqb c "e" || Ascii.eqb c "E")%bool then
        let '(sg, r1) :=
          match r with
          | String "-" r' => (-1, r')
          | String "+" r' => (1, r')
          | _ => (1, r)
          end in
        let '(e, n, _) := take_digits r1 0 O in
        match n with
        | O => 0
        | S _ => sg * e
        end
      else 0
  | "" => 0
  end.

Definition pow10 (e : Z) : Q :=
  if e <? 0 then 1 # Z.to_pos (10 ^ (- e)) else inject_Z (10 ^ e).

(** [parseFloat(s)] for a string: white space, a sign, then [Infinity]
    or the longest decimal literal. *)
Definition parseFloat (s : string) : number :=
  let s1 := skip_spaces s in
  let '(neg, s2) :=
    match s1 with
    | String "-" r => (true, r)
    | String "+" r => (false, r)
    | _ => (false, s1)
    end in
  match strip_prefix "Infinity" s2 with
  | Some _ => Inf neg
  | None =>
      let '(ip, ni, r1) := take_digits s2 0 O in
      let '(fp, nf, r2) :=
        match r1 with
        | String "." r => take_digits r ip O
        | _ => (ip, O, r1)
        end in
      match (ni + nf)%nat with
      | O => NaN
      | S _ =>
          let e := take_exponent r2 in
          let m := inject_Z (if neg then - fp else fp) in
          Fin (Qred (m * pow10 (e - Z.of_nat nf)))
      end
  end.

End JSNumber.

(** A form field holds the text of an input or a number. *)
Inductive field :=
| FText (s : string)
| FNumber (x : JSNumber.number).

(** [parseFloat(v)]; a number is turned into text and read back, which
    gives the number again. *)
Definition parseFloat_field (v : field) : JSNumber.number :=
  match v with
  | FText s => JSNumber.parseFloat s
  | FNumber x => x
  end.

(** [parseInt(v)]; of a number the integer part is read (all the
    numbers this field can hold are integers or NaN). *)
Definition parseInt_field (v : field) : option Z :=
  match v with
  | FText s => JSString.parseInt s
  | FNumber (JSNumber.Fin q) => Some (Z.quot (Qnum q) (Z.pos (Qden q)))
  | FNumber _ => None
  end.

(** [parseInt(v) || 0]. *)
Definition parseInt_or_0 (v : field) : Z :=
  match parseInt_field v with
  | Some n => n
  | None => 0
  end.

(** ** The period parser ([parsePeriodName] and the guard of its effect) *)

Module Period.

Import JSString.
Local Open Scope string_scope.
Local Open Scope Z_scope.

Definition monthNames : list string :=
  ["january"; "february"; "march"; "april"; "may"; "june";
   "july"; "august"; "september"; "october"; "november"; "december"].

Definition shortMonthNames : list string :=
  ["jan"; "feb"; "mar"; "apr"; "may"; "jun";
   "jul"; "aug"; "sep"; "oct"; "nov"; "dec"].

(** The alternatives of the first group of the pattern, in its order. *)
Definition month_alternatives : list string := (monthNames ++ shortMonthNames)%list.

(** Exactly four digits: [\d{4}] up to the end of the input. *)
Definition four_digits (s : string) : bool :=
  match s with
  | String a (String b (String c (String d ""))) =>
      is_digit a && is_digit b && is_digit c && is_digit d
  | _ => false
  end.

(** The pattern after its first group, [\s*(\d{4})?$]: the greedy
    [\s*] takes all the white space (giving some back leaves a white
    space in front of [(\d{4})?$], which then fails); what is left is
    the end of the input, with the second group undefined, or four
    digits and the end of the input. *)
Definition match_rest (s : string) : option (option string) :=
  let r := skip_spaces s in
  if String.eqb r "" then Some None
  else if four_digits r then Some (Some r)
  else None.

(** Try the alternatives from left to right; an alternative after which
    the rest of the pattern fails is given up for the next one. *)
Fixpoint match_alternatives (alts : list string) (s : string)
  : option (string * option string) :=
  match alts with
  | [] => None
  | alt :: alts' =>
      match strip_prefix alt s with
      | Some rest =>
          match match_rest rest with
          | Some g2 => Some (alt, g2)
          | None => match_alternatives alts' s
          end
      | None => match_alternatives alts' s
      end
  end.

(** [s.match(/^(january|...|dec)\s*(\d{4})?$/)]: groups 1 and 2, or
    [None] for [null]. *)
Definition regex_match (s : string) : option (string * option string) :=
  match_alternatives month_alternatives s.

(** [parsePeriodName]: the month ([None] is [null]) and the year
    ([None] is NaN). *)
Definition parsePeriodName (name : string) (currentYear : Z) : option Z * option Z :=
  match regex_match (toLowerCase name) with
  | Some (monthString, yearString) =>
      let month := indexOf monthNames monthString + 1 in
      let month :=
        if month =? 0 then indexOf shortMonthNames monthString + 1 else month in
      let year :=
        match yearString with
        | Some ys => if String.eqb ys "" then Some currentYear else parseInt ys
        | None => Some currentYear
        end in
      (Some month, year)
  | None => (None, Some currentYear)
  end.

(** The condition of the effect:
    [parsed.month > 0 && parsed.month <= 12 &&
     parsed.year >= 1900 && parsed.year <= 2100]. *)
Definition period_ok (parsed : option Z * option Z) : bool :=
  match parsed with
  | (Some month, Some year) =>
      (month >? 0) && (month <=? 12) && (year >=? 1900) && (year <=? 2100)
  | _ => false
  end.

(** The parser as the effect uses it: the month and year it goes on
    with, or [None] where it falls back to zero working days. *)
Definition parsePeriod (name : string) (currentYear : Z) : option (Z * Z) :=
  match parsePeriodName name currentYear with
  | (Some month, Some year) =>
      if period_ok (Some month, Some year) then Some (month, year) else None
  | _ => None
  end.

End Period.

(** ** Records, stored text and the state of the component *)

(** An attendance record. [timestamp] is the time value, in
    milliseconds since the epoch, of the ISO-8601 text that the record
    carries. *)
Record AttendanceRecord := mkRecord {
  periodName : string;
  totalWorkingDays : Z;
  daysAttended : JSNumber.number;
  extraHolidays : Z;
  attendancePercentage : JSNumber.number;
  timestamp : Z;
  id : string
}.

(** JSON values, as far as the collection needs them: scalars, flat
    objects, and an array of those. A JSON text is identified with the
    value it denotes; [JTime t] is the string that holds the ISO-8601
    text of [t]. *)
Inductive json_scalar :=
| JNull
| JBool (b : bool)
| JNum (q : Q)
| JStr (s : string)
| JTime (t : Z).

Inductive json_item :=
| JObj (props : list (string * json_scalar))
| JScalar (v : json_scalar).

Inductive json :=
| JArr (items : list json_item)
| JItem (i : json_item).

(** What [localStorage.getItem] can find under the key: a JSON text,
    the empty text, or a text that [JSON.parse] rejects. *)
Inductive stored_item :=
| TextJson (j : json)
| TextEmpty
| TextMalformed.

Inductive message_kind := success | error.

(** The [useState] cells of the component and the storage slot
    ['attendanceRecords']. [st_showPlusOneTick] and
    [st_isPlusOneFlashing] exist in the README variant only. *)
Record AppState := mkState {
  st_periodName : string;
  st_totalWorkingDays : Z;
  st_daysAttended : field;
  st_extraHolidays : field;
  st_attendancePercentage : option field;
  st_attendanceRecords : list AttendanceRecord;
  st_isLoading : bool;
  st_message : option string;
  st_messageType : option message_kind;
  st_showDeleteConfirm : bool;
  st_recordToDelete : option AttendanceRecord;
  st_editingRecordId : option string;
  st_showAttendanceDisplayInButton : bool;
  st_showPlusOneTick : bool;
  st_isPlusOneFlashing : bool;
  st_localStorage : option stored_item
}.

(** The setters of the cells, and [localStorage.setItem]. *)
Definition setPeriodName (v : string) (s : AppState) : AppState :=
  mkState v (st_totalWorkingDays s) (st_daysAttended s) (st_extraHolidays s)
          (st_attendancePercentage s) (st_attendanceRecords s)
          (st_isLoading s) (st_message s) (st_messageType s)
          (st_showDeleteConfirm s) (st_recordToDelete s)
          (st_editingRecordId s) (st_showAttendanceDisplayInButton s)
          (st_showPlusOneTick s) (st_isPlusOneFlashing s) (st_localStorage s).

Definition setTotalWorkingDays (v : Z) (s : AppState) : AppState :=
  mkState (st_periodName s) v (st_daysAttended s) (st_extraHolidays s)
          (st_attendancePercentage s) (st_attendanceRecords s)
          (st_isLoading s) (st_message s) (st_messageType s)
          (st_showDeleteConfirm s) (st_recordToDelete s)
          (st_editingRecordId s) (st_showAttendanceDisplayInButton s)
          (st_showPlusOneTick s) (st_isPlusOneFlashing s) (st_localStorage s).

Definition setDaysAttended (v : field) (s : AppState) : AppState :=
  mkState (st_periodName s) (st_totalWorkingDays s) v (st_extraHolidays s)
          (st_attendancePercentage s) (st_attendanceRecords s)
          (st_isLoading s) (st_message s) (st_messageType s)
          (st_showDeleteConfirm s) (st_recordToDelete s)
          (st_editingRecordId s) (st_showAttendanceDisplayInButton s)
          (st_showPlusOneTick s) (st_isPlusOneFlashing s) (st_localStorage s).

Definition setExtraHolidays (v : field) (s : AppState) : AppState :=
  mkState (st_periodName s) (st_totalWorkingDays s) (st_daysAttended s) v
          (st_attendancePercentage s) (st_attendanceRecords s)
          (st_isLoading s) (st_message s) (st_messageType s)
          (st_showDeleteConfirm s) (st_recordToDelete s)
          (st_editingRecordId s) (st_showAttendanceDisplayInButton s)
          (st_showPlusOneTick s) (st_isPlusOneFlashing s) (st_localStorage s).

Definition setAttendancePercentage (v : option field) (s : AppState) : AppState :=
  mkState (st_periodName s) (st_totalWorkingDays s) (st_daysAttended s)
          (st_extraHolidays s) v (st_attendanceRecords s) (st_isLoading s)
          (st_message s) (st_messageType s) (st_showDeleteConfirm s)
          (st_recordToDelete s) (st_editingRecordId s)
          (st_showAttendanceDisplayInButton s) (st_showPlusOneTick s)
          (st_isPlusOneFlashing s) (st_localStorage s) .

Definition setAttendanceRecords (v : list AttendanceRecord) (s : AppState) : AppState :=
  mkState (st_periodName s) (st_totalWorkingDays s) (st_daysAttended s)
          (st_extraHolidays s) (st_attendancePercentage s) v (st_isLoading s)
          (st_message s) (st_messageType s) (st_showDeleteConfirm s)
          (st_recordToDelete s) (st_editingRecordId s)
          (st_showAttendanceDisplayInButton s) (st_showPlusOneTick s)
          (st_isPlusOneFlashing s) (st_localStorage s) .

Definition setIsLoading (v : bool) (s : AppState) : AppState :=
  mkState (st_periodName s) (st_totalWorkingDays s) (st_daysAttended s)
          (st_extraHolidays s) (st_attendancePercentage s)
          (st_attendanceRecords s) v (st_message s) (st_messageType s)
          (st_showDeleteConfirm s) (st_recordToDelete s)
          (st_editingRecordId s) (st_showAttendanceDisplayInButton s)
          (st_showPlusOneTick s) (st_isPlusOneFlashing s) (st_localStorage s).

Definition setMessage (v : option string) (s : AppState) : AppState :=
  mkState (st_periodName s) (st_totalWorkingDays s) (st_daysAttended s)
          (st_extraHolidays s) (st_attendancePercentage s)
          (st_attendanceRecords s) (st_isLoading s) v (st_messageType s)
          (st_showDeleteConfirm s) (st_recordToDelete s)
          (st_editingRecordId s) (st_showAttendanceDisplayInButton s)
          (st_showPlusOneTick s) (st_isPlusOneFlashing s) (st_localStorage s).

Definition setMessageType (v : option message_kind) (s : AppState) : AppState :=
  mkState (st_periodName s) (st_totalWorkingDays s) (st_daysAttended s)
          (st_extraHolidays s) (st_attendancePercentage s)
          (st_attendanceRecords s) (st_isLoading s) (st_message s) v
          (st_showDeleteConfirm s) (st_recordToDelete s)
          (st_editingRecordId s) (st_showAttendanceDisplayInButton s)
          (st_showPlusOneTick s) (st_isPlusOneFlashing s) (st_localStorage s).

Definition setShowDeleteConfirm (v : bool) (s : AppState) : AppState :=
  mkState (st_periodName s) (st_totalWorkingDays s) (st_daysAttended s)
          (st_extraHolidays s) (st_attendancePercentage s)
          (st_attendanceRecords s) (st_isLoading s) (st_message s)
          (st_messageType s) v (st_recordToDelete s) (st_editingRecordId s)
          (st_showAttendanceDisplayInButton s) (st_showPlusOneTick s)
          (st_isPlusOneFlashing s) (st_localStorage s) .

Definition setRecordToDelete (v : option AttendanceRecord) (s : AppState) : AppState :=
  mkState (st_periodName s) (st_totalWorkingDays s) (st_daysAttended s)
          (st_extraHolidays s) (st_attendancePercentage s)
          (st_attendanceRecords s) (st_isLoading s) (st_message s)
          (st_messageType s) (st_showDeleteConfirm s) v
          (st_editingRecordId s) (st_showAttendanceDisplayInButton s)
          (st_showPlusOneTick s) (st_isPlusOneFlashing s) (st_localStorage s).

Definition setEditingRecordId (v : option string) (s : AppState) : AppState :=
  mkState (st_periodName s) (st_totalWorkingDays s) (st_daysAttended s)
          (st_extraHolidays s) (st_attendancePercentage s)
          (st_attendanceRecords s) (st_isLoading s) (st_message s)
          (st_messageType s) (st_showDeleteConfirm s) (st_recordToDelete s) v
          (st_showAttendanceDisplayInButton s) (st_showPlusOneTick s)
          (st_isPlusOneFlashing s) (st_localStorage s) .

Definition setShowAttendanceDisplayInButton (v : bool) (s : AppState) : AppState :=
  mkState (st_periodName s) (st_totalWorkingDays s) (st_daysAttended s)
          (st_extraHolidays s) (st_attendancePercentage s)
          (st_attendanceRecords s) (st_isLoading s) (st_message s)
          (st_messageType s) (st_showDeleteConfirm s) (st_recordToDelete s)
          (st_editingRecordId s) v (st_showPlusOneTick s)
          (st_isPlusOneFlashing s) (st_localStorage s) .

Definition setShowPlusOneTick (v : bool) (s : AppState) : AppState :=
  mkState (st_periodName s) (st_totalWorkingDays s) (st_daysAttended s)
          (st_extraHolidays s) (st_attendancePercentage s)
          (st_attendanceRecords s) (st_isLoading s) (st_message s)
          (st_messageType s) (st_showDeleteConfirm s) (st_recordToDelete s)
          (st_editingRecordId s) (st_showAttendanceDisplayInButton s) v
          (st_isPlusOneFlashing s) (st_localStorage s) .

Definition setIsPlusOneFlashing (v : bool) (s : AppState) : AppState :=
  mkState (st_periodName s) (st_totalWorkingDays s) (st_daysAttended s)
          (st_extraHolidays s) (st_attendancePercentage s)
          (st_attendanceRecords s) (st_isLoading s) (st_message s)
          (st_messageType s) (st_showDeleteConfirm s) (st_recordToDelete s)
          (st_editingRecordId s) (st_showAttendanceDisplayInButton s)
          (st_showPlusOneTick s) v (st_localStorage s) .

Definition setItem (v : option stored_item) (s : AppState) : AppState :=
  mkState (st_periodName s) (st_totalWorkingDays s) (st_daysAttended s)
          (st_extraHolidays s) (st_attendancePercentage s)
          (st_attendanceRecords s) (st_isLoading s) (st_message s)
          (st_messageType s) (st_showDeleteConfirm s) (st_recordToDelete s)
          (st_editingRecordId s) (st_showAttendanceDisplayInButton s)
          (st_showPlusOneTick s) (st_isPlusOneFlashing s) v.

(** Run the calls of a handler one after the other. *)
Definition run (calls : list (AppState -> AppState)) (s : AppState) : AppState :=
  fold_left (fun s' call => call s') calls s.

(** What a handler gets from outside: the clock, the next random UUID,
    the month name of [toLocaleString] and the offset of local time from
    UTC in milliseconds. *)
Record Env := mkEnv {
  now : Z;
  randomUUID : string;
  currentMonthName : string;
  tzOffset : Z
}.

Definition msPerDay : Z := 86400000.

(** [new Date(t).getFullYear()] for a time value [t]. *)
Definition fullYearOf (tz t : Z) : Z := JSDate.YearFromDay ((t + tz) / msPerDay).

(** [`${currentMonth} ${currentYear}`] of today. *)
Definition todayPeriod (env : Env) : string :=
  (currentMonthName env ++ " "
   ++ JSNumber.Z_to_string (fullYearOf (tzOffset env) (now env)))%string.

(** ** JSON.stringify and JSON.parse of the collection *)

(** A number in JSON: NaN and the infinities become [null]. *)
Definition json_of_number (x : JSNumber.number) : json_scalar :=
  match x with
  | JSNumber.Fin q => JNum q
  | _ => JNull
  end.

Definition json_of_record (r : AttendanceRecord) : json_item :=
  JObj [("periodName", JStr (periodName r));
        ("totalWorkingDays", JNum (inject_Z (totalWorkingDays r)));
        ("daysAttended", json_of_number (daysAttended r));
        ("extraHolidays", JNum (inject_Z (extraHolidays r)));
        ("attendancePercentage", json_of_number (attendancePercentage r));
        ("timestamp", JTime (timestamp r));
        ("id", JStr (id r))]%string.

(** [JSON.stringify(records)]. *)
Definition JSON_stringify (records : list AttendanceRecord) : stored_item :=
  TextJson (JArr (map json_of_record records)).

Fixpoint prop (name : string) (props : list (string * json_scalar)) : option json_scalar :=
  match props with
  | [] => None
  | (k, v) :: props' => if String.eqb k name then Some v else prop name props'
  end.

Definition as_string (j : option json_scalar) : option string :=
  match j with
  | Some (JStr s) => Some s
  | _ => None
  end.

Definition as_number (j : option json_scalar) : option JSNumber.number :=
  match j with
  | Some (JNum q) => Some (JSNumber.Fin q)
  | _ => None
  end.

Definition as_integer (j : option json_scalar) : option Z :=
  match j with
  | Some (JNum q) =>
      if Qeq_bool q (inject_Z (Qfloor q)) then Some (Qfloor q) else None
  | _ => None
  end.

Definition as_time (j : option json_scalar) : option Z :=
  match j with
  | Some (JTime t) => Some t
  | _ => None
  end.

(** A parsed object seen as a record of the schema; [None] when it is
    not one (a property is missing or has another type). *)
Definition record_of_json (j : json_item) : option AttendanceRecord :=
  match j with
  | JObj props =>
      match as_string (prop "periodName" props),
            as_integer (prop "totalWorkingDays" props),
            as_number (prop "daysAttended" props),
            as_integer (prop "extraHolidays" props),
            as_number (prop "attendancePercentage" props),
            as_time (prop "timestamp" props),
            as_string (prop "id" props) with
      | Some p, Some t, Some d, Some e, Some a, Some ts, Some i =>
          Some (mkRecord p t d e a ts i)
      | _, _, _, _, _, _, _ => None
      end
  | _ => None
  end.

Fixpoint records_of_json (items : list json_item) : option (list AttendanceRecord) :=
  match items with
  | [] => Some []
  | j :: items' =>
      match record_of_json j, records_of_json items' with
      | Some r, Some rs => Some (r :: rs)
      | _, _ => None
      end
  end.

(** The outcome of reading the slot in the load effect. *)
Inductive loaded :=
| NothingStored                              (* [null] or the empty text *)
| ParseFailed                                (* [JSON.parse] throws *)
| Parsed (records : list AttendanceRecord)   (* an array of records *)
| OutsideSchema.                             (* any other JSON value *)

Definition JSON_parse_slot (slot : option stored_item) : loaded :=
  match slot with
  | None => NothingStored
  | Some TextEmpty => NothingStored
  | Some TextMalformed => ParseFailed
  | Some (TextJson (JArr items)) =>
      match records_of_json items with
      | Some rs => Parsed rs
      | None => OutsideSchema
      end
  | Some (TextJson _) => OutsideSchema
  end.

(** ** [Array.prototype.sort] *)

Section Sort.

Context {A : Type}.

(** The comparator gives a number, [None] for NaN; NaN counts as 0. *)
Variable comparefn : A -> A -> option Z.

Definition sortCompare (x y : A) : Z :=
  match comparefn x y with
  | Some v => v
  | None => 0
  end.

(** Put [x] in front of the first element that it does not have to
    follow. *)
Fixpoint sort_insert (x : A) (l : list A) : list A :=
  match l with
  | [] => [x]
  | y :: l' => if sortCompare x y <=? 0 then x :: l else y :: sort_insert x l'
  end.

(** The stable sort: for a comparator that is consistent this is the
    order that ECMAScript prescribes. *)
Fixpoint js_sort (l : list A) : list A :=
  match l with
  | [] => []
  | x :: l' => sort_insert x (js_sort l')
  end.

End Sort.

(** ** The effect that keeps [totalWorkingDays] up to date *)

(** The body of the effect on [periodName] and [extraHolidays]: the
    value it passes to [setTotalWorkingDays]. *)
Definition workingDaysEffect (periodName : string) (extraHolidays : field)
    (currentYear : Z) : Z :=
  let numExtraHolidays := parseInt_or_0 extraHolidays in
  match Period.parsePeriod periodName currentYear with
  | Some (month, year) => calculateMonthlyWorkingDays month year numExtraHolidays
  | None => 0
  end.

(** ** Messages *)

Module Msg.
Local Open Scope string_scope.

Definition totalNotPositive : string :=
  "Total working days must be greater than zero. Please ensure the period name is valid and there are no excessive extra holidays.".
Definition attendedInvalid : string :=
  "Please enter a non-negative number for days attended.".
Definition attendedExceeds : string :=
  "Days attended cannot exceed total working days.".
Definition fieldsInvalid : string :=
  "Please ensure all fields are correctly filled before saving/updating.".
Definition updated : string := "Record updated successfully!".
Definition saved : string := "Record saved successfully!".
Definition deleted : string := "Record deleted successfully!".
Definition loadFailed : string :=
  "Failed to load records from your browser's cache. They might be corrupted.".
Definition cannotAdd : string :=
  "Cannot add attendance: Days attended would exceed total working days.".
Definition autoSaveInvalid : string :=
  "Invalid data for auto-save. Please check inputs.".
Definition attendanceUpdated : string := "Attendance updated successfully!".
Definition attendanceSaved : string := "Attendance saved successfully!".

End Msg.

(** ** Handlers that the two variants share *)

(** [calculateAttendance]. *)
Definition calculateAttendance (st : AppState) : AppState :=
  let total := JSNumber.of_Z (st_totalWorkingDays st) in
  let attended := parseFloat_field (st_daysAttended st) in
  if JSNumber.le total (JSNumber.of_Z 0) then
    run [setMessage (Some Msg.totalNotPositive);
         setMessageType (Some error);
         setAttendancePercentage None;
         setShowAttendanceDisplayInButton false] st
  else if JSNumber.isNaN attended || JSNumber.lt attended (JSNumber.of_Z 0) then
    run [setMessage (Some Msg.attendedInvalid);
         setMessageType (Some error);
         setAttendancePercentage None;
         setShowAttendanceDisplayInButton false] st
  else if JSNumber.gt attended total then
    run [setMessage (Some Msg.attendedExceeds);
         setMessageType (Some error);
         setAttendancePercentage None;
         setShowAttendanceDisplayInButton false] st
  else
    let percentage := JSNumber.mul (JSNumber.div attended total) (JSNumber.of_Z 100) in
    run [setAttendancePercentage (Some (FText (JSNumber.toFixed2 percentage)));
         setMessage None;
         setMessageType None;
         setShowAttendanceDisplayInButton true] st.

(** A string is truthy when it is not empty; [null] is falsy. *)
Definition truthy (i : option string) : bool :=
  match i with
  | Some s => negb (String.eqb s "")
  | None => false
  end.

(** [rec.id === editingRecordId]. *)
Definition isEditing (st : AppState) (rec : AttendanceRecord) : bool :=
  match st_editingRecordId st with
  | Some s => String.eqb (id rec) s
  | None => false
  end.

(** [editingRecordId || crypto.randomUUID()]. *)
Definition idOrFresh (env : Env) (st : AppState) : string :=
  match st_editingRecordId st with
  | Some s => if String.eqb s "" then randomUUID env else s
  | None => randomUUID env
  end.

(** The condition that makes [saveOrUpdateAttendance] and the second
    check of [handlePlusOne] give up. *)
Definition draftInvalid (total attended : JSNumber.number) (name : string) : bool :=
  JSNumber.le total (JSNumber.of_Z 0)
  || JSNumber.isNaN attended
  || JSNumber.lt attended (JSNumber.of_Z 0)
  || JSNumber.gt attended total
  || String.eqb (JSString.trim name) "".

(** [parseFloat(percentage.toFixed(2))]. *)
Definition roundedPercentage (attended total : JSNumber.number) : JSNumber.number :=
  let percentage := JSNumber.mul (JSNumber.div attended total) (JSNumber.of_Z 100) in
  JSNumber.parseFloat (JSNumber.toFixed2 percentage).

(** [handleBackToMain]. *)
Definition handleBackToMain (env : Env) (st : AppState) : AppState :=
  run [setEditingRecordId None;
       setDaysAttended (FText "");
       setExtraHolidays (FText "");
       setAttendancePercentage None;
       setShowAttendanceDisplayInButton false;
       setMessage None;
       setMessageType None;
       setPeriodName (todayPeriod env)] st.

(** [record.extraHolidays || ''] . *)
Definition holidaysOrEmpty (n : Z) : field :=
  if n =? 0 then FText "" else FNumber (JSNumber.of_Z n).

(** [handleEditRecord]. *)
Definition handleEditRecord (record : AttendanceRecord) (st : AppState) : AppState :=
  run [setEditingRecordId (Some (id record));
       setPeriodName (periodName record);
       setDaysAttended (FNumber (daysAttended record));
       setExtraHolidays (holidaysOrEmpty (extraHolidays record));
       setAttendancePercentage (Some (FNumber (attendancePercentage record)));
       setShowAttendanceDisplayInButton false;
       setMessage None;
       setMessageType None] st.

Section Variant.

(** The comparator that the variant passes to [sort]. *)
Variable comparefn : AttendanceRecord -> AttendanceRecord -> option Z.

(** [saveOrUpdateAttendance]. *)
Definition saveOrUpdateAttendance_with (env : Env) (st : AppState) : AppState :=
  let total := JSNumber.of_Z (st_totalWorkingDays st) in
  let attended := parseFloat_field (st_daysAttended st) in
  if draftInvalid total attended (st_periodName st) then
    run [setMessage (Some Msg.fieldsInvalid);
         setMessageType (Some error);
         setShowAttendanceDisplayInButton false;
         setAttendancePercentage None] st
  else
    let percentage := JSNumber.mul (JSNumber.div attended total) (JSNumber.of_Z 100) in
    let recordData :=
      mkRecord (JSString.trim (st_periodName st))
               (st_totalWorkingDays st)
               attended
               (parseInt_or_0 (st_extraHolidays st))
               (roundedPercentage attended total)
               (now env)
               (idOrFresh env st) in
    if truthy (st_editingRecordId st) then
      let updatedRecords :=
        js_sort comparefn
          (map (fun rec => if isEditing st rec then recordData else rec)
               (st_attendanceRecords st)) in
      run [setAttendancePercentage (Some (FText (JSNumber.toFixed2 percentage)));
           setShowAttendanceDisplayInButton true;
           setMessage (Some Msg.updated);
           setMessageType (Some success);
           setAttendanceRecords updatedRecords;
           setItem (Some (JSON_stringify updatedRecords))] st
    else
      let updatedRecords :=
        js_sort comparefn (recordData :: st_attendanceRecords st) in
      run [setAttendancePercentage (Some (FText (JSNumber.toFixed2 percentage)));
           setShowAttendanceDisplayInButton true;
           setMessage (Some Msg.saved);
           setMessageType (Some success);
           setPeriodName "";
           setDaysAttended (FText "");
           setExtraHolidays (FText "");
           setAttendancePercentage None;
           setShowAttendanceDisplayInButton false;
           setPeriodName (todayPeriod env);
           setAttendanceRecords updatedRecords;
           setItem (Some (JSON_stringify updatedRecords))] st.

End Variant.

(** ** The variant of [src/App.jsx]: the history is ordered by timestamp *)

Module AppJsx.

(** [(a, b) => new Date(b.timestamp) - new Date(a.timestamp)]. *)
Definition comparefn (a b : AttendanceRecord) : option Z :=
  Some (timestamp b - timestamp a).

Definition saveOrUpdateAttendance : Env -> AppState -> AppState :=
  saveOrUpdateAttendance_with comparefn.

(** [confirmDelete]: the remaining records keep their order. *)
Definition confirmDelete (env : Env) (st : AppState) : AppState :=
  match st_recordToDelete st with
  | Some recordToDelete =>
      let updatedRecords :=
        filter (fun rec => negb (String.eqb (id rec) (id recordToDelete)))
               (st_attendanceRecords st) in
      run [setAttendanceRecords updatedRecords;
           setItem (Some (JSON_stringify updatedRecords));
           setMessage (Some Msg.deleted);
           setMessageType (Some success);
           setShowDeleteConfirm false;
           setRecordToDelete None;
           if isEditing st recordToDelete then handleBackToMain env else (fun s => s)] st
  | None => st
  end.

(** The effect that runs once on mount; [None] when the stored JSON is
    not an array of records, which this model does not follow. *)
Definition loadEffect (env : Env) (st : AppState) : option AppState :=
  match JSON_parse_slot (st_localStorage st) with
  | NothingStored =>
      Some (run [setPeriodName (todayPeriod env); setIsLoading false] st)
  | ParseFailed =>
      Some (run [setPeriodName (todayPeriod env);
                 setMessage (Some Msg.loadFailed);
                 setMessageType (Some error);
                 setIsLoading false] st)
  | Parsed parsedRecords =>
      Some (run [setPeriodName (todayPeriod env);
                 setAttendanceRecords parsedRecords;
                 match parsedRecords with
                 | lastRecord :: _ => handleEditRecord lastRecord
                 | [] => fun s => s
                 end;
                 setIsLoading false] st)
  | OutsideSchema => None
  end.

End AppJsx.

(** ** The variant kept in [README.md]: the history is ordered by period *)

Module Readme.

Local Open Scope string_scope.
Local Open Scope Z_scope.

(** What [monthMap[key]] gives: a month index, [undefined], or one of
    the objects that every object inherits under a lower-case name. *)
Inductive month_lookup :=
| MonthIndex (i : Z)
| Undefined
| Inherited.

Definition monthMap : list (string * Z) :=
  [("january", 0); ("february", 1); ("march", 2); ("april", 3); ("may", 4);
   ("june", 5); ("july", 6); ("august", 7); ("september", 8); ("october", 9);
   ("november", 10); ("december", 11);
   ("jan", 0); ("feb", 1); ("mar", 2); ("apr", 3); ("may", 4); ("jun", 5);
   ("jul", 6); ("aug", 7); ("sep", 8); ("oct", 9); ("nov", 10); ("dec", 11)].

Fixpoint assoc (k : string) (m : list (string * Z)) : option Z :=
  match m with
  | [] => None
  | (k', v) :: m' => if String.eqb k' k then Some v else assoc k m'
  end.

Definition monthMap_get (key : string) : month_lookup :=
  match assoc key monthMap with
  | Some i => MonthIndex i
  | None =>
      if String.eqb key "constructor" || String.eqb key "__proto__"
      then Inherited else Undefined
  end.

(** The time value of [new Date(year, monthIndex, 1)], local midnight
    seen from UTC; [None] is the Invalid Date. *)
Definition firstOfMonth (tz year monthIndex : Z) : option Z :=
  let yr := if (0 <=? year) && (year <=? 99) then 1900 + year else year in
  let t := JSDate.MakeDay yr monthIndex 1 * msPerDay - tz in
  if Z.abs t <=? 8640000000000000 then Some t else None.

(** [parsePeriodNameToSortableDate(periodName).getTime()]; [None] is
    NaN. *)
Definition parsePeriodNameToSortableDate (tz : Z) (periodName : string) : option Z :=
  match JSString.split_space periodName with
  | monthString :: yearString :: _ =>
      match monthMap_get (JSString.toLowerCase monthString),
            JSString.parseInt yearString with
      | Undefined, _ => Some 0
      | _, None => Some 0
      | MonthIndex monthIndex, Some year => firstOfMonth tz year monthIndex
      | Inherited, Some _ => None
      end
  | _ => Some 0
  end.

(** [(a, b) => dateB.getTime() - dateA.getTime()]. *)
Definition comparefn (tz : Z) (a b : AttendanceRecord) : option Z :=
  match parsePeriodNameToSortableDate tz (periodName b),
        parsePeriodNameToSortableDate tz (periodName a) with
  | Some dateB, Some dateA => Some (dateB - dateA)
  | _, _ => None
  end.

Definition saveOrUpdateAttendance (env : Env) : AppState -> AppState :=
  saveOrUpdateAttendance_with (comparefn (tzOffset env)) env.

(** [confirmDelete]: the remaining records are sorted again. *)
Definition confirmDelete (env : Env) (st : AppState) : AppState :=
  match st_recordToDelete st with
  | Some recordToDelete =>
      let updatedRecords :=
        js_sort (comparefn (tzOffset env))
          (filter (fun rec => negb (String.eqb (id rec) (id recordToDelete)))
                  (st_attendanceRecords st)) in
      run [setAttendanceRecords updatedRecords;
           setItem (Some (JSON_stringify updatedRecords));
           setMessage (Some Msg.deleted);
           setMessageType (Some success);
           setShowDeleteConfirm false;
           setRecordToDelete None;
           if isEditing st recordToDelete then handleBackToMain env else (fun s => s)] st
  | None => st
  end.

(** The effect that runs once on mount; [None] when the stored JSON is
    not an array of records. *)
Definition loadEffect (env : Env) (st : AppState) : option AppState :=
  match JSON_parse_slot (st_localStorage st) with
  | NothingStored =>
      Some (run [setPeriodName (todayPeriod env); setIsLoading false] st)
  | ParseFailed =>
      Some (run [setPeriodName (todayPeriod env);
                 setMessage (Some Msg.loadFailed);
                 setMessageType (Some error);
                 setIsLoading false] st)
  | Parsed parsedRecords =>
      let sortedRecords := js_sort (comparefn (tzOffset env)) parsedRecords in
      Some (run [setPeriodName (todayPeriod env);
                 setAttendanceRecords sortedRecords;
                 match sortedRecords with
                 | lastRecord :: _ => handleEditRecord lastRecord
                 | [] => fun s => s
                 end;
                 setIsLoading false] st)
  | OutsideSchema => None
  end.

(** [parseFloat(daysAttended) || 0]. *)
Definition orZero (x : JSNumber.number) : JSNumber.number :=
  match x with
  | JSNumber.NaN => JSNumber.of_Z 0
  | JSNumber.Fin q => if JSNumber.is_zero q then JSNumber.of_Z 0 else x
  | JSNumber.Inf _ => x
  end.

(** [handlePlusOne]. The timer that it starts puts the two animation
    flags back later, see [plusOneTimeout]. *)
Definition handlePlusOne (env : Env) (st : AppState) : AppState :=
  let currentDaysAttended := orZero (parseFloat_field (st_daysAttended st)) in
  let newDaysAttended := JSNumber.add currentDaysAttended (JSNumber.of_Z 1) in
  if JSNumber.gt newDaysAttended (JSNumber.of_Z (st_totalWorkingDays st)) then
    run [setMessage (Some Msg.cannotAdd); setMessageType (Some error)] st
  else
    let first :=
      [setDaysAttended (FNumber newDaysAttended);
       setShowAttendanceDisplayInButton false;
       setAttendancePercentage None;
       setShowPlusOneTick true;
       setIsPlusOneFlashing true] in
    let name := JSString.trim (st_periodName st) in
    let total := JSNumber.of_Z (st_totalWorkingDays st) in
    let attended := newDaysAttended in
    if draftInvalid total attended name then
      run (first ++ [setMessage (Some Msg.autoSaveInvalid);
                     setMessageType (Some error)])%list st
    else
      let tempRecordData :=
        mkRecord name
                 (st_totalWorkingDays st)
                 newDaysAttended
                 (parseInt_or_0 (st_extraHolidays st))
                 (roundedPercentage attended total)
                 (now env)
                 (idOrFresh env st) in
      if truthy (st_editingRecordId st) then
        let updatedRecords :=
          js_sort (comparefn (tzOffset env))
            (map (fun rec => if isEditing st rec then tempRecordData else rec)
                 (st_attendanceRecords st)) in
        run (first ++ [setMessage (Some Msg.attendanceUpdated);
                       setMessageType (Some success);
                       setAttendanceRecords updatedRecords;
                       setItem (Some (JSON_stringify updatedRecords))])%list st
      else
        let updatedRecords :=
          js_sort (comparefn (tzOffset env)) (tempRecordData :: st_attendanceRecords st) in
        run (first ++ [setMessage (Some Msg.attendanceSaved);
                       setMessageType (Some success);
                       setAttendanceRecords updatedRecords;
                       setItem (Some (JSON_stringify updatedRecords))])%list st.

(** The callback of the timer of [handlePlusOne]. *)
Definition plusOneTimeout (st : AppState) : AppState :=
  run [setShowPlusOneTick false; setIsPlusOneFlashing false] st.

End Readme.

(** ** The yearly summary ([calculateYearlySummary]) *)

Record YearSummary := mkSummary {
  year : Z;
  sum_totalWorkingDays : Z;
  totalDaysAttended : JSNumber.number;
  yearlyPercentage : string
}.

(** [[...new Set(l)]]: every value once, in the order of its first
    occurrence. *)
Fixpoint newSet (l : list Z) : list Z :=
  match l with
  | [] => []
  | x :: l' => x :: filter (fun y => negb (y =? x)) (newSet l')
  end.

(** [(a, b) => b - a]. *)
Definition descending (a b : Z) : option Z := Some (b - a).

Definition summaryOfYear (tz : Z) (attendanceRecords : list AttendanceRecord)
    (year : Z) : YearSummary :=
  let recordsInYear :=
    filter (fun record => fullYearOf tz (timestamp record) =? year) attendanceRecords in
  let totalWorkingDaysYear :=
    fold_left (fun sum record => sum + totalWorkingDays record) recordsInYear 0 in
  let totalDaysAttendedYear :=
    fold_left (fun sum record => JSNumber.add sum (daysAttended record))
              recordsInYear (JSNumber.of_Z 0) in
  let yearlyPercentage :=
    if totalWorkingDaysYear >? 0
    then JSNumber.toFixed2
           (JSNumber.mul
              (JSNumber.div totalDaysAttendedYear (JSNumber.of_Z totalWorkingDaysYear))
              (JSNumber.of_Z 100))
    else "0.00"%string in
  mkSummary year totalWorkingDaysYear totalDaysAttendedYear yearlyPercentage.

Definition calculateYearlySummary (tz : Z) (attendanceRecords : list AttendanceRecord)
  : list YearSummary :=
  let years :=
    js_sort descending
      (newSet (map (fun record => fullYearOf tz (timestamp record)) attendanceRecords)) in
  map (summaryOfYear tz attendanceRecords) years.

(** ** The period labels of the specification *)

Module PeriodSpec.

Import JSString.
Local Open Scope string_scope.
Local Open Scope Z_scope.

Fixpoint all_chars (p : ascii -> bool) (s : string) : bool :=
  match s with
  | "" => true
  | String c s' => p c && all_chars p s'
  end.

(** The English month names and their three-letter abbreviations. *)
Definition month_table : list (string * Z) :=
  [("january", 1); ("february", 2); ("march", 3); ("april", 4); ("may", 5);
   ("june", 6); ("july", 7); ("august", 8); ("september", 9); ("october", 10);
   ("november", 11); ("december", 12);
   ("jan", 1); ("feb", 2); ("mar", 3); ("apr", 4); ("jun", 6); ("jul", 7);
   ("aug", 8); ("sep", 9); ("oct", 10); ("nov", 11); ("dec", 12)].

(** [tok] names month [m]. *)
Definition names_month (tok : string) (m : Z) : Prop := In (tok, m) month_table.

(** The number that a run of decimal digits writes. *)
Fixpoint decimal_from (acc : Z) (s : string) : Z :=
  match s with
  | "" => acc
  | String c s' => decimal_from (acc * 10 + digit_value c) s'
  end.

Definition decimal (s : string) : Z := decimal_from 0 s.

(** The year part of a label: nothing, or exactly four digits. *)
Definition year_text (yr : string) : Prop :=
  yr = "" \/ (String.length yr = 4%nat /\ all_chars is_digit yr = true).

(** The year that the year part stands for: the current year when it
    is missing. *)
Definition year_of (yr : string) (currentYear : Z) : Z :=
  if String.eqb yr "" then currentYear else decimal yr.

(** The label [s] reads as month [m] of year [y]: in lower case it is,
    from its first to its last character, a month name or abbreviation,
    then white space (possibly none), then the year part. *)
Definition reads_as (s : string) (currentYear m y : Z) : Prop :=
  exists tok ws yr,
    names_month tok m
    /\ all_chars is_space ws = true
    /\ year_text yr
    /\ toLowerCase s = tok ++ ws ++ yr
    /\ y = year_of yr currentYear.

(** A month token is at the start of the lower-cased label. *)
Definition starts_with_month (s : string) : Prop :=
  exists tok m rest, names_month tok m /\ toLowerCase s = tok ++ rest.

(** After a month token and white space the label has four digits that
    write a year outside 1900..2100. *)
Definition year_out_of_range (s : string) : Prop :=
  exists tok m ws yr rest,
    names_month tok m
    /\ all_chars is_space ws = true
    /\ String.length yr = 4%nat /\ all_chars is_digit yr = true
    /\ toLowerCase s = tok ++ ws ++ yr ++ rest
    /\ ~ (1900 <= decimal yr <= 2100).

Definition has_no_digit (s : string) : bool :=
  all_chars (fun c => negb (is_digit c)) s.
End PeriodSpec.

(** ** Auxiliary definitions for the proofs about the calculator *)

(** The [n] integers from [lo] upwards. *)
Definition Zrange (lo : Z) (n : nat) : list Z :=
  map (fun k => lo + Z.of_nat k) (seq 0 n).

(** The weekdays that the loop reads, pass after pass. *)
Fixpoint weekdays_seen (n : nat) (i : Z) (d : JSDate.Date) : list (option Z) :=
  match n with
  | O => []
  | S n' =>
      let d' := JSDate.setDate d i in
      JSDate.getDay d' :: weekdays_seen n' (i + 1) d'
  end.

Definition count_seen (w : Z) (ws : list (option Z)) : Z :=
  Z.of_nat (List.length (filter (is_weekday w) ws)).

(** The flag [secondSaturdayFound] only repeats what [saturdayCount]
    already says. *)
Definition flag_agrees (s : loop_state) : Prop :=
  0 <= saturdayCount s /\ secondSaturdayFound s = (2 <=? saturdayCount s).

(** For one month: the first day has the weekday that Zeller's
    congruence gives, and some working day is left. *)
Definition month_checks (m y : Z) : bool :=
  (JSDate.WeekDay (JSDate.MakeDay y (m - 1) 1) =? CalendarSpec.weekday y m 1)
  && (0 <? CalendarSpec.workingDays0 m y).

Definition years_check (lo : Z) (n : nat) : bool :=
  forallb (fun y => forallb (fun m => month_checks m y) (Zrange 1 12)) (Zrange lo n).

(** ** Auxiliary definitions for the proofs about the parser *)

Section ParserDefinitions.
Import JSString Period PeriodSpec.
Local Open Scope string_scope.
Local Open Scope Z_scope.

Definition is_lower_letter (c : ascii) : bool :=
  let n := code c in ((97 <=? n) && (n <=? 122))%N.

(** A character that may follow the month token. *)
Definition is_sep (c : ascii) : bool := is_space c || is_digit c.

(** The rest of a label: nothing, or something that starts with a
    character that is not white space. *)
Definition no_space_ahead (r : string) : Prop :=
  match r with
  | "" => True
  | String c _ => is_space c = false
  end.

(** The second group for a year part. *)
Definition year_group (yr : string) : option string :=
  if String.eqb yr "" then None else Some yr.

Definition is_word (s : string) : bool := all_chars is_lower_letter s.

(** The month that [parsePeriodName] computes from the first group. *)
Definition month_of_group (monthString : string) : Z :=
  let month := indexOf monthNames monthString + 1 in
  if month =? 0 then indexOf shortMonthNames monthString + 1 else month.

(** The decimal text of a year has four digits, writes that year, and
    has no letters that lower case could change. *)
Definition year_string_ok (y : Z) : bool :=
  four_digits (JSNumber.Z_to_string y)
  && (decimal (JSNumber.Z_to_string y) =? y)
  && String.eqb (toLowerCase (JSNumber.Z_to_string y)) (JSNumber.Z_to_string y).

End ParserDefinitions.

(** The cells as [useState] creates them, with nothing stored. *)
Definition initialState : AppState :=
  mkState "" 0 (FText "") (FText "") None [] true None None false None None
          false false false None.

(** [n / 100] is [q] rounded to two decimals, a half going up. *)
Definition rounds_to (q : Q) (n : Z) : Prop :=
  (inject_Z n - (1 # 2) <= q * 100 /\ q * 100 < inject_Z n + (1 # 2))%Q.

(** What [calculateAttendance] leaves to be seen: the text of the
    percentage, or the reason it gives for having none. *)
Inductive percentage_result :=
| Percentage (text : string)
| ValidationError (reason : string)
| NoResult.

Definition resultOf (st : AppState) : percentage_result :=
  match st_attendancePercentage st, st_message st with
  | Some (FText text), _ => Percentage text
  | _, Some reason => ValidationError reason
  | _, _ => NoResult
  end.



(** ** Auxiliary definitions for the proofs about the collection *)

(** Largest key first. *)
Definition sorted_desc {A : Type} (key : A -> Z) (l : list A) : Prop :=
  StronglySorted (fun a b => key b <= key a) l.

(** On the elements of [l] the comparator is the difference of the
    keys, second minus first. *)
Definition keyed_by {A : Type} (comparefn : A -> A -> option Z) (key : A -> Z)
    (l : list A) : Prop :=
  forall a b, In a l -> In b l -> comparefn a b = Some (key b - key a).

(** The key of the README variant, for a record whose date is valid. *)
Definition sortKey (tz : Z) (r : AttendanceRecord) : Z :=
  match Readme.parsePeriodNameToSortableDate tz (periodName r) with
  | Some t => t
  | None => 0
  end.

Definition validKey (tz : Z) (r : AttendanceRecord) : Prop :=
  Readme.parsePeriodNameToSortableDate tz (periodName r) <> None.

(** No record of [l] has an Invalid Date as its key. *)
Definition validKeys (tz : Z) (l : list AttendanceRecord) : bool :=
  forallb (fun r =>
             match Readme.parsePeriodNameToSortableDate tz (periodName r) with
             | Some _ => true
             | None => false
             end) l.

(** The records that a successful save sorts. *)
Definition savedList (env : Env) (st : AppState) : list AttendanceRecord :=
  let attended := parseFloat_field (st_daysAttended st) in
  let total := JSNumber.of_Z (st_totalWorkingDays st) in
  let recordData :=
    mkRecord (JSString.trim (st_periodName st)) (st_totalWorkingDays st) attended
             (parseInt_or_0 (st_extraHolidays st))
             (roundedPercentage attended total) (now env) (idOrFresh env st) in
  if truthy (st_editingRecordId st)
  then map (fun rec => if isEditing st rec then recordData else rec)
           (st_attendanceRecords st)
  else recordData :: st_attendanceRecords st.

(** No character of [s] is the space that [split] cuts at. *)
Definition no_space (s : string) : bool :=
  PeriodSpec.all_chars (fun c => negb (JSString.code c =? 32)%N) s.

(** [name] is a month word, one space and a year text: the month has
    index [mi] in [monthMap] and [parseInt] reads the year [y]. *)
Definition labelled (name : string) (mi y : Z) : Prop :=
  exists M yr,
    name = M ++ " " ++ yr
    /\ no_space M = true /\ no_space yr = true
    /\ Readme.monthMap_get (JSString.toLowerCase M) = Readme.MonthIndex mi
    /\ JSString.parseInt yr = Some y.

(** [name] is not a period for [parsePeriodNameToSortableDate]: it has
    no second part, or no month of [monthMap], or no year. *)
Definition unparseable (name : string) : Prop :=
  match JSString.split_space name with
  | monthString :: yearString :: _ =>
      Readme.monthMap_get (JSString.toLowerCase monthString) = Readme.Undefined
      \/ JSString.parseInt yearString = None
  | _ => True
  end.

(** Sample data: two stored records, a clock, and forms. *)
Definition recordApril : AttendanceRecord :=
  mkRecord "April 2025" 25 (JSNumber.of_Z 20) 0 (JSNumber.of_Z 80) 1745000000000 "b".

Definition recordMarch : AttendanceRecord :=
  mkRecord "March 2025" 25 (JSNumber.of_Z 18) 0 (JSNumber.of_Z 72) 1741000000000 "a".

Definition sampleEnv : Env := mkEnv 1750000000000 "uuid-1" "June" 0.

(** A new form for January 2025 over a history that holds April. *)
Definition formJanuary : AppState :=
  mkState "January 2025" 26 (FText "20") (FText "") None [recordApril] false
          None None false None None false false false
          (Some (JSON_stringify [recordApril])).

(** A form that edits an id that the history does not have. *)
Definition formGhost : AppState :=
  mkState "March 2025" 25 (FText "18") (FText "") None [recordApril; recordMarch]
          false None None false None (Some "ghost") false false false
          (Some (JSON_stringify [recordApril; recordMarch])).

Definition record1960 : AttendanceRecord :=
  mkRecord "March 1960" 26 (JSNumber.of_Z 20) 0 (JSNumber.Fin (7692 # 100))
           1741000000000 "c".

(** A new form whose period has no year, over a history that holds a
    period of 1960. *)
Definition formNoYear : AppState :=
  mkState "march" 25 (FText "20") (FText "") None [record1960] false
          None None false None None false false false
          (Some (JSON_stringify [record1960])).

(** The history with April picked for deletion. *)
Definition formDeleteApril : AppState :=
  mkState "June 2025" 25 (FText "") (FText "") None [recordApril; recordMarch]
          false None None true (Some recordApril) None false false false
          (Some (JSON_stringify [recordApril; recordMarch])).

(** An edited record whose days attended have reached the total. *)
Definition formFull : AppState :=
  mkState "March 2025" 25 (FNumber (JSNumber.of_Z 25)) (FText "")
          (Some (FNumber (JSNumber.of_Z 100)))
          [recordApril;
           mkRecord "March 2025" 25 (JSNumber.of_Z 25) 0 (JSNumber.of_Z 100)
                    1741000000000 "a"]
          false None None false None (Some "a") false false false
          (Some (JSON_stringify
                   [recordApril;
                    mkRecord "March 2025" 25 (JSNumber.of_Z 25) 0 (JSNumber.of_Z 100)
                             1741000000000 "a"])).

(** The numbers of a record are finite, so that JSON keeps them. *)
Definition storable (r : AttendanceRecord) : Prop :=
  exists d a, daysAttended r = JSNumber.Fin d /\ attendancePercentage r = JSNumber.Fin a.

(** The record that a create builds from the form. *)
Definition createdRecord (env : Env) (st : AppState) : AttendanceRecord :=
  let attended := parseFloat_field (st_daysAttended st) in
  mkRecord (JSString.trim (st_periodName st)) (st_totalWorkingDays st) attended
           (parseInt_or_0 (st_extraHolidays st))
           (roundedPercentage attended (JSNumber.of_Z (st_totalWorkingDays st)))
           (now env) (randomUUID env).

(** ** Auxiliary definitions for the proofs about the yearly summary *)

Definition sumZ (l : list Z) : Z := fold_right Z.add 0 l.


(** The records whose timestamp falls in year [y]. *)
Definition inYear (tz y : Z) (records : list AttendanceRecord) : list AttendanceRecord :=
  filter (fun record => fullYearOf tz (timestamp record) =? y) records.



(** ** Handlers of the delete dialogue, of the banner and of the inputs *)

(** [handleDeleteClick(e, record)]; [e.stopPropagation()] keeps the
    click from the list item around the button. *)
Definition handleDeleteClick (record : AttendanceRecord) (st : AppState) : AppState :=
  run [setRecordToDelete (Some record); setShowDeleteConfirm true] st.

(** [cancelDelete]. *)
Definition cancelDelete (st : AppState) : AppState :=
  run [setShowDeleteConfirm false; setRecordToDelete None] st.

(** [dismissMessage]. *)
Definition dismissMessage (st : AppState) : AppState :=
  run [setMessage None; setMessageType None] st.

(** [onChange] of the period input. *)
Definition changePeriodName (value : string) (st : AppState) : AppState :=
  run [setPeriodName value;
       setShowAttendanceDisplayInButton false;
       setAttendancePercentage None] st.

(** [Math.max(0, x)] for the [x] that [parseInt] gives: NaN stays NaN. *)
Definition Math_max_0 (x : option Z) : JSNumber.number :=
  match x with
  | Some n => JSNumber.of_Z (Z.max 0 n)
  | None => JSNumber.NaN
  end.

(** [onChange] of the input of the extra holidays. *)
Definition changeExtraHolidays (val : string) (st : AppState) : AppState :=
  run [setExtraHolidays
         (if String.eqb val "" then FText ""
          else FNumber (Math_max_0 (JSString.parseInt val)));
       setShowAttendanceDisplayInButton false;
       setAttendancePercentage None] st.

(** [onChange] of the input of the days attended. *)
Definition changeDaysAttended (value : string) (st : AppState) : AppState :=
  run [setDaysAttended (FText value);
       setShowAttendanceDisplayInButton false;
       setAttendancePercentage None] st.

(** [onClick] of an item of the history. *)
Definition clickRecord (record : AttendanceRecord) (st : AppState) : AppState :=
  if isEditing st record then st else handleEditRecord record st.

(** The form after [handleEditRecord record], whatever came before. *)
Definition opened (record : AttendanceRecord) (st : AppState) : Prop :=
  st_editingRecordId st = Some (id record)
  /\ st_periodName st = periodName record
  /\ st_daysAttended st = FNumber (daysAttended record)
  /\ st_extraHolidays st = holidaysOrEmpty (extraHolidays record)
  /\ st_attendancePercentage st = Some (FNumber (attendancePercentage record))
  /\ st_showAttendanceDisplayInButton st = false
  /\ st_message st = None
  /\ st_messageType st = None.

(** ** The two versions of the component *)

(** [src/App.jsx], and the version kept in README.md. *)
Inductive variant := InAppJsx | InReadme.

Definition loadEffect_of (v : variant) : Env -> AppState -> option AppState :=
  match v with
  | InAppJsx => AppJsx.loadEffect
  | InReadme => Readme.loadEffect
  end.

Definition saveOrUpdateAttendance_of (v : variant) : Env -> AppState -> AppState :=
  match v with
  | InAppJsx => AppJsx.saveOrUpdateAttendance
  | InReadme => Readme.saveOrUpdateAttendance
  end.

Definition confirmDelete_of (v : variant) : Env -> AppState -> AppState :=
  match v with
  | InAppJsx => AppJsx.confirmDelete
  | InReadme => Readme.confirmDelete
  end.

(** The comparator that a version sorts with. *)
Definition comparefn_of (v : variant) (env : Env)
  : AttendanceRecord -> AttendanceRecord -> option Z :=
  match v with
  | InAppJsx => AppJsx.comparefn
  | InReadme => Readme.comparefn (tzOffset env)
  end.

(** The order in which a version keeps the records that are left after
    a delete, and the records that it reads on mount: [src/App.jsx]
    keeps them as they are, the README variant sorts them. *)
Definition reordered (v : variant) (env : Env) (l : list AttendanceRecord)
  : list AttendanceRecord :=
  match v with
  | InAppJsx => l
  | InReadme => js_sort (Readme.comparefn (tzOffset env)) l
  end.

(** The two digits that end the text of [n / 100]. *)
Definition two_decimals (frac : Z) : string :=
  (if frac <? 10 then "0" else "") ++ JSNumber.nat_digits frac.

Definition two_decimals_ok (frac : Z) : bool :=
  match two_decimals frac with
  | String a (String b "") =>
      JSString.is_digit a && JSString.is_digit b
      && (JSString.digit_value a * 10 + JSString.digit_value b =? frac)
  | _ => false
  end.

(** The record that [saveOrUpdateAttendance] builds from the form. *)
Definition draftRecord (env : Env) (st : AppState) : AttendanceRecord :=
  let attended := parseFloat_field (st_daysAttended st) in
  mkRecord (JSString.trim (st_periodName st)) (st_totalWorkingDays st) attended
           (parseInt_or_0 (st_extraHolidays st))
           (roundedPercentage attended (JSNumber.of_Z (st_totalWorkingDays st)))
           (now env) (idOrFresh env st).

(** The days attended after one more click on the +1 button. *)
Definition plusOneDays (st : AppState) : JSNumber.number :=
  JSNumber.add (Readme.orZero (parseFloat_field (st_daysAttended st))) (JSNumber.of_Z 1).

(** The record that [handlePlusOne] builds. *)
Definition plusOneRecord (env : Env) (st : AppState) : AttendanceRecord :=
  mkRecord (JSString.trim (st_periodName st)) (st_totalWorkingDays st) (plusOneDays st)
           (parseInt_or_0 (st_extraHolidays st))
           (roundedPercentage (plusOneDays st) (JSNumber.of_Z (st_totalWorkingDays st)))
           (now env) (idOrFresh env st).

(** The list that a handler sorts: the new record in the place of the
    edited one, or in front when nothing is edited. *)
Definition placed (st : AppState) (new : AttendanceRecord) : list AttendanceRecord :=
  if truthy (st_editingRecordId st)
  then map (fun rec => if isEditing st rec then new else rec) (st_attendanceRecords st)
  else new :: st_attendanceRecords st.

(** A record as a valid form makes it: a positive total, days attended
    between 0 and the total, the percentage rounded to two decimals,
    and a period name that is trimmed and not empty. *)
Definition consistent (r : AttendanceRecord) : Prop :=
  0 < totalWorkingDays r
  /\ JSString.trim (periodName r) = periodName r
  /\ periodName r <> ""
  /\ exists a n,
       daysAttended r = JSNumber.Fin a
       /\ (0 <= a <= inject_Z (totalWorkingDays r))%Q
       /\ attendancePercentage r = JSNumber.Fin (Qred (n # 100))
       /\ rounds_to (a / inject_Z (totalWorkingDays r) * 100) n
       /\ 0 <= n <= 10000.

(** The effect on [periodName] and [extraHolidays] as a step of the
    component: [new Date().getFullYear()] is the year of the clock. *)
Definition runWorkingDaysEffect (env : Env) (st : AppState) : AppState :=
  setTotalWorkingDays
    (workingDaysEffect (st_periodName st) (st_extraHolidays st)
                       (fullYearOf (tzOffset env) (now env))) st.



(** How many of the days [1..n] fall on weekday [w] when day [j] has
    the weekday [(b + j) mod 7]. *)
Definition weekday_count (b w : Z) (n : Z) : Z :=
  Z.of_nat (List.length (filter (fun j => (b + j) mod 7 =? w) (Zrange 1 (Z.to_nat n)))).

(** A month of [n] days that starts [r] days into the week has a second
    Saturday, and between 23 and 26 days that are neither a Sunday nor
    that Saturday. *)
Definition month_shape_ok (r n : Z) : bool :=
  (2 <=? weekday_count r 6 n)
  && (23 <=? n - weekday_count r 0 n - 1)
  && (n - weekday_count r 0 n - 1 <=? 26).

(** The weekday of day [j] of month [m] of year [y] is
    [(monthOffset m y + j) mod 7]. *)
Definition monthOffset (m y : Z) : Z :=
  JSDate.DayFromYear y
  + JSDate.days_before_month (m - 1) (JSDate.InLeapYearOf y) + 3.

(** The records of the years of the summary, year after year. *)
Definition yearGroups (tz : Z) (records : list AttendanceRecord) : list AttendanceRecord :=
  List.concat (map (fun s => inYear tz (year s) records) (calculateYearlySummary tz records)).

(** ** The component as a whole: what is rendered, and what a click does *)

(** [daysAttended === '']. *)
Definition isEmptyText (v : field) : bool :=
  match v with
  | FText s => String.eqb s ""
  | FNumber _ => false
  end.

(** [disabled] of the primary button ("Calculate Attendance" or
    "Update Record"). *)
Definition primaryDisabled (st : AppState) : bool :=
  String.eqb (JSString.trim (st_periodName st)) ""
  || (st_totalWorkingDays st <=? 0)
  || isEmptyText (st_daysAttended st)
  || JSNumber.isNaN (parseFloat_field (st_daysAttended st)).

(** [disabled] of "Save Attendance Record". *)
Definition saveDisabled (st : AppState) : bool :=
  String.eqb (JSString.trim (st_periodName st)) ""
  || (st_totalWorkingDays st <=? 0)
  || isEmptyText (st_daysAttended st)
  || JSNumber.isNaN (parseFloat_field (st_daysAttended st))
  || match st_attendancePercentage st with
     | None => true
     | Some _ => false
     end.

(** [disabled] of the +1 button of the README variant. *)
Definition plusOneDisabled (st : AppState) : bool :=
  String.eqb (JSString.trim (st_periodName st)) ""
  || (st_totalWorkingDays st <=? 0)
  || JSNumber.le (JSNumber.of_Z (st_totalWorkingDays st))
                 (parseFloat_field (st_daysAttended st))
  || (isEmptyText (st_daysAttended st)
      || JSNumber.isNaN (parseFloat_field (st_daysAttended st))).

(** What the user can do: type into one of the three inputs, or click
    one of the buttons, an item of the history (by its position), the
    banner, or a button of the dialogue; and the timer of the +1
    animation that runs out. *)
Inductive event :=
| TypePeriodName (value : string)
| TypeExtraHolidays (val : string)
| TypeDaysAttended (value : string)
| ClickPrimary
| ClickSave
| ClickPlusOne
| PlusOneTimer
| ClickBack
| ClickBanner
| ClickRecord (n : nat)
| ClickDelete (n : nat)
| ClickCancel
| ClickConfirm.

(** The element of the event is rendered and not disabled. While
    [isLoading] holds only the loading text is rendered. *)
Definition offered (v : variant) (ev : event) (st : AppState) : bool :=
  negb (st_isLoading st)
  && match ev with
     | TypePeriodName _ | TypeExtraHolidays _ | TypeDaysAttended _ => true
     | ClickPrimary => negb (primaryDisabled st)
     | ClickSave => negb (truthy (st_editingRecordId st)) && negb (saveDisabled st)
     | ClickPlusOne =>
         match v with
         | InReadme => truthy (st_editingRecordId st) && negb (plusOneDisabled st)
         | InAppJsx => false
         end
     | PlusOneTimer =>
         match v with
         | InReadme => true
         | InAppJsx => false
         end
     | ClickBack => truthy (st_editingRecordId st)
     | ClickBanner => truthy (st_message st)
     | ClickRecord n =>
         match nth_error (st_attendanceRecords st) n with
         | Some _ => true
         | None => false
         end
     | ClickDelete n =>
         match nth_error (st_attendanceRecords st) n with
         | Some record => negb (isEditing st record)
         | None => false
         end
     | ClickCancel | ClickConfirm => st_showDeleteConfirm st
     end.

(** The handler that the element of the event calls. *)
Definition handler (v : variant) (env : Env) (ev : event) (st : AppState) : AppState :=
  match ev with
  | TypePeriodName value => changePeriodName value st
  | TypeExtraHolidays val => changeExtraHolidays val st
  | TypeDaysAttended value => changeDaysAttended value st
  | ClickPrimary =>
      if truthy (st_editingRecordId st)
      then saveOrUpdateAttendance_of v env st
      else calculateAttendance st
  | ClickSave => saveOrUpdateAttendance_of v env st
  | ClickPlusOne => Readme.handlePlusOne env st
  | PlusOneTimer => Readme.plusOneTimeout st
  | ClickBack => handleBackToMain env st
  | ClickBanner => dismissMessage st
  | ClickRecord n =>
      match nth_error (st_attendanceRecords st) n with
      | Some record => clickRecord record st
      | None => st
      end
  | ClickDelete n =>
      match nth_error (st_attendanceRecords st) n with
      | Some record => handleDeleteClick record st
      | None => st
      end
  | ClickCancel => cancelDelete st
  | ClickConfirm => confirmDelete_of v env st
  end.

(** [Object.is] on numbers and on what a field holds. *)
Definition number_is (x y : JSNumber.number) : bool :=
  match x, y with
  | JSNumber.NaN, JSNumber.NaN => true
  | JSNumber.Inf a, JSNumber.Inf b => Bool.eqb a b
  | JSNumber.Fin p, JSNumber.Fin q => Qeq_bool p q
  | _, _ => false
  end.

Definition field_is (a b : field) : bool :=
  match a, b with
  | FText s, FText t => String.eqb s t
  | FNumber x, FNumber y => number_is x y
  | _, _ => false
  end.

(** One of the dependencies [periodName, extraHolidays] of the effect
    has changed between two renders. *)
Definition depsChanged (st st' : AppState) : bool :=
  negb (String.eqb (st_periodName st) (st_periodName st')
        && field_is (st_extraHolidays st) (st_extraHolidays st')).

(** An event: its handler runs at the time of [env], and when that
    has changed a dependency of the effect, the effect runs after the
    render, at the time of [env']. An event whose element is not
    offered does nothing. *)
Definition step (v : variant) (env env' : Env) (ev : event) (st : AppState) : AppState :=
  if offered v ev st then
    let st' := handler v env ev st in
    if depsChanged st st' then runWorkingDaysEffect env' st' else st'
  else st.

(** The mount on a storage slot: the cells start as [useState] makes
    them, the first effect reads the slot, and the second effect
    computes the working days for the period that the first has set
    (its run on the empty period of the first render gives 0, as a
    later run on an unchanged empty period would). *)
Definition mount (v : variant) (env : Env) (slot : option stored_item) : option AppState :=
  option_map (runWorkingDaysEffect env)
             (loadEffect_of v env (setItem slot initialState)).

(** What is taken for granted of the world around the component:
    [crypto.randomUUID()] gives an id that is not empty, and local time
    is less than a day away from UTC. *)
Definition saneEnv (env : Env) : Prop :=
  randomUUID env <> "" /\ Z.abs (tzOffset env) <= msPerDay.

(** [crypto.randomUUID()] gives an id that no record has. *)
Definition freshId (env : Env) (st : AppState) : Prop :=
  ~ In (randomUUID env) (map id (st_attendanceRecords st)).

(** The states of the component over its life: it is mounted first on
    an empty storage and later on the storage as it was left, and
    between mounts the events of the user run one after the other. *)
Inductive reachable (v : variant) : AppState -> Prop :=
| reach_first (env : Env) (st : AppState) :
    saneEnv env -> mount v env None = Some st -> reachable v st
| reach_again (env : Env) (st0 st : AppState) :
    reachable v st0 -> saneEnv env ->
    mount v env (st_localStorage st0) = Some st -> reachable v st
| reach_step (env env' : Env) (ev : event) (st : AppState) :
    reachable v st -> saneEnv env -> freshId env st ->
    reachable v (step v env env' ev st).

(** *** What holds in every state of the component *)

(** The banner: [message] and [messageType] are set together, and the
    type tells an error from a success. *)
Definition bannerPaired (st : AppState) : Prop :=
  match st_message st, st_messageType st with
  | None, None => True
  | Some m, Some success =>
      In m [Msg.updated; Msg.saved; Msg.deleted; Msg.attendanceUpdated;
            Msg.attendanceSaved]
  | Some m, Some error =>
      In m [Msg.totalNotPositive; Msg.attendedInvalid; Msg.attendedExceeds;
            Msg.fieldsInvalid; Msg.loadFailed; Msg.cannotAdd; Msg.autoSaveInvalid]
  | _, _ => False
  end.

(** The dialogue is open exactly while a record is chosen for it. *)
Definition dialoguePaired (st : AppState) : Prop :=
  st_showDeleteConfirm st = true <-> st_recordToDelete st <> None.

(** A record of the collection: consistent, with an id, with extra
    holidays that are not negative, with at most 26 working days, and
    with a name that the form reads as a period. *)
Definition recordOk (r : AttendanceRecord) : Prop :=
  consistent r /\ id r <> "" /\ 0 <= extraHolidays r /\ totalWorkingDays r <= 26
  /\ exists currentYear, Period.parsePeriod (periodName r) currentYear <> None.

Definition collectionOk (l : list AttendanceRecord) : Prop :=
  Forall recordOk l /\ NoDup (map id l).

(** The history is in order: latest save first in [src/App.jsx],
    latest period first in the README variant. *)
Definition ordered (v : variant) (l : list AttendanceRecord) : Prop :=
  match v with
  | InAppJsx => sorted_desc timestamp l
  | InReadme => exists tz, Z.abs tz <= msPerDay /\ sorted_desc (sortKey tz) l
  end.

(** The id being edited is the id of a record of the collection. *)
Definition editingOk (st : AppState) : Prop :=
  match st_editingRecordId st with
  | None => True
  | Some i => i <> "" /\ In i (map id (st_attendanceRecords st))
  end.

(** The form: the extra holidays are not negative, and the total
    working days are those that the effect computes from the period
    name and the extra holidays of the form, in some year. *)
Definition formOk (st : AppState) : Prop :=
  0 <= parseInt_or_0 (st_extraHolidays st)
  /\ exists currentYear,
       st_totalWorkingDays st
       = workingDaysEffect (st_periodName st) (st_extraHolidays st) currentYear.

(** [percentage.toFixed(2)] of [calculateAttendance] for the days
    attended and the total of the form. *)
Definition percentageText (daysAttended : field) (totalWorkingDays : Z) : string :=
  JSNumber.toFixed2
    (JSNumber.mul (JSNumber.div (parseFloat_field daysAttended)
                                (JSNumber.of_Z totalWorkingDays))
                  (JSNumber.of_Z 100)).

(** While no record is edited, a percentage is in its cell only for
    days attended that are a number between 0 and a positive total,
    and it is the percentage of these two. *)
Definition shownOk (st : AppState) : Prop :=
  truthy (st_editingRecordId st) = false ->
  st_attendancePercentage st <> None ->
  0 < st_totalWorkingDays st
  /\ (exists a, parseFloat_field (st_daysAttended st) = JSNumber.Fin a
                /\ (0 <= a <= inject_Z (st_totalWorkingDays st))%Q)
  /\ st_attendancePercentage st
     = Some (FText (percentageText (st_daysAttended st) (st_totalWorkingDays st))).

(** The storage holds the collection: nothing while there has never
    been a record, and otherwise the records of the collection (in
    [src/App.jsx] in the very same order). *)
Definition persisted (v : variant) (st : AppState) : Prop :=
  match JSON_parse_slot (st_localStorage st) with
  | NothingStored => st_attendanceRecords st = []
  | Parsed l =>
      Permutation l (st_attendanceRecords st)
      /\ (v = InAppJsx -> st_attendanceRecords st = l)
  | ParseFailed | OutsideSchema => False
  end.

Record invariant (v : variant) (st : AppState) : Prop := mkInvariant {
  inv_loaded : st_isLoading st = false;
  inv_banner : bannerPaired st;
  inv_dialogue : dialoguePaired st;
  inv_collection : collectionOk (st_attendanceRecords st);
  inv_ordered : ordered v (st_attendanceRecords st);
  inv_editing : editingOk st;
  inv_form : formOk st;
  inv_shown : shownOk st;
  inv_persisted : persisted v st
}.

(** What a handler leaves for the effect: everything of the invariant
    that does not depend on the total working days, which it does not
    touch; and either the two dependencies of the effect as they were,
    or a form in which no percentage counts. *)
Record handled (v : variant) (st st' : AppState) : Prop := mkHandled {
  h_loaded : st_isLoading st' = false;
  h_banner : bannerPaired st';
  h_dialogue : dialoguePaired st';
  h_collection : collectionOk (st_attendanceRecords st');
  h_ordered : ordered v (st_attendanceRecords st');
  h_editing : editingOk st';
  h_holidays : 0 <= parseInt_or_0 (st_extraHolidays st');
  h_persisted : persisted v st';
  h_total : st_totalWorkingDays st' = st_totalWorkingDays st;
  h_deps :
    (st_periodName st' = st_periodName st
     /\ st_extraHolidays st' = st_extraHolidays st
     /\ shownOk st')
    \/ truthy (st_editingRecordId st') = true
    \/ st_attendancePercentage st' = None
}.

(** *** A session for the examples *)

(** A minute after [sampleEnv], with the next id. *)
Definition laterEnv : Env := mkEnv 1750000060000 "uuid-2" "June" 0.

(** The first mount; 20 days typed and calculated; the record saved;
    the saved record opened from the history. *)
Definition sampleMounted (v : variant) : AppState :=
  runWorkingDaysEffect sampleEnv
    (run [setPeriodName (todayPeriod sampleEnv); setIsLoading false] initialState).

Definition sampleCalculated (v : variant) : AppState :=
  step v sampleEnv sampleEnv ClickPrimary
       (step v sampleEnv sampleEnv (TypeDaysAttended "20") (sampleMounted v)).

Definition sampleSaved (v : variant) : AppState :=
  step v sampleEnv sampleEnv ClickSave (sampleCalculated v).

Definition sampleEditing (v : variant) : AppState :=
  step v laterEnv laterEnv (ClickRecord 0) (sampleSaved v).

(* ================================================================== *)
(** * Part II: theorems                                                *)
(* ================================================================== *)

Local Open Scope string_scope.
Local Open Scope Z_scope.

(** ** Ranges of integers and exhaustive checks *)

Lemma Zrange_In (lo : Z) (n : nat) (z : Z) :
  lo <= z < lo + Z.of_nat n -> In z (Zrange lo n).
Proof.
  intros H. unfold Zrange. apply in_map_iff.
  exists (Z.to_nat (z - lo)). split; [cbv beta; lia|].
  apply in_seq. lia.
Qed.

Lemma forallb_Zrange (f : Z -> bool) (lo : Z) (n : nat) :
  forallb f (Zrange lo n) = true ->
  forall z, lo <= z < lo + Z.of_nat n -> f z = true.
Proof.
  intros H z Hz. rewrite forallb_forall in H. apply H, Zrange_In, Hz.
Qed.

(** ** The loop of [calculateMonthlyWorkingDays] *)

Lemma count_seen_cons (w : Z) (o : option Z) (ws : list (option Z)) :
  count_seen w (o :: ws) = (if is_weekday w o then 1 else 0) + count_seen w ws.
Proof.
  unfold count_seen. cbn [filter]. destruct (is_weekday w o); cbn [List.length]; lia.
Qed.

Lemma count_seen_nonneg (w : Z) (ws : list (option Z)) : 0 <= count_seen w ws.
Proof. unfold count_seen. lia. Qed.

Lemma loop_body_date (i : Z) (s : loop_state) :
  date (loop_body i s) = JSDate.setDate (date s) i.
Proof.
  unfold loop_body. cbv zeta.
  destruct (is_weekday 0 _); [reflexivity|].
  destruct (is_weekday 6 _); [|reflexivity].
  destruct (_ && _); reflexivity.
Qed.

Lemma is_weekday_0_6 (o : option Z) :
  is_weekday 0 o = true -> is_weekday 6 o = false.
Proof.
  destruct o as [w|]; simpl; [|reflexivity].
  intros H. apply Z.eqb_eq in H. subst w. reflexivity.
Qed.

Lemma loop_body_counts (i : Z) (s : loop_state) :
  flag_agrees s ->
  let o := JSDate.getDay (JSDate.setDate (date s) i) in
  flag_agrees (loop_body i s) /\
  saturdayCount (loop_body i s) = saturdayCount s + (if is_weekday 6 o then 1 else 0) /\
  nonWorkingDays (loop_body i s) =
    nonWorkingDays s + (if is_weekday 0 o then 1 else 0)
    + (if is_weekday 6 o && (saturdayCount s =? 1) then 1 else 0).
Proof.
  intros [Hc Hf]. unfold flag_agrees, loop_body. cbv zeta.
  destruct (is_weekday 0 _) eqn:W0.
  - rewrite (is_weekday_0_6 _ W0). simpl. repeat split; try assumption; lia.
  - destruct (is_weekday 6 _) eqn:W6; [|simpl; repeat split; try assumption; lia].
    rewrite Hf.
    destruct (Z.eqb_spec (saturdayCount s) 1) as [E1|E1].
    + rewrite E1. simpl. repeat split; lia.
    + destruct (Z.eqb_spec (saturdayCount s + 1) 2) as [E2|E2]; [lia|].
      simpl. repeat split; lia.
Qed.

(** What the loop leaves in [nonWorkingDays]: one for every Sunday it
    saw, and one more when the Saturday counter passes from below two to
    two or more. *)
Lemma for_days_counts (n : nat) :
  forall (i : Z) (s : loop_state),
  flag_agrees s ->
  let ws := weekdays_seen n i (date s) in
  nonWorkingDays (for_days n i s) =
    nonWorkingDays s + count_seen 0 ws
    + (if (saturdayCount s <? 2) && (2 <=? saturdayCount s + count_seen 6 ws)
       then 1 else 0).
Proof.
  induction n as [|n IH]; intros i s Hs; cbv zeta.
  - simpl. unfold count_seen. simpl.
    destruct (saturdayCount s <? 2) eqn:E1, (2 <=? saturdayCount s + 0) eqn:E2;
      simpl; rewrite ?Z.ltb_lt, ?Z.leb_le in *; lia.
  - simpl for_days. simpl weekdays_seen.
    destruct (loop_body_counts i s Hs) as (Hs' & Hsat & Hnw).
    specialize (IH (i + 1) (loop_body i s) Hs'). cbv zeta in IH.
    rewrite IH, loop_body_date, Hsat, Hnw, !count_seen_cons.
    pose proof (count_seen_nonneg 6
      (weekdays_seen n (i + 1) (JSDate.setDate (date s) i))) as Hnn.
    destruct Hs as [Hc _].
    set (o := JSDate.getDay (JSDate.setDate (date s) i)) in *.
    set (c6 := count_seen 6 (weekdays_seen n (i + 1) (JSDate.setDate (date s) i))) in *.
    clearbody c6 o.
    destruct (is_weekday 0 o) eqn:W0;
      [rewrite (is_weekday_0_6 _ W0)|destruct (is_weekday 6 o)];
      cbn [andb];
      repeat match goal with
      | |- context [?a <? ?b] => destruct (Z.ltb_spec a b)
      | |- context [?a <=? ?b] => destruct (Z.leb_spec a b)
      | |- context [?a =? ?b] => destruct (Z.eqb_spec a b)
      end; cbn [andb]; lia.
Qed.

Lemma count_seen_map (w : Z) (f : Z -> Z) (l : list Z) :
  count_seen w (map (fun d => Some (f d)) l)
  = Z.of_nat (List.length (filter (fun d => f d =? w) l)).
Proof.
  unfold count_seen. f_equal.
  induction l as [|d l IH]; [reflexivity|].
  cbn [map filter is_weekday]. destruct (f d =? w); cbn [List.length]; lia.
Qed.

(** ** The day numbers of the [Date] object *)

Lemma div_step (a b k : Z) :
  0 < k -> a <= b -> a / k <= b / k /\ k * (b / k - a / k) <= b - a + k - 1.
Proof.
  intros Hk Hab. split; [apply Z.div_le_mono; assumption|].
  pose proof (Z.mul_div_le b k Hk). pose proof (Z.mul_succ_div_gt a k Hk). lia.
Qed.

Lemma DayFromYear_step (y y' : Z) :
  y < y' -> JSDate.DayFromYear y + 360 <= JSDate.DayFromYear y'.
Proof.
  intros H. unfold JSDate.DayFromYear.
  pose proof (div_step (y - 1969) (y' - 1969) 4 ltac:(lia) ltac:(lia)).
  pose proof (div_step (y - 1901) (y' - 1901) 100 ltac:(lia) ltac:(lia)).
  pose proof (div_step (y - 1601) (y' - 1601) 400 ltac:(lia) ltac:(lia)).
  lia.
Qed.

Lemma InLeapYearOf_bound (y : Z) : 0 <= JSDate.InLeapYearOf y <= 1.
Proof.
  unfold JSDate.InLeapYearOf.
  destruct (JSDate.DaysInYear y =? 366); split; discriminate.
Qed.

Lemma days_before_month_bounds (mi l : Z) :
  0 <= mi <= 11 -> 0 <= l <= 1 ->
  0 <= JSDate.days_before_month mi l <= 335
  /\ (forall mi', mi < mi' <= 11 ->
        JSDate.days_before_month mi l < JSDate.days_before_month mi' l).
Proof.
  intros Hm Hl.
  assert (C : mi = 0 \/ mi = 1 \/ mi = 2 \/ mi = 3 \/ mi = 4 \/ mi = 5 \/ mi = 6
              \/ mi = 7 \/ mi = 8 \/ mi = 9 \/ mi = 10 \/ mi = 11) by lia.
  split.
  - repeat (destruct C as [->|C]; [cbv [JSDate.days_before_month]; lia|]).
    subst; cbv [JSDate.days_before_month]; lia.
  - intros mi' Hm'.
    assert (C' : mi' = 1 \/ mi' = 2 \/ mi' = 3 \/ mi' = 4 \/ mi' = 5 \/ mi' = 6
                 \/ mi' = 7 \/ mi' = 8 \/ mi' = 9 \/ mi' = 10 \/ mi' = 11) by lia.
    repeat (destruct C' as [->|C']; [
      repeat (destruct C as [->|C]; [cbv [JSDate.days_before_month]; lia|]);
      subst; cbv [JSDate.days_before_month]; lia|]).
    subst mi'.
    repeat (destruct C as [->|C]; [cbv [JSDate.days_before_month]; lia|]).
    subst; cbv [JSDate.days_before_month]; lia.
Qed.

Lemma MakeDay_first (y mi : Z) :
  0 <= mi <= 11 ->
  JSDate.MakeDay y mi 1
  = JSDate.DayFromYear y + JSDate.days_before_month mi (JSDate.InLeapYearOf y).
Proof.
  intros Hm. unfold JSDate.MakeDay. cbv zeta.
  rewrite (Z.div_small mi 12), (Z.mod_small mi 12) by lia.
  rewrite Z.add_0_r. lia.
Qed.

(** The first day of a later month is a later day. *)
Lemma MakeDay_chronological (y mi y' mi' : Z) :
  0 <= mi <= 11 -> 0 <= mi' <= 11 ->
  y < y' \/ (y = y' /\ mi < mi') ->
  JSDate.MakeDay y mi 1 < JSDate.MakeDay y' mi' 1.
Proof.
  intros Hm Hm' H. rewrite !MakeDay_first by assumption.
  pose proof (InLeapYearOf_bound y) as Hl. pose proof (InLeapYearOf_bound y') as Hl'.
  destruct (days_before_month_bounds mi _ Hm Hl) as [Hb Hmono].
  destruct (days_before_month_bounds mi' _ Hm' Hl') as [Hb' _].
  destruct H as [Hy|[<- Hlt]].
  - pose proof (DayFromYear_step y y' Hy). lia.
  - specialize (Hmono mi' ltac:(lia)). lia.
Qed.

Section DateProofs.
Import JSDate.

Lemma DayFromYear_le (y k : Z) : y <= k -> DayFromYear y <= DayFromYear k.
Proof.
  intros H. destruct (Z.eq_dec y k) as [->|Hne]; [lia|].
  pose proof (DayFromYear_step y k ltac:(lia)). lia.
Qed.

(** The search stops at the year in which the day lies. *)
Lemma year_search_correct (fuel : nat) :
  forall start d y,
  y <= start -> start - y < Z.of_nat fuel ->
  DayFromYear y <= d < DayFromYear (y + 1) ->
  year_search fuel start d = y.
Proof.
  induction fuel as [|fuel IH]; intros start d y Hle Hfuel Hd; [simpl in Hfuel; lia|].
  cbn [year_search].
  destruct (Z.leb_spec (DayFromYear start) d) as [Hs|Hs].
  - destruct (Z.eq_dec start y) as [|Hne]; [assumption|].
    pose proof (DayFromYear_le (y + 1) start ltac:(lia)). lia.
  - apply IH; [|lia|exact Hd].
    destruct (Z.eq_dec start y) as [->|Hne]; lia.
Qed.

Lemma DayFromYear_bounds (y : Z) :
  1900 <= y <= 2101 ->
  365 * (y - 1970) - 20 <= DayFromYear y <= 365 * (y - 1970) + 40.
Proof.
  intros Hy. unfold DayFromYear.
  pose proof (Z.mul_div_le (y - 1969) 4 ltac:(lia)).
  pose proof (Z.mul_succ_div_gt (y - 1969) 4 ltac:(lia)).
  pose proof (Z.mul_div_le (y - 1901) 100 ltac:(lia)).
  pose proof (Z.mul_succ_div_gt (y - 1901) 100 ltac:(lia)).
  pose proof (Z.mul_div_le (y - 1601) 400 ltac:(lia)).
  pose proof (Z.mul_succ_div_gt (y - 1601) 400 ltac:(lia)).
  lia.
Qed.

Lemma YearFromDay_in_year (y d : Z) :
  1900 <= y <= 2100 ->
  DayFromYear y <= d < DayFromYear (y + 1) ->
  YearFromDay d = y.
Proof.
  intros Hy Hd. unfold YearFromDay.
  pose proof (DayFromYear_bounds y ltac:(lia)) as B1.
  pose proof (DayFromYear_bounds (y + 1) ltac:(lia)) as B2.
  pose proof (Z.mul_div_le d 365 ltac:(lia)).
  pose proof (Z.mul_succ_div_gt d 365 ltac:(lia)).
  assert (0 <= Z.abs d / 100000) by (apply Z.div_pos; lia).
  apply year_search_correct; [lia| |exact Hd].
  rewrite Z2Nat.id by lia. lia.
Qed.
Lemma InLeapYearOf_spec (y : Z) :
  InLeapYearOf y = if CalendarSpec.isLeapYear y then 1 else 0.
Proof.
  unfold InLeapYearOf, DaysInYear, CalendarSpec.isLeapYear.
  destruct (y mod 4 =? 0) eqn:E4, (y mod 100 =? 0) eqn:E100, (y mod 400 =? 0) eqn:E400;
    try reflexivity.
  (* divisible by 400 but not by 100 or 4: impossible *)
  all: exfalso; rewrite ?Z.eqb_eq, ?Z.eqb_neq in *;
    Z.to_euclidean_division_equations; lia.
Qed.

Lemma DayFromYear_succ (y : Z) :
  DayFromYear (y + 1) = DayFromYear y + 365 + InLeapYearOf y.
Proof.
  unfold InLeapYearOf, DaysInYear, DayFromYear.
  destruct (y mod 4 =? 0) eqn:E4, (y mod 100 =? 0) eqn:E100, (y mod 400 =? 0) eqn:E400;
    cbn [negb]; change (365 =? 366) with false; change (366 =? 366) with true;
    cbv iota; rewrite ?Z.eqb_eq, ?Z.eqb_neq in *;
    Z.to_euclidean_division_equations; lia.
Qed.

Lemma MakeDay_in_year (y m i : Z) :
  1 <= m <= 12 ->
  MakeDay y (m - 1) i
  = DayFromYear y + days_before_month (m - 1) (InLeapYearOf y) + i - 1.
Proof.
  intros Hm. unfold MakeDay. cbv zeta.
  rewrite (Z.div_small (m - 1) 12), (Z.mod_small (m - 1) 12) by lia.
  rewrite Z.add_0_r. reflexivity.
Qed.

Ltac month_cases m Hm :=
  let C := fresh "C" in
  assert (C : m = 1 \/ m = 2 \/ m = 3 \/ m = 4 \/ m = 5 \/ m = 6 \/ m = 7
              \/ m = 8 \/ m = 9 \/ m = 10 \/ m = 11 \/ m = 12) by lia;
  clear Hm;
  repeat (destruct C as [C|C]; [subst m|]); [..|subst m].

Ltac norm_months :=
  change (1 - 1) with 0 in *; change (2 - 1) with 1 in *; change (3 - 1) with 2 in *;
  change (4 - 1) with 3 in *; change (5 - 1) with 4 in *; change (6 - 1) with 5 in *;
  change (7 - 1) with 6 in *; change (8 - 1) with 7 in *; change (9 - 1) with 8 in *;
  change (10 - 1) with 9 in *; change (11 - 1) with 10 in *;
  change (12 - 1) with 11 in *;
  unfold days_before_month in *; simpl (_ =? 12) in *; cbv iota in *.

Ltac decide_tests :=
  repeat match goal with
  | |- context [?a <? ?b] => destruct (Z.ltb_spec a b); try lia
  | |- context [?a <=? ?b] => destruct (Z.leb_spec a b); try lia
  end.

(** A day of month [m] of year [y] is read back as such by the
    getters, and is a valid time value. *)
Lemma day_in_month (y m i : Z) :
  1900 <= y <= 2100 -> 1 <= m <= 12 -> 1 <= i <= CalendarSpec.daysInMonth m y ->
  let d := MakeDay y (m - 1) i in
  YearFromDay d = y /\ MonthFromDay d = m - 1 /\ DateFromDay d = i
  /\ TimeClip d = Some d.
Proof.
  intros Hy Hm Hi. cbv zeta.
  rewrite (MakeDay_in_year y m i Hm).
  pose proof (DayFromYear_succ y) as Hsucc.
  pose proof (DayFromYear_bounds y ltac:(lia)) as Hb.
  pose proof (InLeapYearOf_spec y) as Hl.
  remember (InLeapYearOf y) as l eqn:El. set (D := DayFromYear y) in *.
  assert (Hl01 : 0 <= l <= 1) by (destruct (CalendarSpec.isLeapYear y); lia).
  assert (Hyear : forall w, 0 <= w < 365 + l -> YearFromDay (D + w) = y).
  { intros w Hw. apply YearFromDay_in_year; [exact Hy|]. fold D. lia. }
  assert (Hdim : CalendarSpec.daysInMonth m y
                 = days_before_month m l - days_before_month (m - 1) l
                   + (if m =? 12 then 31 else 0)).
  { unfold CalendarSpec.daysInMonth. rewrite Hl.
    month_cases m Hm; destruct (CalendarSpec.isLeapYear y); reflexivity. }
  assert (Hw : 0 <= days_before_month (m - 1) l + i - 1 < 365 + l
               /\ days_before_month (m - 1) l + i - 1
                  < days_before_month m l + (if m =? 12 then 31 else 0)).
  { rewrite Hdim in Hi. clear Hdim Hyear Hsucc El.
    month_cases m Hm; norm_months; lia. }
  replace (D + days_before_month (m - 1) l + i - 1)
    with (D + (days_before_month (m - 1) l + i - 1)) by lia.
  set (w := days_before_month (m - 1) l + i - 1) in *.
  assert (HY : YearFromDay (D + w) = y) by (apply Hyear; lia).
  assert (HW : DayWithinYear (D + w) = w) by (unfold DayWithinYear; rewrite HY; fold D; lia).
  assert (HL : InLeapYear (D + w) = l) by (unfold InLeapYear; rewrite HY; congruence).
  assert (HM : MonthFromDay (D + w) = m - 1).
  { unfold MonthFromDay. rewrite HW, HL. cbv zeta. subst w. clear Hdim Hyear HY HW HL Hsucc El.
    month_cases m Hm; norm_months; decide_tests. }
  split; [exact HY|]. split; [exact HM|]. split.
  - unfold DateFromDay. rewrite HM, HW, HL. cbv zeta. subst w.
    clear Hdim Hyear HY HW HL HM Hsucc Hw El.
    month_cases m Hm; norm_months; lia.
  - unfold TimeClip.
    destruct (Z.leb_spec (Z.abs (D + w)) 100000000); [reflexivity|lia].
Qed.

(** [new Date(year, month, 0)] is the last day of month [m]. *)
Lemma last_day_of_month (y m : Z) :
  1900 <= y <= 2100 -> 1 <= m <= 12 ->
  newDate y m 0 = Some (MakeDay y (m - 1) (CalendarSpec.daysInMonth m y))
  /\ 1 <= CalendarSpec.daysInMonth m y.
Proof.
  intros Hy Hm.
  assert (Hpos : 1 <= CalendarSpec.daysInMonth m y).
  { unfold CalendarSpec.daysInMonth.
    month_cases m Hm; destruct (CalendarSpec.isLeapYear y); lia. }
  split; [|exact Hpos].
  destruct (day_in_month y m (CalendarSpec.daysInMonth m y) Hy Hm ltac:(lia))
    as (_ & _ & _ & Hclip).
  unfold newDate.
  replace ((0 <=? y) && (y <=? 99)) with false
    by (symmetry; apply andb_false_iff; right; apply Z.leb_gt; lia).
  rewrite <- Hclip. f_equal.
  rewrite (MakeDay_in_year y m _ Hm).
  unfold MakeDay. cbv zeta.
  pose proof (DayFromYear_succ y) as Hsucc.
  pose proof (InLeapYearOf_spec y) as Hl.
  unfold CalendarSpec.daysInMonth.
  remember (InLeapYearOf y) as l eqn:El.
  month_cases m Hm;
    match goal with
    | |- context [?k / 12] =>
        let q := eval vm_compute in (k / 12) in
        let r := eval vm_compute in (k mod 12) in
        change (k / 12) with q; change (k mod 12) with r
    end;
    rewrite ?Z.add_0_r; norm_months;
    destruct (CalendarSpec.isLeapYear y); lia.
Qed.

Lemma Zrange_cons (lo : Z) (n : nat) : Zrange lo (S n) = lo :: Zrange (lo + 1) n.
Proof.
  unfold Zrange. cbn [seq map]. rewrite Z.add_0_r. f_equal.
  rewrite <- seq_shift, map_map. apply map_ext. intros k. lia.
Qed.

Lemma daysOf_Zrange (n : Z) : CalendarSpec.daysOf n = Zrange 1 (Z.to_nat n).
Proof.
  unfold CalendarSpec.daysOf, Zrange. rewrite <- seq_shift, map_map.
  apply map_ext. intros k. lia.
Qed.

(** The loop visits the days of the month one after the other. *)
Lemma weekdays_seen_month (y m : Z) (n : nat) :
  1900 <= y <= 2100 -> 1 <= m <= 12 ->
  forall i d,
  1 <= i -> i + Z.of_nat n - 1 <= CalendarSpec.daysInMonth m y ->
  YearFromDay d = y -> MonthFromDay d = m - 1 ->
  weekdays_seen n i (Some d)
  = map (fun j => Some (WeekDay (MakeDay y (m - 1) j))) (Zrange i n).
Proof.
  intros Hy Hm. induction n as [|n IH]; intros i d Hi Hn HY HM; [reflexivity|].
  rewrite Zrange_cons. cbn [weekdays_seen map].
  destruct (day_in_month y m i Hy Hm ltac:(lia)) as (HY' & HM' & _ & Hclip).
  cbn [setDate]. rewrite HY, HM, Hclip. cbn [getDay option_map].
  f_equal. apply IH; [lia|lia|exact HY'|exact HM'].
Qed.

(** Zeller's congruence and the day number move together through a
    month. *)
Lemma weekday_in_month (y m j : Z) :
  1 <= m <= 12 ->
  WeekDay (MakeDay y (m - 1) 1) = CalendarSpec.weekday y m 1 ->
  WeekDay (MakeDay y (m - 1) j) = CalendarSpec.weekday y m j.
Proof.
  intros Hm. rewrite !(MakeDay_in_year y m _ Hm).
  unfold WeekDay, CalendarSpec.weekday. cbv zeta.
  set (a := DayFromYear y + days_before_month (m - 1) (InLeapYearOf y)).
  set (b := 13 * ((if m <? 3 then m + 12 else m) + 1) / 5
            + (if m <? 3 then y - 1 else y) mod 100
            + (if m <? 3 then y - 1 else y) mod 100 / 4
            + (if m <? 3 then y - 1 else y) / 100 / 4
            + 5 * ((if m <? 3 then y - 1 else y) / 100) + 6).
  intros H.
  replace (a + j - 1 + 4) with ((a + 1 - 1 + 4) + (j - 1)) by lia.
  replace (j + 13 * ((if m <? 3 then m + 12 else m) + 1) / 5
           + (if m <? 3 then y - 1 else y) mod 100
           + (if m <? 3 then y - 1 else y) mod 100 / 4
           + (if m <? 3 then y - 1 else y) / 100 / 4
           + 5 * ((if m <? 3 then y - 1 else y) / 100) + 6)
    with ((1 + b) + (j - 1)) by (subst b; lia).
  replace (1 + 13 * ((if m <? 3 then m + 12 else m) + 1) / 5
           + (if m <? 3 then y - 1 else y) mod 100
           + (if m <? 3 then y - 1 else y) mod 100 / 4
           + (if m <? 3 then y - 1 else y) / 100 / 4
           + 5 * ((if m <? 3 then y - 1 else y) / 100) + 6)
    with (1 + b) in H by (subst b; lia).
  rewrite (Z.add_mod (a + 1 - 1 + 4)), (Z.add_mod (1 + b)) by lia.
  rewrite H. reflexivity.
Qed.

End DateProofs.

Lemma years_check_month (lo : Z) (n : nat) :
  years_check lo n = true ->
  forall m y, 1 <= m <= 12 -> lo <= y < lo + Z.of_nat n -> month_checks m y = true.
Proof.
  unfold years_check. intros H m y Hm Hy.
  pose proof (forallb_Zrange _ _ _ H y Hy) as Hyy. cbv beta in Hyy.
  apply (forallb_Zrange _ _ _ Hyy m).
  change (Z.of_nat 12) with 12. lia.
Qed.

(** Every month of 1900..2100 starts on the weekday that Zeller's
    congruence gives, and has a working day. *)
Lemma calendar_checks_1900_2100 : years_check 1900 201 = true.
Proof. vm_cast_no_check (eq_refl true). Qed.

Lemma month_checks_in_range (m y : Z) :
  1 <= m <= 12 -> 1900 <= y <= 2100 -> month_checks m y = true.
Proof.
  intros Hm Hy.
  apply (years_check_month 1900 201 calendar_checks_1900_2100 m y Hm).
  change (Z.of_nat 201) with 201. lia.
Qed.

(** Whatever the arguments, the result is not negative. *)
Lemma calculateMonthlyWorkingDays_nonneg (m y k : Z) :
  0 <= calculateMonthlyWorkingDays m y k.
Proof.
  unfold calculateMonthlyWorkingDays.
  destruct (JSDate.getDate _) as [n|]; [|lia].
  cbv zeta. destruct (Z.gtb_spec (n - nonWorkingDays
    (for_days (Z.to_nat n) 1 (mkLoop (JSDate.newDate y (m - 1) 1) 0 false 0)) - k) 0); lia.
Qed.

(** More extra holidays never give more working days. *)
Lemma calculateMonthlyWorkingDays_antitone (m y k1 k2 : Z) :
  k1 <= k2 -> calculateMonthlyWorkingDays m y k2 <= calculateMonthlyWorkingDays m y k1.
Proof.
  intros Hk. unfold calculateMonthlyWorkingDays.
  destruct (JSDate.getDate _) as [n|]; [|lia].
  cbv zeta.
  set (nw := nonWorkingDays _).
  destruct (Z.gtb_spec (n - nw - k2) 0), (Z.gtb_spec (n - nw - k1) 0); lia.
Qed.

(** C1: for every month 1..12 of every year 1900..2100 the calculator,
    called with no extra holidays, returns the days of the month of the
    Gregorian calendar minus its Sundays minus one if the month has a
    second Saturday, and this number is not negative. *)
Theorem C1_workingDays_formula (m y : Z) :
  1 <= m <= 12 -> 1900 <= y <= 2100 ->
  calculateMonthlyWorkingDays m y 0
    = CalendarSpec.daysInMonth m y - CalendarSpec.sundaysIn m y
      - (if CalendarSpec.secondSaturdayExists m y then 1 else 0)
  /\ 0 <= calculateMonthlyWorkingDays m y 0.
Proof.
  intros Hm Hy. split; [|apply calculateMonthlyWorkingDays_nonneg].
  pose proof (month_checks_in_range m y Hm Hy) as H.
  unfold month_checks in H. apply andb_true_iff in H. destruct H as [Hwd Hpos].
  apply Z.eqb_eq in Hwd. apply Z.ltb_lt in Hpos.
  destruct (last_day_of_month y m Hy Hm) as [Hlast Hdim].
  destruct (day_in_month y m (CalendarSpec.daysInMonth m y) Hy Hm ltac:(lia))
    as (_ & _ & Hdate & _).
  destruct (day_in_month y m 1 Hy Hm ltac:(lia)) as (HY & HM & _ & Hclip).
  assert (Hfirst : JSDate.newDate y (m - 1) 1 = Some (JSDate.MakeDay y (m - 1) 1)).
  { unfold JSDate.newDate.
    replace ((0 <=? y) && (y <=? 99)) with false
      by (symmetry; apply andb_false_iff; right; apply Z.leb_gt; lia).
    exact Hclip. }
  unfold calculateMonthlyWorkingDays.
  rewrite Hlast. cbn [JSDate.getDate option_map]. rewrite Hdate. cbv zeta.
  rewrite for_days_counts by (unfold flag_agrees; simpl; split; [lia|reflexivity]).
  cbn [date nonWorkingDays saturdayCount]. rewrite Hfirst.
  rewrite (weekdays_seen_month y m (Z.to_nat (CalendarSpec.daysInMonth m y)) Hy Hm 1
             (JSDate.MakeDay y (m - 1) 1) ltac:(lia) ltac:(lia) HY HM).
  rewrite (map_ext _ (fun j => Some (CalendarSpec.weekday y m j)))
    by (intros j; f_equal; apply (weekday_in_month y m j Hm Hwd)).
  rewrite <- daysOf_Zrange, !count_seen_map.
  fold (CalendarSpec.countWeekday 0 m y). fold (CalendarSpec.countWeekday 6 m y).
  fold (CalendarSpec.sundaysIn m y). fold (CalendarSpec.saturdaysIn m y).
  change (0 <? 2) with true. cbn [andb]. rewrite !Z.add_0_l.
  fold (CalendarSpec.secondSaturdayExists m y).
  unfold CalendarSpec.workingDays0 in Hpos.
  destruct (CalendarSpec.secondSaturdayExists m y);
    match goal with |- context [?r >? 0] => destruct (Z.gtb_spec r 0) end; lia.
Qed.

Lemma C1_workingDays_formula_witness :
  calculateMonthlyWorkingDays 3 2025 0
    = CalendarSpec.daysInMonth 3 2025 - CalendarSpec.sundaysIn 3 2025
      - (if CalendarSpec.secondSaturdayExists 3 2025 then 1 else 0)
  /\ 0 <= calculateMonthlyWorkingDays 3 2025 0.
Proof. apply (C1_workingDays_formula 3 2025); lia. Defined.

(** C2 as the claim has it fails at its own example: February 2025 has
    28 days, 4 Sundays and a second Saturday, and the calculator returns
    23, not 24. *)
Lemma C2_feb_2025_is_not_24 : calculateMonthlyWorkingDays 2 2025 0 <> 24.
Proof. vm_compute. discriminate. Qed.

(** C2 (amended): for every month 1..12 and year 1900..2100 the result
    does not grow when the extra holidays grow, and it is never below 0;
    February 2025 gives 23 and March 2025 gives 25. *)
Theorem C2_antitone_floored (m y : Z) :
  1 <= m <= 12 -> 1900 <= y <= 2100 ->
  (forall k1 k2, k1 <= k2 ->
     calculateMonthlyWorkingDays m y k2 <= calculateMonthlyWorkingDays m y k1)
  /\ (forall k, 0 <= calculateMonthlyWorkingDays m y k)
  /\ calculateMonthlyWorkingDays 2 2025 0 = 23
  /\ calculateMonthlyWorkingDays 3 2025 0 = 25.
Proof.
  intros _ _. repeat split.
  - intros k1 k2. apply calculateMonthlyWorkingDays_antitone.
  - intros k. apply calculateMonthlyWorkingDays_nonneg.
Qed.

Lemma C2_antitone_floored_witness :
  calculateMonthlyWorkingDays 2 2025 3 <= calculateMonthlyWorkingDays 2 2025 1
  /\ 0 <= calculateMonthlyWorkingDays 2 2025 40.
Proof.
  destruct (C2_antitone_floored 2 2025) as (Hmono & Hfloor & _); [lia|lia|].
  split; [apply Hmono; lia | apply Hfloor].
Defined.

(** ** The period parser *)

Section ParserProofs.
Import JSString Period PeriodSpec.
Local Open Scope string_scope.
Local Open Scope Z_scope.

Lemma digit_not_space (c : ascii) : is_digit c = true -> is_space c = false.
Proof.
  unfold is_digit, is_space. cbv zeta. generalize (code c). intros n H.
  apply andb_true_iff in H. destruct H as [H1 H2].
  apply N.leb_le in H1. apply N.leb_le in H2.
  apply orb_false_iff. split; [apply orb_false_iff; split|].
  - apply andb_false_iff. right. apply N.leb_gt. lia.
  - apply N.eqb_neq. lia.
  - apply N.eqb_neq. lia.
Qed.

Lemma sep_not_letter (c : ascii) : is_sep c = true -> is_lower_letter c = false.
Proof.
  unfold is_sep, is_digit, is_space, is_lower_letter. cbv zeta.
  generalize (code c). intros n H.
  apply andb_false_iff.
  destruct (N.leb_spec 97 n); [right|left; reflexivity].
  apply N.leb_gt.
  repeat (apply orb_true_iff in H; destruct H as [H|H]);
    repeat (apply andb_true_iff in H; destruct H as [? H]);
    rewrite ?N.leb_le, ?N.eqb_eq in *; lia.
Qed.

Lemma eqb_letter_sep (c r0 : ascii) :
  is_sep r0 = true -> is_lower_letter c = true -> Ascii.eqb c r0 = false.
Proof.
  intros Hs Hl. destruct (Ascii.eqb_spec c r0) as [->|]; [|reflexivity].
  rewrite (sep_not_letter _ Hs) in Hl. discriminate.
Qed.

Lemma strip_prefix_app (p r : string) : strip_prefix p (p ++ r) = Some r.
Proof.
  induction p as [|a p IH]; simpl; [reflexivity|].
  rewrite Ascii.eqb_refl. exact IH.
Qed.

Lemma strip_prefix_Some (p : string) :
  forall s r, strip_prefix p s = Some r -> s = p ++ r.
Proof.
  induction p as [|a p IH]; intros s r H; simpl in *.
  - congruence.
  - destruct s as [|b s]; [discriminate|].
    destruct (Ascii.eqb_spec a b) as [->|]; [|discriminate].
    f_equal. apply IH, H.
Qed.

Lemma skip_spaces_app (ws r : string) :
  all_chars is_space ws = true -> no_space_ahead r -> skip_spaces (ws ++ r) = r.
Proof.
  intros Hws Hr. induction ws as [|c ws IH]; simpl in *.
  - destruct r as [|c r]; [reflexivity|]. simpl in *. rewrite Hr. reflexivity.
  - apply andb_true_iff in Hws. destruct Hws as [Hc Hws].
    rewrite Hc. apply IH, Hws.
Qed.

Lemma skip_spaces_split (s : string) :
  exists ws, all_chars is_space ws = true /\ s = ws ++ skip_spaces s
             /\ no_space_ahead (skip_spaces s).
Proof.
  induction s as [|c s (ws & Hws & Hs & Hn)]; simpl.
  - exists "". repeat split.
  - destruct (is_space c) eqn:Hc.
    + exists (String c ws). simpl. rewrite Hc, Hws. repeat split; [|exact Hn].
      f_equal. exact Hs.
    + exists "". simpl. repeat split. exact Hc.
Qed.

Lemma four_digits_inv (r : string) :
  four_digits r = true ->
  exists a b c d,
    r = String a (String b (String c (String d "")))
    /\ is_digit a = true /\ is_digit b = true
    /\ is_digit c = true /\ is_digit d = true.
Proof.
  intros H.
  destruct r as [|a [|b [|c [|d [|e r]]]]]; simpl in H; try discriminate.
  rewrite !andb_true_iff in H. destruct H as [[[Ha Hb] Hc] Hd].
  exists a, b, c, d. repeat split; assumption.
Qed.

Lemma four_digits_year_text (r : string) : four_digits r = true -> year_text r.
Proof.
  intros H. right.
  destruct (four_digits_inv r H) as (a & b & c & d & -> & Ha & Hb & Hc & Hd).
  split; [reflexivity|]. cbn [all_chars]. rewrite Ha, Hb, Hc, Hd. reflexivity.
Qed.

Lemma year_text_cases (yr : string) :
  year_text yr -> yr = "" \/ (four_digits yr = true /\ String.eqb yr "" = false
                               /\ no_space_ahead yr).
Proof.
  intros [->|[Hl Hd]]; [left; reflexivity|right].
  destruct yr as [|a [|b [|c [|d [|e r]]]]]; simpl in Hl; try discriminate.
  cbn [all_chars] in Hd. rewrite !andb_true_iff in Hd.
  destruct Hd as (Ha & Hb & Hc & Hd & _).
  repeat split.
  - cbn [four_digits]. rewrite Ha, Hb, Hc, Hd. reflexivity.
  - cbn [no_space_ahead]. apply digit_not_space, Ha.
Qed.

Lemma match_rest_complete (ws yr : string) :
  all_chars is_space ws = true -> year_text yr ->
  match_rest (ws ++ yr) = Some (year_group yr).
Proof.
  intros Hws Hyr. unfold match_rest, year_group.
  destruct (year_text_cases yr Hyr) as [->|(H4 & Hne & Hn)].
  - rewrite skip_spaces_app by (auto; exact I). reflexivity.
  - rewrite skip_spaces_app by auto. rewrite Hne, H4. reflexivity.
Qed.

Lemma match_rest_sound (s : string) (g : option string) :
  match_rest s = Some g ->
  exists ws yr, all_chars is_space ws = true /\ year_text yr
                /\ s = ws ++ yr /\ g = year_group yr.
Proof.
  unfold match_rest. intros H.
  destruct (skip_spaces_split s) as (ws & Hws & Hs & _).
  exists ws, (skip_spaces s). unfold year_group.
  destruct (String.eqb_spec (skip_spaces s) "") as [E|E].
  - rewrite E in *. repeat split; auto. + left; reflexivity. + congruence.
  - destruct (four_digits (skip_spaces s)) eqn:H4; [|discriminate].
    repeat split; auto. + apply four_digits_year_text, H4. + congruence.
Qed.

Lemma match_alternatives_sound (alts : list string) (s alt : string) (g : option string) :
  match_alternatives alts s = Some (alt, g) ->
  In alt alts /\ exists rest, s = alt ++ rest /\ match_rest rest = Some g.
Proof.
  induction alts as [|a alts IH]; simpl; [discriminate|].
  destruct (strip_prefix a s) as [rest|] eqn:Hp.
  - destruct (match_rest rest) as [g'|] eqn:Hr.
    + intros H. injection H as <- <-. split; [left; reflexivity|].
      exists rest. split; [apply strip_prefix_Some, Hp | exact Hr].
    + intros H. destruct (IH H) as [Hin Hex]. split; [right; exact Hin | exact Hex].
  - intros H. destruct (IH H) as [Hin Hex]. split; [right; exact Hin | exact Hex].
Qed.

(** What can follow the month token: a year part, after white space. *)
Lemma rest_head_sep (ws yr : string) (c : ascii) (r : string) :
  all_chars is_space ws = true -> year_text yr -> ws ++ yr = String c r ->
  is_sep c = true.
Proof.
  intros Hws Hyr E. unfold is_sep.
  destruct ws as [|w ws]; simpl in *.
  - destruct (year_text_cases yr Hyr) as [->|(H4 & _ & _)]; [discriminate|].
    destruct (four_digits_inv yr H4) as (a & b & c' & d & E' & Ha & _).
    rewrite E' in E. injection E as <- _. rewrite Ha. apply orb_true_r.
  - injection E as <- _. apply andb_true_iff in Hws. destruct Hws as [-> _].
    reflexivity.
Qed.

Lemma string_app_assoc (a b c : string) : (a ++ b) ++ c = a ++ (b ++ c).
Proof. induction a as [|x a IH]; simpl; [reflexivity|]. f_equal. exact IH. Qed.

Lemma string_app_nil_r (a : string) : a ++ "" = a.
Proof. induction a as [|x a IH]; simpl; [reflexivity|]. f_equal. exact IH. Qed.

(** Two ways to cut one string: one front part is the start of the
    other. *)
Lemma string_app_eq_app (a : string) :
  forall b r1 r2, a ++ r1 = b ++ r2 ->
  (exists x, a = b ++ x /\ r2 = x ++ r1) \/ (exists x, b = a ++ x /\ r1 = x ++ r2).
Proof.
  induction a as [|c a IH]; intros b r1 r2 H.
  - right. exists b. split; [reflexivity|exact H].
  - destruct b as [|d b].
    + left. exists (String c a). split; [reflexivity|]. symmetry. exact H.
    + simpl in H. injection H as <- H.
      destruct (IH b r1 r2 H) as [(x & -> & ->)|(x & -> & ->)].
      * left. exists x. split; reflexivity.
      * right. exists x. split; reflexivity.
Qed.

Lemma month_alternatives_words :
  forallb is_word month_alternatives = true.
Proof. vm_compute. reflexivity. Qed.

Lemma month_table_alternatives (tok : string) (m : Z) :
  names_month tok m -> In tok month_alternatives.
Proof.
  unfold names_month, month_table. intros H.
  repeat (destruct H as [H|H]; [injection H as <- _; vm_compute; tauto|]).
  destruct H.
Qed.

Lemma is_word_app_inv (a x : string) : is_word (a ++ x) = true -> is_word x = true.
Proof.
  unfold is_word. induction a as [|c a IH]; simpl; [auto|].
  intros H. apply andb_true_iff in H. apply IH, H.
Qed.

(** A word cannot go on where the rest of the label begins. *)
Lemma word_meets_rest (x rest : string) :
  is_word x = true ->
  (forall c r, x ++ rest = String c r -> is_sep c = true) ->
  x = "".
Proof.
  intros Hw Hsep. destruct x as [|c x]; [reflexivity|].
  simpl in Hw. apply andb_true_iff in Hw. destruct Hw as [Hc _].
  rewrite (sep_not_letter c (Hsep c (x ++ rest) eq_refl)) in Hc. discriminate.
Qed.

Lemma match_rest_head (rest : string) (g : option string) :
  match_rest rest = Some g -> forall c r, rest = String c r -> is_sep c = true.
Proof.
  intros H c r E.
  destruct (match_rest_sound rest g H) as (ws & yr & Hws & Hyr & Hs & _).
  apply (rest_head_sep ws yr c r Hws Hyr). congruence.
Qed.

(** Some alternative succeeds as soon as one of the list does. *)
Lemma match_alternatives_some (alts : list string) (s tok rest : string)
    (g : option string) :
  In tok alts -> s = tok ++ rest -> match_rest rest = Some g ->
  match_alternatives alts s <> None.
Proof.
  intros Hin -> Hr. induction alts as [|a alts IH]; [destruct Hin|].
  simpl. destruct (strip_prefix a (tok ++ rest)) as [r'|] eqn:Hp.
  - destruct (match_rest r') eqn:Hr'; [discriminate|].
    destruct Hin as [->|Hin]; [|apply IH, Hin].
    rewrite strip_prefix_app in Hp. congruence.
  - destruct Hin as [->|Hin]; [|apply IH, Hin].
    rewrite strip_prefix_app in Hp. discriminate.
Qed.

Lemma match_alternatives_complete (tok rest : string) (m : Z) (g : option string) :
  names_month tok m ->
  match_rest rest = Some g ->
  match_alternatives month_alternatives (tok ++ rest) = Some (tok, g).
Proof.
  intros Hin Hrest.
  pose proof (month_table_alternatives tok m Hin) as Htok.
  destruct (match_alternatives month_alternatives (tok ++ rest))
    as [[alt g']|] eqn:E.
  2:{ exfalso. exact (match_alternatives_some _ _ tok rest g Htok eq_refl Hrest E). }
  destruct (match_alternatives_sound _ _ _ _ E) as (Halt & rest' & Hs & Hrest').
  pose proof month_alternatives_words as Hw. rewrite forallb_forall in Hw.
  assert (alt = tok /\ rest' = rest) as [-> ->].
  { destruct (string_app_eq_app tok alt rest rest' Hs) as [(x & Ex & Er)|(x & Ex & Er)].
    - assert (x = "") as ->.
      { apply (word_meets_rest x rest).
        - apply (is_word_app_inv alt). rewrite <- Ex. apply Hw, Htok.
        - rewrite <- Er. apply (match_rest_head rest' g' Hrest'). }
      rewrite string_app_nil_r in Ex. simpl in Er. split; congruence.
    - assert (x = "") as ->.
      { apply (word_meets_rest x rest').
        - apply (is_word_app_inv tok). rewrite <- Ex. apply Hw, Halt.
        - rewrite <- Er. apply (match_rest_head rest g Hrest). }
      rewrite string_app_nil_r in Ex. simpl in Er. split; congruence. }
  congruence.
Qed.

Lemma month_of_token (tok : string) (m : Z) :
  names_month tok m -> month_of_group tok = m /\ 1 <= m <= 12.
Proof.
  unfold names_month, month_table. intros H.
  repeat (destruct H as [H|H]; [injection H as <- <-; vm_compute;
    split; [reflexivity|split; discriminate]|]).
  destruct H.
Qed.

Lemma alternative_names_month (alt : string) :
  In alt month_alternatives -> names_month alt (month_of_group alt).
Proof.
  unfold month_alternatives, monthNames, shortMonthNames. cbn [app]. intros H.
  repeat (destruct H as [H|H]; [subst alt; vm_compute; tauto|]).
  destruct H.
Qed.

Lemma digit_cases (a : ascii) :
  is_digit a = true ->
  In a ["0"; "1"; "2"; "3"; "4"; "5"; "6"; "7"; "8"; "9"]%char.
Proof.
  destruct a as [[] [] [] [] [] [] [] []]; vm_compute; intros H;
    try discriminate; tauto.
Qed.

Lemma radix_digit_decimal (c : ascii) :
  is_digit c = true -> radix_digit 10 c = Some (digit_value c).
Proof.
  unfold is_digit, radix_digit, digit_value. cbv zeta. intros H.
  apply andb_true_iff in H. destruct H as [H1 H2].
  apply N.leb_le in H1. apply N.leb_le in H2.
  destruct (Z.leb_spec 48 (Z.of_N (code c))); [|lia].
  destruct (Z.leb_spec (Z.of_N (code c)) 57); [|lia].
  reflexivity.
Qed.

Lemma read_digits_decimal (s : string) :
  forall acc, all_chars is_digit s = true ->
  read_digits 10 s acc true = Some (decimal_from acc s).
Proof.
  induction s as [|c s IH]; intros acc H; simpl in *; [reflexivity|].
  apply andb_true_iff in H. destruct H as [Hc Hs].
  rewrite (radix_digit_decimal c Hc). apply IH, Hs.
Qed.

Lemma parseInt_two_digits (a b : ascii) (r : string) :
  is_digit a = true -> is_digit b = true ->
  parseInt (String a (String b r))
  = option_map (Z.mul 1) (read_digits 10 (String a (String b r)) 0 false).
Proof.
  intros Ha Hb.
  pose proof (digit_cases a Ha) as Ca. pose proof (digit_cases b Hb) as Cb.
  cbn [In] in Ca, Cb.
  repeat (destruct Ca as [<-|Ca]; [
    repeat (destruct Cb as [<-|Cb]; [reflexivity|]); destruct Cb|]).
  destruct Ca.
Qed.

Lemma parseInt_four_digits (r : string) :
  four_digits r = true -> parseInt r = Some (decimal r).
Proof.
  intros H.
  destruct (four_digits_inv r H) as (a & b & c & d & -> & Ha & Hb & Hc & Hd).
  rewrite (parseInt_two_digits a b _ Ha Hb).
  cbn [read_digits].
  rewrite (radix_digit_decimal a Ha), (radix_digit_decimal b Hb),
    (radix_digit_decimal c Hc), (radix_digit_decimal d Hd).
  cbn [option_map]. rewrite Z.mul_1_l. reflexivity.
Qed.

(** The year that [parsePeriodName] computes from the second group. *)
Lemma year_of_group (yr : string) (c : Z) :
  year_text yr ->
  match year_group yr with
  | Some ys => if String.eqb ys "" then Some c else parseInt ys
  | None => Some c
  end = Some (year_of yr c).
Proof.
  intros Hyr. unfold year_group, year_of.
  destruct (year_text_cases yr Hyr) as [->|(H4 & Hne & _)]; [reflexivity|].
  rewrite !Hne. apply parseInt_four_digits, H4.
Qed.

Lemma parsePeriodName_reads (s : string) (c m y : Z) :
  reads_as s c m y -> parsePeriodName s c = (Some m, Some y).
Proof.
  intros (tok & ws & yr & Hm & Hws & Hyr & Hs & Hy).
  unfold parsePeriodName, regex_match. rewrite Hs.
  rewrite (match_alternatives_complete tok (ws ++ yr) m (year_group yr) Hm
             (match_rest_complete ws yr Hws Hyr)).
  fold (month_of_group tok). rewrite (proj1 (month_of_token tok m Hm)).
  rewrite (year_of_group yr c Hyr). congruence.
Qed.

Lemma parsePeriodName_matched (s : string) (c m : Z) (y : option Z) :
  parsePeriodName s c = (Some m, y) ->
  exists y', y = Some y' /\ reads_as s c m y'.
Proof.
  unfold parsePeriodName, regex_match.
  destruct (match_alternatives month_alternatives (toLowerCase s))
    as [[alt g]|] eqn:E; [|discriminate].
  destruct (match_alternatives_sound _ _ _ _ E) as (Halt & rest & Hs & Hrest).
  destruct (match_rest_sound rest g Hrest) as (ws & yr & Hws & Hyr & -> & ->).
  fold (month_of_group alt). rewrite (year_of_group yr c Hyr).
  intros H. injection H as <- <-.
  exists (year_of yr c). split; [reflexivity|].
  exists alt, ws, yr. repeat split; auto.
  apply alternative_names_month, Halt.
Qed.

Lemma parsePeriod_Some_iff (s : string) (c m y : Z) :
  parsePeriod s c = Some (m, y) <-> reads_as s c m y /\ 1900 <= y <= 2100.
Proof.
  unfold parsePeriod. split.
  - destruct (parsePeriodName s c) as [[m'|] [y'|]] eqn:E; try discriminate.
    destruct (period_ok (Some m', Some y')) eqn:Hok; [|discriminate].
    intros H. injection H as <- <-.
    destruct (parsePeriodName_matched s c m' (Some y') E) as (y'' & Ey & Hr).
    injection Ey as <-. split; [exact Hr|].
    unfold period_ok in Hok. rewrite !andb_true_iff in Hok.
    destruct Hok as [[_ H1] H2].
    apply Z.geb_le in H1. apply Z.leb_le in H2. lia.
  - intros [Hr Hy]. rewrite (parsePeriodName_reads s c m y Hr).
    destruct Hr as (tok & _ & _ & Hm & _).
    destruct (month_of_token tok m Hm) as [_ Hmr].
    unfold period_ok.
    replace (m >? 0) with true by (symmetry; apply Z.gtb_lt; lia).
    replace (m <=? 12) with true by (symmetry; apply Z.leb_le; lia).
    replace (y >=? 1900) with true by (symmetry; apply Z.geb_le; lia).
    replace (y <=? 2100) with true by (symmetry; apply Z.leb_le; lia).
    reflexivity.
Qed.

Lemma parsePeriod_None_iff (s : string) (c : Z) :
  parsePeriod s c = None <->
  ~ exists m y, reads_as s c m y /\ 1900 <= y <= 2100.
Proof.
  split.
  - intros H (m & y & Hr). apply parsePeriod_Some_iff in Hr. congruence.
  - intros H. destruct (parsePeriod s c) as [[m y]|] eqn:E; [|reflexivity].
    exfalso. apply H. exists m, y. apply parsePeriod_Some_iff, E.
Qed.



Lemma toLowerCase_app (a b : string) :
  toLowerCase (a ++ b) = toLowerCase a ++ toLowerCase b.
Proof. induction a as [|c a IH]; simpl; [reflexivity|]. f_equal. exact IH. Qed.

Lemma year_strings_1900_2100 : forallb year_string_ok (Zrange 1900 201) = true.
Proof. vm_compute. reflexivity. Qed.

Lemma year_string_in_range (y : Z) :
  1900 <= y <= 2100 -> year_string_ok y = true.
Proof.
  intros Hy. apply (forallb_Zrange _ 1900 201 year_strings_1900_2100).
  change (Z.of_nat 201) with 201. lia.
Qed.

Lemma parsePeriod_invalid_no_days (s : string) (h : field) (c : Z) :
  parsePeriod s c = None -> workingDaysEffect s h c = 0.
Proof. unfold workingDaysEffect. intros ->. reflexivity. Qed.

End ParserProofs.

Lemma all_chars_app (p : ascii -> bool) (a b : string) :
  PeriodSpec.all_chars p (a ++ b) = PeriodSpec.all_chars p a && PeriodSpec.all_chars p b.
Proof.
  induction a as [|c a IH]; simpl; [reflexivity|].
  rewrite IH. apply andb_assoc.
Qed.

Lemma no_digit_no_year (s : string) :
  PeriodSpec.has_no_digit (JSString.toLowerCase s) = true -> ~ PeriodSpec.year_out_of_range s.
Proof.
  intros H (tok & m & ws & yr & rest & _ & _ & Hl & Hd & Hs & _).
  rewrite Hs in H. unfold PeriodSpec.has_no_digit in H.
  rewrite !all_chars_app, !andb_true_iff in H.
  destruct H as (_ & _ & Hyr & _).
  destruct yr as [|a yr]; [discriminate|].
  simpl in Hd, Hyr. apply andb_true_iff in Hd. apply andb_true_iff in Hyr.
  destruct Hd as [Ha _]. destruct Hyr as [Hna _].
  rewrite Ha in Hna. discriminate.
Qed.

(** C3 as the claim has it fails: "March abc" has a month name at its
    start and no four-digit year at all, yet it is invalid. *)
Lemma C3_month_then_text_is_invalid :
  Period.parsePeriod "March abc" 2025 = None
  /\ PeriodSpec.starts_with_month "March abc"
  /\ ~ PeriodSpec.year_out_of_range "March abc".
Proof.
  split; [vm_compute; reflexivity|]. split.
  - exists "march", 3, " abc". split; [|reflexivity].
    unfold PeriodSpec.names_month, PeriodSpec.month_table. simpl. tauto.
  - apply no_digit_no_year. vm_compute. reflexivity.
Qed.

(** C3 (amended): the parser is a total function; it gives no period
    exactly when the label, in lower case and from its first to its last
    character, is not a month name or abbreviation, then optional white
    space, then nothing or a four-digit year, or when the year (the one
    written, or the current year when none is written) is outside
    1900..2100; a label without a period leaves zero working days.
    "March 2025" reads as (3, 2025), "mar" as (3, c) for c in
    1900..2100, and "Marchy 2025" and "March 1899" give no period. *)
Theorem C3_parse_characterised (s : string) (c : Z) :
  (Period.parsePeriod s c = None <->
     ~ exists m y, PeriodSpec.reads_as s c m y /\ 1900 <= y <= 2100)
  /\ (forall m y, Period.parsePeriod s c = Some (m, y) <->
        PeriodSpec.reads_as s c m y /\ 1900 <= y <= 2100)
  /\ (Period.parsePeriod s c = None ->
        forall h, workingDaysEffect s h c = 0)
  /\ Period.parsePeriod "March 2025" c = Some (3, 2025)
  /\ (1900 <= c <= 2100 -> Period.parsePeriod "mar" c = Some (3, c))
  /\ Period.parsePeriod "Marchy 2025" c = None
  /\ Period.parsePeriod "March 1899" c = None.
Proof.
  split; [apply parsePeriod_None_iff|].
  split; [intros m y; apply parsePeriod_Some_iff|].
  split; [intros H h; apply parsePeriod_invalid_no_days, H|].
  split; [reflexivity|].
  split; [|split; reflexivity].
  intros Hc. unfold Period.parsePeriod.
  change (Period.parsePeriodName "mar" c) with (Some 3, Some c).
  unfold Period.period_ok.
  replace (c >=? 1900) with true by (symmetry; apply Z.geb_le; lia).
  replace (c <=? 2100) with true by (symmetry; apply Z.leb_le; lia).
  reflexivity.
Qed.

Lemma C3_parse_characterised_witness :
  Period.parsePeriod "mar" 2025 = Some (3, 2025)
  /\ workingDaysEffect "March abc" (FText "") 2025 = 0.
Proof.
  split.
  - apply (C3_parse_characterised "mar" 2025). lia.
  - apply (C3_parse_characterised "March abc" 2025). reflexivity.
Defined.

(** C10: a month name or abbreviation, in any mix of cases, directly
    followed by the four digits of a year in 1900..2100 reads as that
    month of that year: the white space of the pattern may be empty. *)
Theorem C10_year_without_space (M : string) (m y c : Z) :
  PeriodSpec.names_month (JSString.toLowerCase M) m ->
  1900 <= y <= 2100 ->
  Period.parsePeriod (M ++ JSNumber.Z_to_string y) c = Some (m, y).
Proof.
  intros Hm Hy.
  pose proof (year_string_in_range y Hy) as Hok.
  unfold year_string_ok in Hok. rewrite !andb_true_iff in Hok.
  destruct Hok as [[H4 Hdec] Hlow].
  apply Z.eqb_eq in Hdec. apply String.eqb_eq in Hlow.
  apply parsePeriod_Some_iff. split; [|exact Hy].
  exists (JSString.toLowerCase M), "", (JSNumber.Z_to_string y).
  split; [exact Hm|]. split; [reflexivity|].
  split; [apply four_digits_year_text, H4|].
  split; [rewrite toLowerCase_app, Hlow; reflexivity|].
  unfold PeriodSpec.year_of.
  destruct (year_text_cases _ (four_digits_year_text _ H4)) as [E|(_ & -> & _)].
  - rewrite E in H4. discriminate.
  - symmetry. exact Hdec.
Qed.

Lemma C10_year_without_space_witness :
  Period.parsePeriod "march2025" 1999 = Some (3, 2025).
Proof.
  apply (C10_year_without_space "march" 3 2025 1999); [|lia].
  unfold PeriodSpec.names_month, PeriodSpec.month_table. simpl. tauto.
Defined.

(** ** The percentage ([calculateAttendance]) *)

Lemma nearest_hundredth_rounds (q : Q) : rounds_to q (JSNumber.nearest_hundredth q).
Proof.
  destruct q as [num den]. unfold rounds_to, JSNumber.nearest_hundredth.
  cbn [Qnum Qden].
  set (n := (200 * num + Z.pos den) / (2 * Z.pos den)).
  assert (Hdiv : 2 * Z.pos den * n <= 200 * num + Z.pos den
                 < 2 * Z.pos den * n + 2 * Z.pos den).
  { subst n. pose proof (Z.mul_div_le (200 * num + Z.pos den) (2 * Z.pos den) ltac:(lia)).
    pose proof (Z.mul_succ_div_gt (200 * num + Z.pos den) (2 * Z.pos den) ltac:(lia)).
    lia. }
  clearbody n. unfold Qle, Qlt, Qminus, Qplus, Qmult, Qopp, inject_Z.
  cbn [Qnum Qden]. rewrite ?Pos2Z.inj_mul. split; nia.
Qed.

Lemma rounds_to_Qeq (p q : Q) (n : Z) : (p == q)%Q -> rounds_to p n -> rounds_to q n.
Proof. unfold rounds_to. intros E [H1 H2]. rewrite <- E. split; assumption. Qed.

Lemma Qltb_false (a b : Q) : JSNumber.Qltb a b = false -> (b <= a)%Q.
Proof.
  unfold JSNumber.Qltb. intros H. apply negb_false_iff in H.
  apply Qle_bool_iff, H.
Qed.

Lemma Qltb_true (a b : Q) : JSNumber.Qltb a b = true -> (a < b)%Q.
Proof.
  unfold JSNumber.Qltb. intros H. apply negb_true_iff in H.
  apply Qnot_le_lt. intros Hle. apply Qle_bool_iff in Hle. congruence.
Qed.


Lemma Qltb_ge (a b : Q) : (b <= a)%Q -> JSNumber.Qltb a b = false.
Proof.
  intros H. unfold JSNumber.Qltb. apply negb_false_iff. apply Qle_bool_iff, H.
Qed.

(** The numbers that pass the three checks. *)
Lemma checks_passed (total : Z) (attended : JSNumber.number) :
  JSNumber.le (JSNumber.of_Z total) (JSNumber.of_Z 0) = false ->
  JSNumber.isNaN attended = false ->
  JSNumber.lt attended (JSNumber.of_Z 0) = false ->
  JSNumber.gt attended (JSNumber.of_Z total) = false ->
  0 < total /\ exists a, attended = JSNumber.Fin a /\ (0 <= a <= inject_Z total)%Q.
Proof.
  intros Ht Hn Hl Hg. split.
  - unfold JSNumber.le, JSNumber.of_Z in Ht.
    destruct (Z.lt_ge_cases 0 total) as [|Hle]; [assumption|].
    assert (Qle_bool (inject_Z total) (inject_Z 0) = true) as E; [|congruence].
    apply Qle_bool_iff. rewrite <- Zle_Qle. exact Hle.
  - destruct attended as [|[]|a]; try discriminate.
    exists a. split; [reflexivity|]. split.
    + apply Qltb_false in Hl. exact Hl.
    + unfold JSNumber.gt in Hg. apply Qltb_false in Hg. exact Hg.
Qed.

(** The percentage of a valid pair is a rational between 0 and 100. *)
Lemma percentage_of_valid (total : Z) (a : Q) :
  0 < total -> (0 <= a <= inject_Z total)%Q ->
  exists p,
    JSNumber.mul (JSNumber.div (JSNumber.Fin a) (JSNumber.of_Z total)) (JSNumber.of_Z 100)
      = JSNumber.Fin p
    /\ (p == a / inject_Z total * 100)%Q /\ (0 <= p <= 100)%Q.
Proof.
  intros Ht [Ha1 Ha2].
  assert (Hpos : (0 < inject_Z total)%Q)
    by (change (inject_Z 0 < inject_Z total)%Q; rewrite <- Zlt_Qlt; exact Ht).
  unfold JSNumber.div, JSNumber.mul, JSNumber.of_Z, JSNumber.is_zero.
  destruct (Qeq_bool (inject_Z total) 0) eqn:E.
  { apply Qeq_bool_eq in E. rewrite E in Hpos. exfalso. exact (Qlt_irrefl _ Hpos). }
  eexists. split; [reflexivity|].
  assert (Hp : (Qred (Qred (a / inject_Z total) * inject_Z 100)
                == a / inject_Z total * 100)%Q).
  { rewrite !Qred_correct. reflexivity. }
  split; [exact Hp|]. rewrite Hp. split.
  - apply Qmult_le_0_compat; [|discriminate].
    apply Qle_shift_div_l; [exact Hpos|]. rewrite Qmult_0_l. exact Ha1.
  - setoid_replace (100:Q) with (1 * 100)%Q at 2 by reflexivity.
    apply Qmult_le_compat_r; [|discriminate].
    apply Qle_shift_div_r; [exact Hpos|]. rewrite Qmult_1_l. exact Ha2.
Qed.

Lemma toFixed2_nonneg (p : Q) :
  (0 <= p)%Q ->
  JSNumber.toFixed2 (JSNumber.Fin p)
  = JSNumber.hundredths_to_string (JSNumber.nearest_hundredth p).
Proof.
  intros Hp. unfold JSNumber.toFixed2, JSNumber.is_neg.
  rewrite (Qltb_ge p 0 Hp). reflexivity.
Qed.

Lemma messages_distinct :
  Msg.totalNotPositive <> Msg.attendedInvalid
  /\ Msg.totalNotPositive <> Msg.attendedExceeds
  /\ Msg.attendedInvalid <> Msg.attendedExceeds.
Proof. repeat split; discriminate. Qed.



(** ** Sorting and saving *)

Section SortProofs.

Context {A : Type}.
Variable comparefn : A -> A -> option Z.
Variable key : A -> Z.

Lemma sort_insert_perm (x : A) (l : list A) :
  Permutation (sort_insert comparefn x l) (x :: l).
Proof.
  induction l as [|y l IH]; simpl; [apply Permutation_refl|].
  destruct (sortCompare comparefn x y <=? 0); [apply Permutation_refl|].
  apply perm_trans with (y :: x :: l); [apply perm_skip, IH | apply perm_swap].
Qed.

Lemma js_sort_perm (l : list A) : Permutation (js_sort comparefn l) l.
Proof.
  induction l as [|x l IH]; simpl; [apply perm_nil|].
  apply perm_trans with (x :: js_sort comparefn l);
    [apply sort_insert_perm | apply perm_skip, IH].
Qed.

Lemma js_sort_In (l : list A) (x : A) : In x (js_sort comparefn l) <-> In x l.
Proof.
  split; apply Permutation_in; [|apply Permutation_sym]; apply js_sort_perm.
Qed.

Lemma keyed_by_compare (l : list A) (a b : A) :
  keyed_by comparefn key l -> In a l -> In b l ->
  sortCompare comparefn a b = key b - key a.
Proof. intros H Ha Hb. unfold sortCompare. rewrite (H a b Ha Hb). reflexivity. Qed.

Lemma sort_insert_sorted (x : A) (l : list A) :
  keyed_by comparefn key (x :: l) ->
  sorted_desc key l -> sorted_desc key (sort_insert comparefn x l).
Proof.
  unfold sorted_desc. intros Hk Hs.
  induction Hs as [|y l Hs IH Hy]; simpl.
  - constructor; constructor.
  - rewrite (keyed_by_compare _ x y Hk) by (simpl; auto).
    destruct (Z.leb_spec (key y - key x) 0) as [Hle|Hgt].
    + constructor; [constructor; assumption|].
      constructor; [lia|].
      rewrite Forall_forall in *. intros z Hz. specialize (Hy z Hz). lia.
    + constructor.
      * apply IH. intros a b Ha Hb. apply Hk; simpl in *; tauto.
      * rewrite Forall_forall in *. intros z Hz.
        apply (Permutation_in _ (sort_insert_perm x l)) in Hz.
        destruct Hz as [<-|Hz]; [lia|apply Hy, Hz].
Qed.

Lemma js_sort_sorted (l : list A) :
  keyed_by comparefn key l -> sorted_desc key (js_sort comparefn l).
Proof.
  induction l as [|x l IH]; intros Hk; simpl; [constructor|].
  apply sort_insert_sorted.
  - intros a b Ha Hb. apply Hk.
    + destruct Ha as [<-|Ha]; [left; reflexivity|right; apply js_sort_In, Ha].
    + destruct Hb as [<-|Hb]; [left; reflexivity|right; apply js_sort_In, Hb].
  - apply IH. intros a b Ha Hb. apply Hk; right; assumption.
Qed.

End SortProofs.

Lemma sorted_desc_filter {A : Type} (key : A -> Z) (p : A -> bool) (l : list A) :
  sorted_desc key l -> sorted_desc key (filter p l).
Proof.
  unfold sorted_desc. induction 1 as [|x l Hs IH Hx]; simpl; [constructor|].
  destruct (p x); [|exact IH].
  constructor; [exact IH|].
  rewrite Forall_forall in *. intros z Hz. apply Hx.
  apply filter_In in Hz. tauto.
Qed.

Lemma timestamp_keyed (l : list AttendanceRecord) :
  keyed_by AppJsx.comparefn timestamp l.
Proof. intros a b _ _. reflexivity. Qed.

Lemma period_keyed (tz : Z) (l : list AttendanceRecord) :
  Forall (validKey tz) l -> keyed_by (Readme.comparefn tz) (sortKey tz) l.
Proof.
  intros H a b Ha Hb. rewrite Forall_forall in H.
  pose proof (H a Ha) as Va. pose proof (H b Hb) as Vb.
  unfold validKey in Va, Vb. unfold Readme.comparefn, sortKey.
  destruct (Readme.parsePeriodNameToSortableDate tz (periodName b)); [|congruence].
  destruct (Readme.parsePeriodNameToSortableDate tz (periodName a)); [|congruence].
  reflexivity.
Qed.

Lemma validKeys_Forall (tz : Z) (l : list AttendanceRecord) :
  validKeys tz l = true -> Forall (validKey tz) l.
Proof.
  unfold validKeys, validKey. rewrite forallb_forall, Forall_forall.
  intros H r Hr. specialize (H r Hr).
  destruct (Readme.parsePeriodNameToSortableDate tz (periodName r)); congruence.
Qed.

Lemma Forall_js_sort {A : Type} (cmp : A -> A -> option Z) (P : A -> Prop) (l : list A) :
  Forall P (js_sort cmp l) -> Forall P l.
Proof.
  rewrite !Forall_forall. intros H x Hx. apply H, js_sort_In, Hx.
Qed.

Lemma save_records (cmp : AttendanceRecord -> AttendanceRecord -> option Z)
    (env : Env) (st : AppState) :
  draftInvalid (JSNumber.of_Z (st_totalWorkingDays st))
               (parseFloat_field (st_daysAttended st)) (st_periodName st) = false ->
  let st' := saveOrUpdateAttendance_with cmp env st in
  st_attendanceRecords st' = js_sort cmp (savedList env st)
  /\ st_localStorage st' = Some (JSON_stringify (st_attendanceRecords st'))
  /\ st_messageType st' = Some success
  /\ st_message st'
     = Some (if truthy (st_editingRecordId st) then Msg.updated else Msg.saved).
Proof.
  intros Hv. unfold saveOrUpdateAttendance_with, savedList. rewrite Hv.
  destruct (truthy (st_editingRecordId st)); cbv zeta; repeat split; reflexivity.
Qed.

(** ** The order of the collection *)

Lemma map_unchanged {A : Type} (f : A -> A) (l : list A) :
  (forall x, In x l -> f x = x) -> map f l = l.
Proof.
  intros H. rewrite <- (map_id l) at 2. apply map_ext_in, H.
Qed.

(** C9: a save while the form edits an id that no record has replaces
    nothing and adds nothing: the collection keeps its records (they
    are sorted again), none of them has that id, and the save still
    reports "Record updated successfully!". *)
Theorem C9_update_of_unknown_id
    (comparefn : AttendanceRecord -> AttendanceRecord -> option Z)
    (env : Env) (st : AppState) (i : string) :
  st_editingRecordId st = Some i -> i <> "" ->
  (forall r, In r (st_attendanceRecords st) -> id r <> i) ->
  draftInvalid (JSNumber.of_Z (st_totalWorkingDays st))
               (parseFloat_field (st_daysAttended st)) (st_periodName st) = false ->
  let st' := saveOrUpdateAttendance_with comparefn env st in
  st_attendanceRecords st' = js_sort comparefn (st_attendanceRecords st)
  /\ Permutation (st_attendanceRecords st) (st_attendanceRecords st')
  /\ (forall r, In r (st_attendanceRecords st') -> id r <> i)
  /\ st_message st' = Some Msg.updated
  /\ st_messageType st' = Some success
  /\ st_localStorage st' = Some (JSON_stringify (st_attendanceRecords st')).
Proof.
  intros He Hi Hno Hv. cbv zeta.
  destruct (save_records comparefn env st Hv) as (Hrec & Hsto & Hty & Hmsg).
  assert (Ht : truthy (st_editingRecordId st) = true).
  { rewrite He. simpl. destruct (String.eqb_spec i ""); [contradiction|reflexivity]. }
  assert (Hl : savedList env st = st_attendanceRecords st).
  { unfold savedList. rewrite Ht. apply map_unchanged. intros r Hr.
    unfold isEditing. rewrite He.
    destruct (String.eqb_spec (id r) i) as [E|]; [|reflexivity].
    exfalso. exact (Hno r Hr E). }
  rewrite Hl in Hrec. rewrite Hmsg, Ht.
  repeat split; try assumption.
  - rewrite Hrec. apply Permutation_sym, js_sort_perm.
  - intros r Hr. rewrite Hrec in Hr. apply js_sort_In in Hr. apply Hno, Hr.
Qed.


Lemma firstOfMonth_chronological (tz y mi y' mi' t t' : Z) :
  100 <= y -> 100 <= y' -> 0 <= mi <= 11 -> 0 <= mi' <= 11 ->
  Readme.firstOfMonth tz y mi = Some t -> Readme.firstOfMonth tz y' mi' = Some t' ->
  y < y' \/ (y = y' /\ mi < mi') -> t < t'.
Proof.
  intros Hy Hy' Hm Hm' Ht Ht' H. unfold Readme.firstOfMonth in *.
  replace ((0 <=? y) && (y <=? 99)) with false in Ht
    by (symmetry; apply andb_false_iff; right; apply Z.leb_gt; lia).
  replace ((0 <=? y') && (y' <=? 99)) with false in Ht'
    by (symmetry; apply andb_false_iff; right; apply Z.leb_gt; lia).
  cbv zeta in Ht, Ht'.
  destruct (_ <=? _) in Ht; [|discriminate].
  destruct (_ <=? _) in Ht'; [|discriminate].
  injection Ht as <-. injection Ht' as <-.
  pose proof (MakeDay_chronological y mi y' mi' Hm Hm' H).
  unfold msPerDay. lia.
Qed.

Lemma split_space_no_space (a : string) : no_space a = true -> JSString.split_space a = [a].
Proof.
  unfold no_space. induction a as [|c a IH]; simpl; [reflexivity|].
  intros H. apply andb_true_iff in H. destruct H as [Hc Ha].
  apply negb_true_iff in Hc. rewrite Hc, (IH Ha). reflexivity.
Qed.

Lemma split_space_app (a b : string) :
  no_space a = true ->
  JSString.split_space (a ++ String " " b) = a :: JSString.split_space b.
Proof.
  unfold no_space. induction a as [|c a IH]; simpl; [reflexivity|].
  intros H. apply andb_true_iff in H. destruct H as [Hc Ha].
  apply negb_true_iff in Hc. rewrite Hc, (IH Ha). reflexivity.
Qed.

Lemma labelled_key (tz : Z) (name : string) (mi y : Z) :
  labelled name mi y ->
  Readme.parsePeriodNameToSortableDate tz name = Readme.firstOfMonth tz y mi.
Proof.
  intros (M & yr & -> & HM & Hyr & Hmi & Hy).
  unfold Readme.parsePeriodNameToSortableDate.
  change (M ++ " " ++ yr) with (M ++ String " " yr).
  rewrite (split_space_app M yr HM), (split_space_no_space yr Hyr), Hmi, Hy.
  reflexivity.
Qed.

Lemma assoc_monthMap_range (k : string) (i : Z) :
  Readme.assoc k Readme.monthMap = Some i -> 0 <= i <= 11.
Proof.
  unfold Readme.monthMap. cbn [Readme.assoc].
  repeat (destruct (String.eqb _ k); [intros H; injection H as <-; lia|]).
  discriminate.
Qed.

Lemma monthMap_get_range (k : string) (i : Z) :
  Readme.monthMap_get k = Readme.MonthIndex i -> 0 <= i <= 11.
Proof.
  unfold Readme.monthMap_get.
  destruct (Readme.assoc k Readme.monthMap) as [j|] eqn:E.
  - intros H. injection H as <-. apply (assoc_monthMap_range k j E).
  - destruct (_ || _); discriminate.
Qed.

Lemma unparseable_key (tz : Z) (name : string) :
  unparseable name -> Readme.parsePeriodNameToSortableDate tz name = Some 0.
Proof.
  unfold unparseable, Readme.parsePeriodNameToSortableDate.
  destruct (JSString.split_space name) as [|monthString [|yearString parts]];
    try reflexivity.
  intros [->| ->]; [reflexivity|].
  destruct (Readme.monthMap_get _); reflexivity.
Qed.

(** Later periods have larger keys. *)
Lemma sortKey_chronological (tz : Z) (a b : AttendanceRecord) (mi y mi' y' : Z) :
  labelled (periodName a) mi y -> labelled (periodName b) mi' y' ->
  100 <= y -> 100 <= y' -> validKey tz a -> validKey tz b ->
  y < y' \/ (y = y' /\ mi < mi') ->
  sortKey tz a < sortKey tz b.
Proof.
  intros La Lb Hy Hy' Va Vb H. unfold sortKey, validKey in *.
  pose proof La as (M & yr & _ & _ & _ & Hmi & _).
  pose proof Lb as (M' & yr' & _ & _ & _ & Hmi' & _).
  apply monthMap_get_range in Hmi. apply monthMap_get_range in Hmi'.
  rewrite (labelled_key tz _ mi y La) in *.
  rewrite (labelled_key tz _ mi' y' Lb) in *.
  destruct (Readme.firstOfMonth tz y mi) as [t|] eqn:Et; [|congruence].
  destruct (Readme.firstOfMonth tz y' mi') as [t'|] eqn:Et'; [|congruence].
  exact (firstOfMonth_chronological tz y mi y' mi' t t' Hy Hy' Hmi Hmi' Et Et' H).
Qed.

Lemma readme_delete_records (env : Env) (st : AppState) (r : AttendanceRecord) :
  st_recordToDelete st = Some r ->
  let st' := Readme.confirmDelete env st in
  st_attendanceRecords st'
  = js_sort (Readme.comparefn (tzOffset env))
      (filter (fun rec => negb (String.eqb (id rec) (id r))) (st_attendanceRecords st))
  /\ st_localStorage st' = Some (JSON_stringify (st_attendanceRecords st')).
Proof.
  intros Hr. unfold Readme.confirmDelete. rewrite Hr. cbv zeta.
  destruct (isEditing st r); split; reflexivity.
Qed.

Lemma appjsx_delete_records (env : Env) (st : AppState) (r : AttendanceRecord) :
  st_recordToDelete st = Some r ->
  let st' := AppJsx.confirmDelete env st in
  st_attendanceRecords st'
  = filter (fun rec => negb (String.eqb (id rec) (id r))) (st_attendanceRecords st)
  /\ st_localStorage st' = Some (JSON_stringify (st_attendanceRecords st')).
Proof.
  intros Hr. unfold AppJsx.confirmDelete. rewrite Hr. cbv zeta.
  destruct (isEditing st r); split; reflexivity.
Qed.

Lemma MakeDay_from_1970 (y mi : Z) :
  0 <= mi <= 11 -> 1970 < y \/ (y = 1970 /\ 1 <= mi) ->
  31 <= JSDate.MakeDay y mi 1.
Proof.
  intros Hm H. rewrite MakeDay_first by assumption.
  pose proof (InLeapYearOf_bound y) as Hl.
  destruct (days_before_month_bounds mi _ Hm Hl) as [Hb _].
  assert (D0 : JSDate.DayFromYear 1970 = 0) by reflexivity.
  destruct H as [Hy|[-> Hmi]].
  - pose proof (DayFromYear_step 1970 y Hy). lia.
  - rewrite D0.
    destruct (days_before_month_bounds 0 _ ltac:(lia) Hl) as [_ Hmono].
    specialize (Hmono mi ltac:(lia)). cbn [JSDate.days_before_month] in Hmono.
    destruct (Z.eq_dec mi 1) as [->|Hne]; [cbn [JSDate.days_before_month]; lia|].
    destruct (days_before_month_bounds 1 _ ltac:(lia) Hl) as [_ Hmono1].
    specialize (Hmono1 mi ltac:(lia)). cbn [JSDate.days_before_month] in Hmono1. lia.
Qed.

(** A name that is no period has a smaller key than every period from
    February 1970 on. *)
Lemma unparseable_below (tz : Z) (a b : AttendanceRecord) (mi y : Z) :
  Z.abs tz <= msPerDay ->
  unparseable (periodName a) -> labelled (periodName b) mi y ->
  1970 < y \/ (y = 1970 /\ 1 <= mi) -> validKey tz b ->
  sortKey tz a < sortKey tz b.
Proof.
  intros Htz Ha Lb Hy Vb. unfold sortKey, validKey in *.
  rewrite (unparseable_key tz _ Ha).
  pose proof Lb as (M & yr & _ & _ & _ & Hmi & _).
  apply monthMap_get_range in Hmi.
  rewrite (labelled_key tz _ mi y Lb) in *.
  destruct (Readme.firstOfMonth tz y mi) as [t|] eqn:Et; [|congruence].
  unfold Readme.firstOfMonth in Et.
  replace ((0 <=? y) && (y <=? 99)) with false in Et
    by (symmetry; apply andb_false_iff; right; apply Z.leb_gt; lia).
  cbv zeta in Et. destruct (_ <=? _) in Et; [|discriminate].
  injection Et as <-.
  pose proof (MakeDay_from_1970 y mi Hmi Hy). unfold msPerDay in *. lia.
Qed.

(** C5 as the claim has it fails. In [src/App.jsx] a record for
    January 2025 that is saved after the one for April 2025 goes to the
    front of the collection, before the later period. In the variant
    of README.md a record named "march", which its key function cannot
    parse, is placed before the record of March 1960 and not in the
    oldest position. *)
Lemma C5_not_ordered_by_period :
  (map periodName
       (st_attendanceRecords (AppJsx.saveOrUpdateAttendance sampleEnv formJanuary))
   = ["January 2025"; "April 2025"]
   /\ ~ sorted_desc (sortKey 0)
          (st_attendanceRecords (AppJsx.saveOrUpdateAttendance sampleEnv formJanuary)))
  /\ (unparseable "march"
      /\ map periodName
           (st_attendanceRecords (Readme.saveOrUpdateAttendance sampleEnv formNoYear))
         = ["march"; "March 1960"]).
Proof.
  split; [split|split].
  - vm_compute. reflexivity.
  - intros H. unfold sorted_desc in H.
    apply StronglySorted_inv in H. destruct H as [_ H].
    apply Forall_inv in H. vm_compute in H. apply H. reflexivity.
  - exact I.
  - vm_compute. reflexivity.
Qed.

(** C5 (amended): in the variant of README.md every successful create
    or update and every delete leaves the collection, in the state and
    in the storage alike, sorted by the date that
    [parsePeriodNameToSortableDate] gives to the period name, latest
    first, as long as none of these dates is invalid. A name with a
    month word, a space and a year gets the first day of that month, so
    later periods have larger keys and come first; a name that is no
    period has a smaller key than every such period from February 1970
    on, and so comes after them. In [src/App.jsx] a successful create
    or update leaves the collection sorted by timestamp, latest first,
    and a delete keeps the order of the other records. *)
Theorem C5_order_of_collection (env : Env) (st : AppState) :
  let tz := tzOffset env in
  (draftInvalid (JSNumber.of_Z (st_totalWorkingDays st))
                (parseFloat_field (st_daysAttended st)) (st_periodName st) = false ->
   let st' := Readme.saveOrUpdateAttendance env st in
   validKeys tz (st_attendanceRecords st') = true ->
   sorted_desc (sortKey tz) (st_attendanceRecords st')
   /\ st_localStorage st' = Some (JSON_stringify (st_attendanceRecords st')))
  /\ (forall r, st_recordToDelete st = Some r ->
      let st' := Readme.confirmDelete env st in
      validKeys tz (st_attendanceRecords st') = true ->
      sorted_desc (sortKey tz) (st_attendanceRecords st')
      /\ st_localStorage st' = Some (JSON_stringify (st_attendanceRecords st')))
  /\ (forall a b mi y mi' y',
      labelled (periodName a) mi y -> labelled (periodName b) mi' y' ->
      100 <= y -> 100 <= y' -> validKey tz a -> validKey tz b ->
      y < y' \/ (y = y' /\ mi < mi') ->
      sortKey tz a < sortKey tz b)
  /\ (forall a b mi y,
      Z.abs tz <= msPerDay ->
      unparseable (periodName a) -> labelled (periodName b) mi y ->
      1970 < y \/ (y = 1970 /\ 1 <= mi) -> validKey tz b ->
      sortKey tz a < sortKey tz b)
  /\ (draftInvalid (JSNumber.of_Z (st_totalWorkingDays st))
                   (parseFloat_field (st_daysAttended st)) (st_periodName st) = false ->
      let st' := AppJsx.saveOrUpdateAttendance env st in
      sorted_desc timestamp (st_attendanceRecords st')
      /\ st_localStorage st' = Some (JSON_stringify (st_attendanceRecords st')))
  /\ (forall r (key : AttendanceRecord -> Z), st_recordToDelete st = Some r ->
      let st' := AppJsx.confirmDelete env st in
      (sorted_desc key (st_attendanceRecords st) ->
       sorted_desc key (st_attendanceRecords st'))
      /\ st_localStorage st' = Some (JSON_stringify (st_attendanceRecords st'))).
Proof.
  cbv zeta. repeat split.
  - destruct (save_records (Readme.comparefn (tzOffset env)) env st H)
      as (Hrec & _).
    unfold Readme.saveOrUpdateAttendance in *. rewrite Hrec in *.
    apply js_sort_sorted, period_keyed.
    exact (Forall_js_sort _ _ _ (validKeys_Forall _ _ H0)).
  - apply (save_records (Readme.comparefn (tzOffset env)) env st H).
  - destruct (readme_delete_records env st r H) as (Hrec & _).
    rewrite Hrec in *.
    apply js_sort_sorted, period_keyed.
    exact (Forall_js_sort _ _ _ (validKeys_Forall _ _ H0)).
  - apply (readme_delete_records env st r H).
  - intros a b mi y mi' y'. apply sortKey_chronological.
  - intros a b mi y. apply unparseable_below.
  - destruct (save_records AppJsx.comparefn env st H) as (Hrec & _).
    unfold AppJsx.saveOrUpdateAttendance. rewrite Hrec.
    apply js_sort_sorted, timestamp_keyed.
  - apply (save_records AppJsx.comparefn env st H).
  - destruct (appjsx_delete_records env st r H) as (Hrec & _).
    rewrite Hrec. apply sorted_desc_filter.
  - apply (appjsx_delete_records env st r H).
Qed.

Lemma C5_order_of_collection_witness :
  sorted_desc (sortKey (tzOffset sampleEnv))
    (st_attendanceRecords (Readme.saveOrUpdateAttendance sampleEnv formJanuary))
  /\ sorted_desc (sortKey (tzOffset sampleEnv))
       (st_attendanceRecords (Readme.confirmDelete sampleEnv formDeleteApril))
  /\ sortKey (tzOffset sampleEnv) recordMarch < sortKey (tzOffset sampleEnv) recordApril
  /\ sortKey (tzOffset sampleEnv) (createdRecord sampleEnv formNoYear)
     < sortKey (tzOffset sampleEnv) recordApril
  /\ sorted_desc timestamp
       (st_attendanceRecords (AppJsx.saveOrUpdateAttendance sampleEnv formJanuary))
  /\ sorted_desc timestamp
       (st_attendanceRecords (AppJsx.confirmDelete sampleEnv formDeleteApril)).
Proof.
  pose proof (C5_order_of_collection sampleEnv formJanuary) as H.
  pose proof (C5_order_of_collection sampleEnv formDeleteApril) as D.
  cbv zeta in H, D.
  destruct H as (H1 & _ & H3 & H4 & H5 & _).
  destruct D as (_ & D2 & _ & _ & _ & D6).
  assert (LMarch : labelled (periodName recordMarch) 2 2025).
  { exists "March", "2025". repeat split; vm_compute; reflexivity. }
  assert (LApril : labelled (periodName recordApril) 3 2025).
  { exists "April", "2025". repeat split; vm_compute; reflexivity. }
  assert (VMarch : validKey (tzOffset sampleEnv) recordMarch)
    by (intros E; vm_compute in E; discriminate E).
  assert (VApril : validKey (tzOffset sampleEnv) recordApril)
    by (intros E; vm_compute in E; discriminate E).
  split; [|split; [|split; [|split; [|split]]]].
  - apply H1; vm_compute; reflexivity.
  - apply (D2 recordApril); vm_compute; reflexivity.
  - apply (H3 recordMarch recordApril 2 2025 3 2025);
      try assumption; try lia.
  - apply (H4 (createdRecord sampleEnv formNoYear) recordApril 3 2025);
      try assumption; try lia.
    + vm_compute. discriminate.
    + vm_compute. exact I.
  - apply H5. vm_compute. reflexivity.
  - apply (D6 recordApril timestamp).
    + vm_compute. reflexivity.
    + unfold sorted_desc. change (st_attendanceRecords formDeleteApril)
        with [recordApril; recordMarch].
      repeat constructor; vm_compute; discriminate.
Defined.

Lemma C9_update_of_unknown_id_witness :
  st_attendanceRecords (saveOrUpdateAttendance_with AppJsx.comparefn sampleEnv formGhost)
  = js_sort AppJsx.comparefn (st_attendanceRecords formGhost)
  /\ st_message (saveOrUpdateAttendance_with AppJsx.comparefn sampleEnv formGhost)
     = Some Msg.updated.
Proof.
  destruct (C9_update_of_unknown_id AppJsx.comparefn sampleEnv formGhost "ghost")
    as (H1 & _ & _ & H4 & _).
  - vm_compute. reflexivity.
  - discriminate.
  - intros r [<-|[<-|[]]]; discriminate.
  - vm_compute. reflexivity.
  - split; [exact H1|exact H4].
Defined.

(** ** The increment ([handlePlusOne]) *)




(** ** Saving and loading the collection *)

Lemma as_integer_inject (z : Z) : as_integer (Some (JNum (inject_Z z))) = Some z.
Proof.
  unfold as_integer. rewrite Qfloor_Z.
  rewrite (proj2 (Qeq_bool_iff _ _) (Qeq_refl (inject_Z z))). reflexivity.
Qed.

Lemma record_roundtrip (r : AttendanceRecord) :
  storable r -> record_of_json (json_of_record r) = Some r.
Proof.
  intros (d & a & Hd & Ha). destruct r as [p t da e ap ts i]. simpl in Hd, Ha. subst.
  unfold json_of_record, record_of_json. cbn [periodName totalWorkingDays daysAttended
    extraHolidays attendancePercentage timestamp id json_of_number prop String.eqb
    Ascii.eqb Bool.eqb as_string as_number as_time].
  rewrite !as_integer_inject. reflexivity.
Qed.

Lemma records_roundtrip (l : list AttendanceRecord) :
  Forall storable l -> records_of_json (map json_of_record l) = Some l.
Proof.
  induction 1 as [|r l Hr _ IH]; [reflexivity|].
  cbn [map records_of_json]. rewrite (record_roundtrip r Hr), IH. reflexivity.
Qed.

(** Reading back what [JSON.stringify] wrote gives the records again. *)
Lemma JSON_roundtrip (l : list AttendanceRecord) :
  Forall storable l -> JSON_parse_slot (Some (JSON_stringify l)) = Parsed l.
Proof.
  intros H. unfold JSON_parse_slot, JSON_stringify.
  rewrite (records_roundtrip l H). reflexivity.
Qed.

Lemma digit_char_is_digit (m : Z) :
  JSString.is_digit (ascii_of_N (Z.to_N (48 + m mod 10))) = true.
Proof.
  pose proof (Z.mod_pos_bound m 10 ltac:(lia)) as Hm.
  unfold JSString.is_digit, JSString.code. cbv zeta.
  rewrite N_ascii_embedding by lia.
  apply andb_true_iff. split; apply N.leb_le; lia.
Qed.

(** The text of a natural number starts with a digit. *)
Lemma digits_fuel_head (fuel : nat) :
  forall m acc, exists c r,
    JSNumber.digits_fuel (S fuel) m acc = String c r /\ JSString.is_digit c = true.
Proof.
  induction fuel as [|fuel IH]; intros m acc.
  - cbn [JSNumber.digits_fuel].
    exists (ascii_of_N (Z.to_N (48 + m mod 10))), acc.
    split; [destruct (m <? 10); reflexivity | apply digit_char_is_digit].
  - change (JSNumber.digits_fuel (S (S fuel)) m acc)
      with (if m <? 10
            then String (ascii_of_N (Z.to_N (48 + m mod 10))) acc
            else JSNumber.digits_fuel (S fuel) (m / 10)
                   (String (ascii_of_N (Z.to_N (48 + m mod 10))) acc)).
    destruct (m <? 10).
    + exists (ascii_of_N (Z.to_N (48 + m mod 10))), acc.
      split; [reflexivity | apply digit_char_is_digit].
    + apply IH.
Qed.

Lemma hundredths_head (n : Z) :
  exists c r, JSNumber.hundredths_to_string n = String c r /\ JSString.is_digit c = true.
Proof.
  unfold JSNumber.hundredths_to_string, JSNumber.nat_digits. cbv zeta.
  destruct (digits_fuel_head (Z.to_nat (Z.log2 (n / 100))) (n / 100) "")
    as (c & r & -> & Hc).
  exists c. eexists. split; [reflexivity | exact Hc].
Qed.

Lemma take_digits_count (s : string) :
  forall acc n v m r, JSNumber.take_digits s acc n = (v, m, r) -> (n <= m)%nat.
Proof.
  induction s as [|c s IH]; intros acc n v m r H; simpl in H.
  - injection H as _ <- _. lia.
  - destruct (JSString.is_digit c).
    + apply IH in H. lia.
    + injection H as _ <- _. lia.
Qed.

(** A text that starts with a digit is read as a finite number. *)
Lemma parseFloat_digit_start (c : ascii) (r : string) :
  JSString.is_digit c = true -> exists v, JSNumber.parseFloat (String c r) = JSNumber.Fin v.
Proof.
  intros Hc. unfold JSNumber.parseFloat.
  cbn [JSString.skip_spaces]. rewrite (digit_not_space c Hc).
  assert (Hsign : match String c r with
                  | String "-" r0 => (true, r0)
                  | String "+" r0 => (false, r0)
                  | _ => (false, String c r)
                  end = (false, String c r)).
  { pose proof (digit_cases c Hc) as C. cbn [In] in C.
    repeat (destruct C as [<-|C]; [reflexivity|]). destruct C. }
  rewrite Hsign.
  assert (Hinf : JSString.strip_prefix "Infinity" (String c r) = None).
  { pose proof (digit_cases c Hc) as C. cbn [In] in C.
    repeat (destruct C as [<-|C]; [reflexivity|]). destruct C. }
  rewrite Hinf.
  cbn [JSNumber.take_digits]. rewrite Hc.
  destruct (JSNumber.take_digits r (0 * 10 + JSString.digit_value c) 1)
    as [[ip ni] r1] eqn:E1.
  apply take_digits_count in E1.
  destruct (match r1 with
            | String "." r0 => JSNumber.take_digits r0 ip 0
            | _ => (ip, 0%nat, r1)
            end) as [[fp nf] r2].
  destruct ni as [|ni]; [lia|].
  cbn [Nat.add]. eexists. reflexivity.
Qed.

Lemma roundedPercentage_finite (total : Z) (a : Q) :
  0 < total -> (0 <= a <= inject_Z total)%Q ->
  exists v, roundedPercentage (JSNumber.Fin a) (JSNumber.of_Z total) = JSNumber.Fin v.
Proof.
  intros Ht Ha. unfold roundedPercentage. cbv zeta.
  destruct (percentage_of_valid total a Ht Ha) as (p & -> & _ & Hp & _).
  rewrite (toFixed2_nonneg p Hp).
  destruct (hundredths_head (JSNumber.nearest_hundredth p)) as (c & r & -> & Hc).
  apply parseFloat_digit_start, Hc.
Qed.

Lemma draftInvalid_false (total : Z) (attended : JSNumber.number) (name : string) :
  draftInvalid (JSNumber.of_Z total) attended name = false ->
  0 < total
  /\ (exists a, attended = JSNumber.Fin a /\ (0 <= a <= inject_Z total)%Q)
  /\ JSString.trim name <> "".
Proof.
  unfold draftInvalid. rewrite !orb_false_iff.
  intros [[[[Ht Hn] Hl] Hg] Hp].
  destruct (checks_passed total attended Ht Hn Hl Hg) as [H1 H2].
  repeat split; try assumption.
  apply String.eqb_neq, Hp.
Qed.

Lemma created_storable (env : Env) (st : AppState) :
  draftInvalid (JSNumber.of_Z (st_totalWorkingDays st))
               (parseFloat_field (st_daysAttended st)) (st_periodName st) = false ->
  storable (createdRecord env st).
Proof.
  intros Hv. destruct (draftInvalid_false _ _ _ Hv) as (Ht & (a & Ea & Ha) & _).
  unfold storable, createdRecord. cbv zeta. cbn [daysAttended attendancePercentage].
  rewrite Ea.
  destruct (roundedPercentage_finite _ a Ht Ha) as (v & Ev).
  exists a, v. split; [reflexivity | exact Ev].
Qed.

Lemma savedList_create (env : Env) (st : AppState) :
  truthy (st_editingRecordId st) = false ->
  savedList env st = createdRecord env st :: st_attendanceRecords st.
Proof.
  intros Ht. unfold savedList, createdRecord, idOrFresh. rewrite Ht.
  unfold truthy in Ht. destruct (st_editingRecordId st) as [s|]; [|reflexivity].
  apply negb_false_iff in Ht. rewrite Ht. reflexivity.
Qed.

Lemma appjsx_load_parsed (env : Env) (st0 : AppState) (l : list AttendanceRecord) :
  JSON_parse_slot (st_localStorage st0) = Parsed l ->
  exists st'', AppJsx.loadEffect env st0 = Some st''
               /\ st_attendanceRecords st'' = l.
Proof.
  intros H. unfold AppJsx.loadEffect. rewrite H.
  eexists. split; [reflexivity|]. destruct l; reflexivity.
Qed.

Lemma readme_load_parsed (env : Env) (st0 : AppState) (l : list AttendanceRecord) :
  JSON_parse_slot (st_localStorage st0) = Parsed l ->
  exists st'', Readme.loadEffect env st0 = Some st''
               /\ st_attendanceRecords st'' = js_sort (Readme.comparefn (tzOffset env)) l.
Proof.
  intros H. unfold Readme.loadEffect. rewrite H. cbv zeta.
  eexists. split; [reflexivity|].
  destruct (js_sort (Readme.comparefn (tzOffset env)) l); reflexivity.
Qed.

Lemma Forall_perm {A : Type} (P : A -> Prop) (l l' : list A) :
  Permutation l l' -> Forall P l -> Forall P l'.
Proof.
  intros Hp H. rewrite Forall_forall in *. intros x Hx.
  apply H. apply (Permutation_in _ (Permutation_sym Hp)), Hx.
Qed.

(** Finite numbers in every record is an invariant of the collection:
    it holds for what the load effect reads and every handler keeps
    it. *)
Lemma record_of_json_storable (j : json_item) (r : AttendanceRecord) :
  record_of_json j = Some r -> storable r.
Proof.
  unfold record_of_json. destruct j as [props|]; [|discriminate].
  destruct (as_string _); [|discriminate].
  destruct (as_integer _); [|discriminate].
  destruct (as_number (prop "daysAttended" props)) as [d|] eqn:Ed; [|discriminate].
  destruct (as_integer _); [|discriminate].
  destruct (as_number (prop "attendancePercentage" props)) as [a|] eqn:Ea;
    [|discriminate].
  destruct (as_time _); [|discriminate].
  destruct (as_string _); [|discriminate].
  intros H. injection H as <-. unfold storable. cbn [daysAttended attendancePercentage].
  unfold as_number in Ed, Ea.
  destruct (prop "daysAttended" props) as [[]|]; try discriminate.
  destruct (prop "attendancePercentage" props) as [[]|]; try discriminate.
  injection Ed as <-. injection Ea as <-. eexists. eexists. split; reflexivity.
Qed.

Lemma records_of_json_storable (items : list json_item) :
  forall l, records_of_json items = Some l -> Forall storable l.
Proof.
  induction items as [|j items IH]; intros l H; simpl in H.
  - injection H as <-. constructor.
  - destruct (record_of_json j) as [r|] eqn:Er; [|discriminate].
    destruct (records_of_json items) as [rs|]; [|discriminate].
    injection H as <-. constructor; [apply (record_of_json_storable j r Er)|].
    apply IH. reflexivity.
Qed.

Lemma parsed_storable (slot : option stored_item) (l : list AttendanceRecord) :
  JSON_parse_slot slot = Parsed l -> Forall storable l.
Proof.
  unfold JSON_parse_slot. destruct slot as [[[items|]| |]|]; try discriminate.
  destruct (records_of_json items) as [rs|] eqn:E; [|discriminate].
  intros H. injection H as <-. apply (records_of_json_storable items rs E).
Qed.

Lemma savedList_storable (env : Env) (st : AppState) :
  draftInvalid (JSNumber.of_Z (st_totalWorkingDays st))
               (parseFloat_field (st_daysAttended st)) (st_periodName st) = false ->
  Forall storable (st_attendanceRecords st) ->
  Forall storable (savedList env st).
Proof.
  intros Hv Hold.
  destruct (draftInvalid_false _ _ _ Hv) as (Ht & (a & Ea & Ha) & _).
  destruct (roundedPercentage_finite _ a Ht Ha) as (v & Ev).
  assert (Hnew : storable
            (mkRecord (JSString.trim (st_periodName st)) (st_totalWorkingDays st)
               (parseFloat_field (st_daysAttended st))
               (parseInt_or_0 (st_extraHolidays st))
               (roundedPercentage (parseFloat_field (st_daysAttended st))
                  (JSNumber.of_Z (st_totalWorkingDays st)))
               (now env) (idOrFresh env st))).
  { unfold storable. cbn [daysAttended attendancePercentage]. rewrite Ea.
    exists a, v. split; [reflexivity|exact Ev]. }
  unfold savedList. cbv zeta. destruct (truthy (st_editingRecordId st)).
  - rewrite Forall_forall in *. intros r Hr. apply in_map_iff in Hr.
    destruct Hr as (r0 & <- & Hr0). destruct (isEditing st r0); [exact Hnew|].
    apply Hold, Hr0.
  - constructor; assumption.
Qed.

Lemma save_keeps_storable (cmp : AttendanceRecord -> AttendanceRecord -> option Z)
    (env : Env) (st : AppState) :
  Forall storable (st_attendanceRecords st) ->
  Forall storable (st_attendanceRecords (saveOrUpdateAttendance_with cmp env st)).
Proof.
  intros Hold.
  destruct (draftInvalid (JSNumber.of_Z (st_totalWorkingDays st))
              (parseFloat_field (st_daysAttended st)) (st_periodName st)) eqn:Hv.
  - unfold saveOrUpdateAttendance_with. rewrite Hv. exact Hold.
  - destruct (save_records cmp env st Hv) as (-> & _).
    apply (Forall_perm _ _ _ (Permutation_sym (js_sort_perm _ _))).
    apply savedList_storable; assumption.
Qed.

Lemma delete_keeps_storable (env : Env) (st : AppState) :
  Forall storable (st_attendanceRecords st) ->
  Forall storable (st_attendanceRecords (AppJsx.confirmDelete env st))
  /\ Forall storable (st_attendanceRecords (Readme.confirmDelete env st)).
Proof.
  intros Hold.
  assert (Hf : forall p, Forall storable (filter p (st_attendanceRecords st))).
  { intros p. rewrite Forall_forall in *. intros r Hr.
    apply filter_In in Hr. apply Hold, Hr. }
  destruct (st_recordToDelete st) as [r|] eqn:Er.
  - destruct (appjsx_delete_records env st r Er) as (-> & _).
    destruct (readme_delete_records env st r Er) as (-> & _).
    split; [apply Hf|].
    apply (Forall_perm _ _ _ (Permutation_sym (js_sort_perm _ _))), Hf.
  - unfold AppJsx.confirmDelete, Readme.confirmDelete. rewrite Er.
    split; exact Hold.
Qed.

Lemma load_gives_storable (env : Env) (st0 st : AppState) :
  Forall storable (st_attendanceRecords st0) ->
  (AppJsx.loadEffect env st0 = Some st -> Forall storable (st_attendanceRecords st))
  /\ (Readme.loadEffect env st0 = Some st -> Forall storable (st_attendanceRecords st)).
Proof.
  intros Hold. unfold AppJsx.loadEffect, Readme.loadEffect.
  destruct (JSON_parse_slot (st_localStorage st0)) as [| |l|] eqn:E.
  - split; intros H; injection H as <-; exact Hold.
  - split; intros H; injection H as <-; exact Hold.
  - pose proof (parsed_storable _ l E) as Hl. split.
    + intros H. injection H as <-. destruct l; exact Hl.
    + cbv zeta. intros H. injection H as <-.
      assert (Hs : Forall storable (js_sort (Readme.comparefn (tzOffset env)) l))
        by (apply (Forall_perm _ _ _ (Permutation_sym (js_sort_perm _ _))), Hl).
      destruct (js_sort (Readme.comparefn (tzOffset env)) l); exact Hs.
  - split; discriminate.
Qed.

Lemma plusOne_keeps_storable (env : Env) (st : AppState) :
  Forall storable (st_attendanceRecords st) ->
  Forall storable (st_attendanceRecords (Readme.handlePlusOne env st)).
Proof.
  intros Hold. unfold Readme.handlePlusOne. cbv zeta.
  set (new := JSNumber.add (Readme.orZero (parseFloat_field (st_daysAttended st)))
                           (JSNumber.of_Z 1)).
  destruct (JSNumber.gt new (JSNumber.of_Z (st_totalWorkingDays st))); [exact Hold|].
  destruct (draftInvalid (JSNumber.of_Z (st_totalWorkingDays st)) new
              (JSString.trim (st_periodName st))) eqn:Hv; [exact Hold|].
  destruct (draftInvalid_false _ _ _ Hv) as (Ht & (a & Ea & Ha) & _).
  destruct (roundedPercentage_finite _ a Ht Ha) as (v & Ev).
  assert (Hnew : storable
            (mkRecord (JSString.trim (st_periodName st)) (st_totalWorkingDays st) new
               (parseInt_or_0 (st_extraHolidays st))
               (roundedPercentage new (JSNumber.of_Z (st_totalWorkingDays st)))
               (now env) (idOrFresh env st))).
  { unfold storable. cbn [daysAttended attendancePercentage]. rewrite Ea.
    exists a, v. split; [reflexivity|exact Ev]. }
  destruct (truthy (st_editingRecordId st));
    cbn [run app fold_left setItem setAttendanceRecords st_attendanceRecords];
    apply (Forall_perm _ _ _ (Permutation_sym (js_sort_perm _ _))).
  - rewrite Forall_forall in *. intros r Hr. apply in_map_iff in Hr.
    destruct Hr as (r0 & <- & Hr0). destruct (isEditing st r0); [exact Hnew|].
    apply Hold, Hr0.
  - constructor; assumption.
Qed.

(** C8: a create with a valid form, followed by a mount that reads the
    storage back, gives a collection that holds the created record as
    it was made, with its id and every field; this holds for both
    variants, whenever the numbers of the older records are finite. *)
Theorem C8_create_save_load (env env' : Env) (st st0 : AppState) :
  truthy (st_editingRecordId st) = false ->
  draftInvalid (JSNumber.of_Z (st_totalWorkingDays st))
               (parseFloat_field (st_daysAttended st)) (st_periodName st) = false ->
  Forall storable (st_attendanceRecords st) ->
  (let st' := AppJsx.saveOrUpdateAttendance env st in
   In (createdRecord env st) (st_attendanceRecords st')
   /\ Forall storable (st_attendanceRecords st')
   /\ st_localStorage st' = Some (JSON_stringify (st_attendanceRecords st'))
   /\ exists st'',
        AppJsx.loadEffect env' (setItem (st_localStorage st') st0) = Some st''
        /\ st_attendanceRecords st'' = st_attendanceRecords st'
        /\ In (createdRecord env st) (st_attendanceRecords st''))
  /\ (let st' := Readme.saveOrUpdateAttendance env st in
      In (createdRecord env st) (st_attendanceRecords st')
      /\ Forall storable (st_attendanceRecords st')
      /\ st_localStorage st' = Some (JSON_stringify (st_attendanceRecords st'))
      /\ exists st'',
           Readme.loadEffect env' (setItem (st_localStorage st') st0) = Some st''
           /\ Permutation (st_attendanceRecords st') (st_attendanceRecords st'')
           /\ In (createdRecord env st) (st_attendanceRecords st'')).
Proof.
  intros Hnew Hv Hold. cbv zeta.
  assert (Hall : Forall storable (savedList env st)).
  { rewrite (savedList_create env st Hnew). constructor; [|exact Hold].
    apply created_storable, Hv. }
  assert (Hin : forall cmp, In (createdRecord env st) (js_sort cmp (savedList env st))).
  { intros cmp. apply js_sort_In. rewrite (savedList_create env st Hnew).
    left. reflexivity. }
  split.
  - destruct (save_records AppJsx.comparefn env st Hv) as (Hrec & Hsto & _).
    unfold AppJsx.saveOrUpdateAttendance. rewrite Hrec in *.
    split; [apply Hin|].
    split; [apply (Forall_perm _ _ _ (Permutation_sym (js_sort_perm _ _)) Hall)|].
    split; [exact Hsto|].
    destruct (appjsx_load_parsed env'
                (setItem (st_localStorage (saveOrUpdateAttendance_with
                                             AppJsx.comparefn env st)) st0)
                (js_sort AppJsx.comparefn (savedList env st)))
      as (st'' & Hload & Hl).
    { cbn [setItem st_localStorage]. rewrite Hsto. apply JSON_roundtrip.
      apply (Forall_perm _ _ _ (Permutation_sym (js_sort_perm _ _)) Hall). }
    exists st''. rewrite Hl. repeat split; [exact Hload | apply Hin].
  - destruct (save_records (Readme.comparefn (tzOffset env)) env st Hv)
      as (Hrec & Hsto & _).
    unfold Readme.saveOrUpdateAttendance. rewrite Hrec in *.
    split; [apply Hin|].
    split; [apply (Forall_perm _ _ _ (Permutation_sym (js_sort_perm _ _)) Hall)|].
    split; [exact Hsto|].
    destruct (readme_load_parsed env'
                (setItem (st_localStorage (saveOrUpdateAttendance_with
                                             (Readme.comparefn (tzOffset env)) env st)) st0)
                (js_sort (Readme.comparefn (tzOffset env)) (savedList env st)))
      as (st'' & Hload & Hl).
    { cbn [setItem st_localStorage]. rewrite Hsto. apply JSON_roundtrip.
      apply (Forall_perm _ _ _ (Permutation_sym (js_sort_perm _ _)) Hall). }
    exists st''. rewrite Hl. repeat split.
    + exact Hload.
    + apply Permutation_sym, js_sort_perm.
    + apply js_sort_In, Hin.
Qed.

Lemma C8_create_save_load_witness :
  In (createdRecord sampleEnv formJanuary)
     (st_attendanceRecords (AppJsx.saveOrUpdateAttendance sampleEnv formJanuary))
  /\ exists st'',
       AppJsx.loadEffect sampleEnv
         (setItem (st_localStorage (AppJsx.saveOrUpdateAttendance sampleEnv formJanuary))
                  initialState) = Some st''
       /\ st_attendanceRecords st''
          = st_attendanceRecords (AppJsx.saveOrUpdateAttendance sampleEnv formJanuary)
       /\ In (createdRecord sampleEnv formJanuary) (st_attendanceRecords st'').
Proof.
  destruct (C8_create_save_load sampleEnv sampleEnv formJanuary initialState)
    as [(H1 & _ & _ & H3) _].
  - vm_compute. reflexivity.
  - vm_compute. reflexivity.
  - repeat constructor; eexists; eexists; split; reflexivity.
  - split; [exact H1 | exact H3].
Defined.

(** ** The yearly summary *)

Lemma newSet_In (l : list Z) (x : Z) : In x (newSet l) <-> In x l.
Proof.
  induction l as [|y l IH]; simpl; [tauto|].
  rewrite filter_In, IH.
  destruct (Z.eq_dec y x) as [->|Hne]; [tauto|].
  split.
  - intros [H|[H _]]; tauto.
  - intros [H|H]; [tauto|]. right. split; [exact H|].
    apply negb_true_iff, Z.eqb_neq. congruence.
Qed.

Lemma newSet_NoDup (l : list Z) : NoDup (newSet l).
Proof.
  induction l as [|y l IH]; simpl; [constructor|].
  constructor.
  - rewrite filter_In. intros [_ H].
    apply negb_true_iff, Z.eqb_neq in H. congruence.
  - apply NoDup_filter, IH.
Qed.




Lemma years_of_summary (tz : Z) (records : list AttendanceRecord) :
  map year (calculateYearlySummary tz records)
  = js_sort descending
      (newSet (map (fun record => fullYearOf tz (timestamp record)) records)).
Proof.
  unfold calculateYearlySummary. cbv zeta. rewrite map_map.
  apply map_unchanged. intros; reflexivity.
Qed.

Lemma fold_left_sumZ {A : Type} (f : A -> Z) (l : list A) :
  forall acc, fold_left (fun sum x => sum + f x) l acc = acc + sumZ (map f l).
Proof.
  induction l as [|x l IH]; intros acc; simpl; [lia|]. rewrite IH. lia.
Qed.





(** ** The dialogue, the inputs and the effect on mount *)

Lemma parseInt_or_0_of_Z (n : Z) : parseInt_or_0 (FNumber (JSNumber.of_Z n)) = n.
Proof.
  unfold parseInt_or_0, parseInt_field, JSNumber.of_Z, inject_Z.
  cbn [Qnum Qden]. rewrite Z.quot_1_r. reflexivity.
Qed.



Ltac run_cells :=
  cbn [run fold_left app
       setPeriodName setTotalWorkingDays setDaysAttended setExtraHolidays
       setAttendancePercentage setAttendanceRecords setIsLoading setMessage
       setMessageType setShowDeleteConfirm setRecordToDelete setEditingRecordId
       setShowAttendanceDisplayInButton setShowPlusOneTick setIsPlusOneFlashing
       setItem
       st_periodName st_totalWorkingDays st_daysAttended st_extraHolidays
       st_attendancePercentage st_attendanceRecords st_isLoading st_message
       st_messageType st_showDeleteConfirm st_recordToDelete st_editingRecordId
       st_showAttendanceDisplayInButton st_showPlusOneTick st_isPlusOneFlashing
       st_localStorage].

Lemma kept_In (r : AttendanceRecord) (l : list AttendanceRecord) (x : AttendanceRecord) :
  In x (filter (fun rec => negb (String.eqb (id rec) (id r))) l)
  <-> In x l /\ id x <> id r.
Proof.
  rewrite filter_In, negb_true_iff, String.eqb_neq. reflexivity.
Qed.

(** X2: the delete dialogue. After [handleDeleteClick], [cancelDelete]
    closes the dialogue and leaves the collection and the storage as
    they were. [confirmDelete] removes every record that has the id of
    the chosen one and no other record, writes the result to the
    storage and closes the dialogue; in [src/App.jsx] the others keep
    their order, in the README variant they are sorted again. When the
    chosen record is not the one being edited the form is left alone
    and the message is "Record deleted successfully!"; when it is, the
    form goes back to a new record for the current month, and that
    also clears the message. *)
Theorem delete_dialogue (v : variant) (env : Env) (st : AppState) (r : AttendanceRecord) :
  let asked := handleDeleteClick r st in
  let others :=
    filter (fun rec => negb (String.eqb (id rec) (id r))) (st_attendanceRecords st) in
  let st' := confirmDelete_of v env asked in
  (st_showDeleteConfirm asked = true /\ st_recordToDelete asked = Some r
   /\ st_attendanceRecords (cancelDelete asked) = st_attendanceRecords st
   /\ st_localStorage (cancelDelete asked) = st_localStorage st
   /\ st_showDeleteConfirm (cancelDelete asked) = false
   /\ st_recordToDelete (cancelDelete asked) = None)
  /\ st_attendanceRecords st' = reordered v env others
  /\ (forall x, In x (st_attendanceRecords st')
                 <-> In x (st_attendanceRecords st) /\ id x <> id r)
  /\ st_localStorage st' = Some (JSON_stringify (st_attendanceRecords st'))
  /\ st_showDeleteConfirm st' = false
  /\ st_recordToDelete st' = None
  /\ st_totalWorkingDays st' = st_totalWorkingDays st
  /\ (isEditing st r = false ->
        st_message st' = Some Msg.deleted
        /\ st_messageType st' = Some success
        /\ st_editingRecordId st' = st_editingRecordId st
        /\ st_periodName st' = st_periodName st
        /\ st_daysAttended st' = st_daysAttended st
        /\ st_extraHolidays st' = st_extraHolidays st
        /\ st_attendancePercentage st' = st_attendancePercentage st)
  /\ (isEditing st r = true ->
        st_message st' = None
        /\ st_messageType st' = None
        /\ st_editingRecordId st' = None
        /\ st_periodName st' = todayPeriod env
        /\ st_daysAttended st' = FText ""
        /\ st_extraHolidays st' = FText ""
        /\ st_attendancePercentage st' = None).
Proof.
  cbv zeta.
  split; [unfold cancelDelete, handleDeleteClick; run_cells; repeat split|].
  destruct v; unfold confirmDelete_of, reordered.
  - unfold AppJsx.confirmDelete, handleDeleteClick, isEditing. run_cells.
    destruct (st_editingRecordId st) as [s|] eqn:E; [destruct (String.eqb (id r) s)|];
      unfold handleBackToMain; run_cells; rewrite ?E;
      (split; [reflexivity|]);
      (split; [intros x; apply kept_In|]);
      repeat split; intros; try discriminate; reflexivity.
  - unfold Readme.confirmDelete, handleDeleteClick, isEditing. run_cells.
    destruct (st_editingRecordId st) as [s|] eqn:E; [destruct (String.eqb (id r) s)|];
      unfold handleBackToMain; run_cells; rewrite ?E;
      (split; [reflexivity|]);
      (split; [intros x; rewrite js_sort_In; apply kept_In|]);
      repeat split; intros; try discriminate; reflexivity.
Qed.

(** X3: the effect on mount, case by case. With nothing under the key, or
    the empty text, the form is set to the current month and nothing
    else changes. With a text that [JSON.parse] rejects the error
    message is shown and the collection stays as it was. With an array
    of records the collection is that array ([src/App.jsx]) or that
    array sorted by period (README variant), an empty array leaves the
    form on the current month, and otherwise the first record of the
    collection is opened for editing, so that the period of the form is
    that record's and not the current month. In every case the effect
    ends the loading state and does not write to the storage. *)
Theorem load_edge_cases (v : variant) (env : Env) (st0 : AppState) :
  (JSON_parse_slot (st_localStorage st0) = NothingStored ->
     loadEffect_of v env st0
     = Some (setIsLoading false (setPeriodName (todayPeriod env) st0)))
  /\ (st_localStorage st0 = None \/ st_localStorage st0 = Some TextEmpty ->
        JSON_parse_slot (st_localStorage st0) = NothingStored)
  /\ (st_localStorage st0 = Some TextMalformed ->
        loadEffect_of v env st0
        = Some (setIsLoading false
                  (setMessageType (Some error)
                     (setMessage (Some Msg.loadFailed)
                        (setPeriodName (todayPeriod env) st0)))))
  /\ (forall l, JSON_parse_slot (st_localStorage st0) = Parsed l ->
        exists st, loadEffect_of v env st0 = Some st
                   /\ st_attendanceRecords st = reordered v env l
                   /\ Permutation (st_attendanceRecords st) l
                   /\ (l = [] ->
                         st = setIsLoading false
                                (setAttendanceRecords []
                                   (setPeriodName (todayPeriod env) st0)))
                   /\ (forall r rest, reordered v env l = r :: rest ->
                         In r l /\ opened r st))
  /\ (forall st, loadEffect_of v env st0 = Some st ->
        st_isLoading st = false
        /\ st_localStorage st = st_localStorage st0
        /\ st_totalWorkingDays st = st_totalWorkingDays st0
        /\ st_showDeleteConfirm st = st_showDeleteConfirm st0
        /\ st_recordToDelete st = st_recordToDelete st0).
Proof.
  assert (Hload : loadEffect_of v env st0 =
    match JSON_parse_slot (st_localStorage st0) with
    | NothingStored =>
        Some (run [setPeriodName (todayPeriod env); setIsLoading false] st0)
    | ParseFailed =>
        Some (run [setPeriodName (todayPeriod env);
                   setMessage (Some Msg.loadFailed);
                   setMessageType (Some error);
                   setIsLoading false] st0)
    | Parsed parsedRecords =>
        Some (run [setPeriodName (todayPeriod env);
                   setAttendanceRecords (reordered v env parsedRecords);
                   match reordered v env parsedRecords with
                   | lastRecord :: _ => handleEditRecord lastRecord
                   | [] => fun s => s
                   end;
                   setIsLoading false] st0)
    | OutsideSchema => None
    end).
  { destruct v; reflexivity. }
  assert (Hperm : forall l, Permutation (reordered v env l) l).
  { intros l. destruct v; [reflexivity|apply js_sort_perm]. }
  rewrite Hload. clear Hload. generalize dependent (reordered v env). intros sorted Hperm.
  split; [intros ->; reflexivity|].
  split; [intros [->| ->]; reflexivity|].
  split; [intros ->; reflexivity|].
  split.
  - intros l ->. eexists. split; [reflexivity|].
    split; [destruct (sorted l); unfold handleEditRecord; run_cells; reflexivity|].
    split; [destruct (sorted l) eqn:E; unfold handleEditRecord; run_cells;
            rewrite <- E; apply Hperm|].
    split.
    + intros ->. pose proof (Permutation_sym (Hperm [])) as P. apply Permutation_nil in P.
      rewrite P. reflexivity.
    + intros r rest E. rewrite E. split.
      * apply (Permutation_in _ (Hperm l)). rewrite E. left. reflexivity.
      * unfold opened, handleEditRecord. run_cells. repeat split.
  - intros st.
    destruct (JSON_parse_slot (st_localStorage st0)) as [| |l|];
      intros H; try discriminate H; injection H as <-.
    + run_cells. repeat split.
    + run_cells. repeat split.
    + destruct (sorted l); unfold handleEditRecord; run_cells; repeat split.
Qed.

Lemma reordered_perm (v : variant) (env : Env) (l : list AttendanceRecord) :
  Permutation (reordered v env l) l.
Proof. destruct v; [reflexivity|apply js_sort_perm]. Qed.


(** ** What a record holds *)

Lemma digit_char_value (m : Z) :
  JSString.digit_value (ascii_of_N (Z.to_N (48 + m mod 10))) = m mod 10.
Proof.
  pose proof (Z.mod_pos_bound m 10 ltac:(lia)) as Hm.
  unfold JSString.digit_value, JSString.code.
  rewrite N_ascii_embedding by lia. lia.
Qed.

Lemma digits_fuel_app (fuel : nat) :
  forall n acc r,
  JSNumber.digits_fuel fuel n acc ++ r = JSNumber.digits_fuel fuel n (acc ++ r).
Proof.
  induction fuel as [|fuel IH]; intros n acc r; [reflexivity|].
  cbn [JSNumber.digits_fuel]. destruct (n <? 10); [reflexivity|].
  rewrite IH. reflexivity.
Qed.

(** Reading back the digits that [digits_fuel] writes. *)
Lemma take_digits_fuel (fuel : nat) :
  forall n acc a c,
  0 <= n < 2 ^ Z.of_nat (S fuel) ->
  exists k : nat,
    JSNumber.take_digits (JSNumber.digits_fuel (S fuel) n acc) a c
    = JSNumber.take_digits acc (a * 10 ^ Z.of_nat k + n) (c + k)%nat.
Proof.
  induction fuel as [|fuel IH]; intros n acc a c Hn.
  - change (2 ^ Z.of_nat 1) with 2 in Hn.
    exists 1%nat.
    assert (E : JSNumber.digits_fuel 1 n acc
                = String (ascii_of_N (Z.to_N (48 + n mod 10))) acc).
    { cbn [JSNumber.digits_fuel]. destruct (n <? 10); reflexivity. }
    rewrite E. cbn [JSNumber.take_digits]. rewrite digit_char_is_digit, digit_char_value.
    rewrite Z.mod_small by lia. change (10 ^ Z.of_nat 1) with 10.
    f_equal. lia.
  - change (JSNumber.digits_fuel (S (S fuel)) n acc)
      with (if n <? 10
            then String (ascii_of_N (Z.to_N (48 + n mod 10))) acc
            else JSNumber.digits_fuel (S fuel) (n / 10)
                   (String (ascii_of_N (Z.to_N (48 + n mod 10))) acc)).
    destruct (Z.ltb_spec n 10) as [Hlt|Hge].
    + exists 1%nat. cbn [JSNumber.take_digits].
      rewrite digit_char_is_digit, digit_char_value.
      rewrite Z.mod_small by lia. change (10 ^ Z.of_nat 1) with 10.
      f_equal. lia.
    + assert (Hdiv : 0 <= n / 10 < 2 ^ Z.of_nat (S fuel)).
      { split; [apply Z.div_pos; lia|].
        apply Z.div_lt_upper_bound; [lia|].
        replace (Z.of_nat (S (S fuel))) with (Z.of_nat (S fuel) + 1) in Hn by lia.
        rewrite Z.pow_add_r in Hn by lia.
        assert (0 < 2 ^ Z.of_nat (S fuel)) by (apply Z.pow_pos_nonneg; lia).
        lia. }
      destruct (IH (n / 10) (String (ascii_of_N (Z.to_N (48 + n mod 10))) acc) a c Hdiv)
        as (k & Ek).
      exists (S k). rewrite Ek. cbn [JSNumber.take_digits].
      rewrite digit_char_is_digit, digit_char_value.
      replace (Z.of_nat (S k)) with (Z.of_nat k + 1) by lia.
      rewrite Z.pow_add_r by lia.
      f_equal; [|lia].
      pose proof (Z.div_mod n 10 ltac:(lia)). lia.
Qed.

Lemma take_digits_nat_digits (n : Z) (rest : string) (a : Z) (c : nat) :
  0 <= n ->
  exists k : nat,
    JSNumber.take_digits (JSNumber.nat_digits n ++ rest) a c
    = JSNumber.take_digits rest (a * 10 ^ Z.of_nat k + n) (c + k)%nat.
Proof.
  intros Hn. unfold JSNumber.nat_digits. rewrite digits_fuel_app.
  apply take_digits_fuel. split; [exact Hn|].
  destruct (Z.eq_dec n 0) as [->|Hne].
  - apply Z.pow_pos_nonneg; lia.
  - pose proof (Z.log2_spec n ltac:(lia)) as [_ H].
    pose proof (Z.log2_nonneg n).
    replace (Z.of_nat (S (Z.to_nat (Z.log2 n)))) with (Z.succ (Z.log2 n)) by lia.
    exact H.
Qed.

Lemma two_decimals_below_100 : forallb two_decimals_ok (Zrange 0 100) = true.
Proof. vm_compute. reflexivity. Qed.

Lemma two_decimals_digits (frac : Z) :
  0 <= frac < 100 ->
  exists a b, two_decimals frac = String a (String b "")
              /\ JSString.is_digit a = true /\ JSString.is_digit b = true
              /\ JSString.digit_value a * 10 + JSString.digit_value b = frac.
Proof.
  intros H.
  pose proof (forallb_Zrange _ _ _ two_decimals_below_100 frac ltac:(lia)) as E.
  unfold two_decimals_ok in E.
  destruct (two_decimals frac) as [|a [|b [|? ?]]]; try discriminate E.
  rewrite !andb_true_iff in E. destruct E as [[Ha Hb] Hv].
  exists a, b. repeat split; try assumption. apply Z.eqb_eq, Hv.
Qed.

Lemma take_digits_dot (r : string) (a : Z) (c : nat) :
  JSNumber.take_digits (String "." r) a c = (a, c, String "." r).
Proof. reflexivity. Qed.

Lemma take_digits_two (a b : ascii) (ip : Z) :
  JSString.is_digit a = true -> JSString.is_digit b = true ->
  JSNumber.take_digits (String a (String b "")) ip 0
  = ((ip * 10 + JSString.digit_value a) * 10 + JSString.digit_value b, 2%nat, "").
Proof. intros Ha Hb. cbn [JSNumber.take_digits]. rewrite Ha, Hb. reflexivity. Qed.

(** [parseFloat] reads the text of [n / 100] back as that number. *)
Lemma parseFloat_hundredths (n : Z) :
  0 <= n ->
  JSNumber.parseFloat (JSNumber.hundredths_to_string n) = JSNumber.Fin (Qred (n # 100)).
Proof.
  intros Hn.
  destruct (hundredths_head n) as (c & r & Ehead & Hc).
  unfold JSNumber.parseFloat. rewrite Ehead.
  cbn [JSString.skip_spaces]. rewrite (digit_not_space c Hc).
  assert (Hsign : match String c r with
                  | String "-" r0 => (true, r0)
                  | String "+" r0 => (false, r0)
                  | _ => (false, String c r)
                  end = (false, String c r)).
  { pose proof (digit_cases c Hc) as C. cbn [In] in C.
    repeat (destruct C as [<-|C]; [reflexivity|]). destruct C. }
  rewrite Hsign.
  assert (Hinf : JSString.strip_prefix "Infinity" (String c r) = None).
  { pose proof (digit_cases c Hc) as C. cbn [In] in C.
    repeat (destruct C as [<-|C]; [reflexivity|]). destruct C. }
  rewrite Hinf. rewrite <- Ehead. clear Ehead Hsign Hinf Hc c r.
  unfold JSNumber.hundredths_to_string. cbv zeta.
  fold (two_decimals (n mod 100)).
  assert (Hq : 0 <= n / 100) by (apply Z.div_pos; lia).
  destruct (take_digits_nat_digits (n / 100) ("." ++ two_decimals (n mod 100)) 0 0 Hq)
    as (k & Ek).
  rewrite Ek. clear Ek.
  destruct (two_decimals_digits (n mod 100) (Z.mod_pos_bound n 100 ltac:(lia)))
    as (a & b & E2 & Ha & Hb & Hv).
  rewrite E2.
  change ("." ++ String a (String b "")) with (String "." (String a (String b ""))).
  rewrite take_digits_dot, (take_digits_two a b _ Ha Hb).
  destruct (0 + k + 2)%nat eqn:Ecount; [lia|].
  cbn [JSNumber.take_exponent]. f_equal.
  apply Qred_complete.
  change (0 - Z.of_nat 2) with (-2).
  change (JSNumber.pow10 (-2)) with (1 # 100)%Q.
  unfold Qeq, inject_Z, Qmult. cbn [Qnum Qden].
  pose proof (Z.div_mod n 100 ltac:(lia)). lia.
Qed.

Lemma nearest_hundredth_bounds (p : Q) :
  (0 <= p <= 100)%Q -> 0 <= JSNumber.nearest_hundredth p <= 10000.
Proof.
  intros [H0 H1]. unfold JSNumber.nearest_hundredth.
  destruct p as [num den]. unfold Qle in H0, H1. cbn [Qnum Qden] in *.
  split.
  - apply Z.div_pos; lia.
  - apply Z.lt_succ_r. apply Z.div_lt_upper_bound; lia.
Qed.

(** The percentage that a record gets: attended / total * 100 rounded
    to two decimals, which is also the number that the text shown
    writes. *)
Lemma roundedPercentage_value (total : Z) (a : Q) :
  0 < total -> (0 <= a <= inject_Z total)%Q ->
  exists n,
    roundedPercentage (JSNumber.Fin a) (JSNumber.of_Z total)
    = JSNumber.Fin (Qred (n # 100))
    /\ rounds_to (a / inject_Z total * 100) n
    /\ 0 <= n <= 10000
    /\ JSNumber.toFixed2
         (JSNumber.mul (JSNumber.div (JSNumber.Fin a) (JSNumber.of_Z total))
                       (JSNumber.of_Z 100))
       = JSNumber.hundredths_to_string n.
Proof.
  intros Ht Ha. unfold roundedPercentage. cbv zeta.
  destruct (percentage_of_valid total a Ht Ha) as (p & -> & Ep & Hp).
  exists (JSNumber.nearest_hundredth p).
  pose proof (nearest_hundredth_bounds p Hp) as Hb.
  rewrite (toFixed2_nonneg p (proj1 Hp)).
  split; [apply parseFloat_hundredths; lia|].
  split; [apply (rounds_to_Qeq p _ _ Ep), nearest_hundredth_rounds|].
  split; [exact Hb|reflexivity].
Qed.

(** *** [trim] *)

Lemma rev_string_app (a b : string) :
  JSString.rev_string (a ++ b) = JSString.rev_string b ++ JSString.rev_string a.
Proof.
  induction a as [|c a IH]; cbn [JSString.rev_string append].
  - rewrite string_app_nil_r. reflexivity.
  - rewrite IH, string_app_assoc. reflexivity.
Qed.

Lemma rev_string_involutive (s : string) :
  JSString.rev_string (JSString.rev_string s) = s.
Proof.
  induction s as [|c s IH]; [reflexivity|].
  cbn [JSString.rev_string]. rewrite rev_string_app, IH. reflexivity.
Qed.

Lemma skip_spaces_fixed (s : string) :
  no_space_ahead s -> JSString.skip_spaces s = s.
Proof.
  destruct s as [|c s]; [reflexivity|]. cbn [no_space_ahead JSString.skip_spaces].
  intros ->. reflexivity.
Qed.

Lemma skip_spaces_ahead (s : string) : no_space_ahead (JSString.skip_spaces s).
Proof.
  induction s as [|c s IH]; [exact I|].
  cbn [JSString.skip_spaces]. destruct (JSString.is_space c) eqn:E; [exact IH|exact E].
Qed.

(** Dropping white space at the front of [x ++ [c]] leaves a text that
    still ends with [c], when [c] is no white space. *)
Lemma skip_spaces_snoc (x : string) (c : ascii) :
  JSString.is_space c = false ->
  exists y, JSString.skip_spaces (x ++ String c "") = y ++ String c "".
Proof.
  intros Hc. induction x as [|d x IH]; cbn [append JSString.skip_spaces].
  - rewrite Hc. exists "". reflexivity.
  - destruct (JSString.is_space d); [exact IH|].
    exists (String d x). reflexivity.
Qed.

Lemma trimEnd_ahead (s : string) :
  no_space_ahead s -> no_space_ahead (JSString.trimEnd s).
Proof.
  destruct s as [|c s]; [intros _; exact I|].
  cbn [no_space_ahead]. intros Hc. unfold JSString.trimEnd.
  cbn [JSString.rev_string].
  destruct (skip_spaces_snoc (JSString.rev_string s) c Hc) as (y & ->).
  rewrite rev_string_app. cbn [JSString.rev_string append]. exact Hc.
Qed.

Lemma trimEnd_idempotent (s : string) :
  JSString.trimEnd (JSString.trimEnd s) = JSString.trimEnd s.
Proof.
  unfold JSString.trimEnd. rewrite rev_string_involutive.
  rewrite (skip_spaces_fixed _ (skip_spaces_ahead _)). reflexivity.
Qed.

(** A trimmed text is not changed by [trim]. *)
Lemma trim_idempotent (s : string) : JSString.trim (JSString.trim s) = JSString.trim s.
Proof.
  unfold JSString.trim.
  rewrite (skip_spaces_fixed (JSString.trimEnd (JSString.skip_spaces s))).
  - apply trimEnd_idempotent.
  - apply trimEnd_ahead, skip_spaces_ahead.
Qed.

(** *** What the handlers that write do to the collection *)

Lemma savedList_placed (env : Env) (st : AppState) :
  savedList env st = placed st (draftRecord env st).
Proof. reflexivity. Qed.

(** [handlePlusOne] either leaves the collection and the storage as
    they are, or passes both of its checks and stores the sorted list
    with its record in place. *)
Lemma plusOne_cases (env : Env) (st : AppState) :
  let st' := Readme.handlePlusOne env st in
  (st_attendanceRecords st' = st_attendanceRecords st
   /\ st_localStorage st' = st_localStorage st
   /\ st_messageType st' = Some error)
  \/ (JSNumber.gt (plusOneDays st) (JSNumber.of_Z (st_totalWorkingDays st)) = false
      /\ draftInvalid (JSNumber.of_Z (st_totalWorkingDays st)) (plusOneDays st)
                      (JSString.trim (st_periodName st)) = false
      /\ st_attendanceRecords st'
         = js_sort (Readme.comparefn (tzOffset env)) (placed st (plusOneRecord env st))
      /\ st_localStorage st' = Some (JSON_stringify (st_attendanceRecords st'))
      /\ st_messageType st' = Some success
      /\ st_message st'
         = Some (if truthy (st_editingRecordId st)
                 then Msg.attendanceUpdated else Msg.attendanceSaved)
      /\ st_daysAttended st' = FNumber (plusOneDays st)).
Proof.
  cbv zeta. unfold Readme.handlePlusOne. cbv zeta. fold (plusOneDays st).
  destruct (JSNumber.gt (plusOneDays st) (JSNumber.of_Z (st_totalWorkingDays st)));
    [left; repeat split|].
  destruct (draftInvalid (JSNumber.of_Z (st_totalWorkingDays st)) (plusOneDays st)
              (JSString.trim (st_periodName st))); [left; repeat split|].
  right. fold (plusOneRecord env st). unfold placed.
  destruct (truthy (st_editingRecordId st)); repeat split.
Qed.

Lemma placed_Forall (P : AttendanceRecord -> Prop) (st : AppState) (new : AttendanceRecord) :
  P new -> Forall P (st_attendanceRecords st) -> Forall P (placed st new).
Proof.
  intros Hnew Hold. unfold placed. destruct (truthy (st_editingRecordId st)).
  - rewrite Forall_forall in *. intros r Hr. apply in_map_iff in Hr.
    destruct Hr as (r0 & <- & Hr0). destruct (isEditing st r0); [exact Hnew|].
    apply Hold, Hr0.
  - constructor; assumption.
Qed.

Lemma js_sort_Forall {A : Type} (cmp : A -> A -> option Z) (P : A -> Prop) (l : list A) :
  Forall P l -> Forall P (js_sort cmp l).
Proof. apply Forall_perm, Permutation_sym, js_sort_perm. Qed.

(** A property of records that the new record has whenever the form
    is valid is kept by every handler that writes the collection. *)
Lemma writers_keep (P : AttendanceRecord -> Prop) (v : variant) (env : Env) (st : AppState) :
  (forall attended name,
     draftInvalid (JSNumber.of_Z (st_totalWorkingDays st)) attended name = false ->
     P (mkRecord (JSString.trim name) (st_totalWorkingDays st) attended
                 (parseInt_or_0 (st_extraHolidays st))
                 (roundedPercentage attended (JSNumber.of_Z (st_totalWorkingDays st)))
                 (now env) (idOrFresh env st))) ->
  Forall P (st_attendanceRecords st) ->
  Forall P (st_attendanceRecords (saveOrUpdateAttendance_of v env st))
  /\ Forall P (st_attendanceRecords (confirmDelete_of v env st))
  /\ Forall P (st_attendanceRecords (Readme.handlePlusOne env st)).
Proof.
  intros Hnew Hold. split; [|split].
  - assert (H : forall cmp,
              Forall P (st_attendanceRecords (saveOrUpdateAttendance_with cmp env st))).
    { intros cmp.
      destruct (draftInvalid (JSNumber.of_Z (st_totalWorkingDays st))
                  (parseFloat_field (st_daysAttended st)) (st_periodName st)) eqn:Hv.
      - unfold saveOrUpdateAttendance_with. rewrite Hv. exact Hold.
      - destruct (save_records cmp env st Hv) as (-> & _).
        apply js_sort_Forall. rewrite savedList_placed.
        apply placed_Forall; [|exact Hold]. apply (Hnew _ _ Hv). }
    destruct v; apply H.
  - assert (Hf : forall p, Forall P (filter p (st_attendanceRecords st))).
    { intros p. rewrite Forall_forall in *. intros r Hr.
      apply filter_In in Hr. apply Hold, Hr. }
    destruct (st_recordToDelete st) as [r|] eqn:Er.
    + destruct v; cbn [confirmDelete_of].
      * destruct (appjsx_delete_records env st r Er) as (-> & _). apply Hf.
      * destruct (readme_delete_records env st r Er) as (-> & _).
        apply js_sort_Forall, Hf.
    + destruct v; cbn [confirmDelete_of];
        unfold AppJsx.confirmDelete, Readme.confirmDelete; rewrite Er; exact Hold.
  - destruct (plusOne_cases env st) as [(-> & _)|(_ & Hv & -> & _)]; [exact Hold|].
    apply js_sort_Forall, placed_Forall; [|exact Hold].
    unfold plusOneRecord. rewrite <- (trim_idempotent (st_periodName st)).
    apply (Hnew _ _ Hv).
Qed.

Lemma draft_consistent (total : Z) (attended : JSNumber.number) (name : string)
    (k t : Z) (i : string) :
  draftInvalid (JSNumber.of_Z total) attended name = false ->
  consistent (mkRecord (JSString.trim name) total attended k
                       (roundedPercentage attended (JSNumber.of_Z total)) t i).
Proof.
  intros Hv. destruct (draftInvalid_false _ _ _ Hv) as (Ht & (a & -> & Ha) & Hn).
  destruct (roundedPercentage_value total a Ht Ha) as (n & En & Hr & Hb & _).
  unfold consistent. cbn [totalWorkingDays periodName daysAttended attendancePercentage].
  split; [exact Ht|]. split; [apply trim_idempotent|]. split; [exact Hn|].
  exists a, n. repeat split; try assumption; apply Ha || apply Hr || apply Hb.
Qed.




(** *** A calculation followed by a save *)

Lemma calculateAttendance_cells (st : AppState) :
  let st' := calculateAttendance st in
  st_totalWorkingDays st' = st_totalWorkingDays st
  /\ st_daysAttended st' = st_daysAttended st
  /\ st_periodName st' = st_periodName st
  /\ st_extraHolidays st' = st_extraHolidays st
  /\ st_editingRecordId st' = st_editingRecordId st
  /\ st_attendanceRecords st' = st_attendanceRecords st
  /\ st_localStorage st' = st_localStorage st.
Proof.
  cbv zeta. unfold calculateAttendance. cbv zeta.
  destruct (JSNumber.le _ _); [repeat split|].
  destruct (_ || _); [repeat split|].
  destruct (JSNumber.gt _ _); repeat split.
Qed.

(** A percentage is shown only when the three checks have passed, and
    then it is the text of the rounded percentage. *)
Lemma calculateAttendance_shows (st : AppState) (text : string) :
  resultOf (calculateAttendance st) = Percentage text ->
  draftInvalid (JSNumber.of_Z (st_totalWorkingDays st))
               (parseFloat_field (st_daysAttended st)) "x" = false
  /\ text = JSNumber.toFixed2
              (JSNumber.mul
                 (JSNumber.div (parseFloat_field (st_daysAttended st))
                               (JSNumber.of_Z (st_totalWorkingDays st)))
                 (JSNumber.of_Z 100)).
Proof.
  unfold calculateAttendance, draftInvalid. cbv zeta.
  destruct (JSNumber.le _ _); [discriminate|].
  destruct (JSNumber.isNaN _); [discriminate|].
  destruct (JSNumber.lt _ _); [discriminate|].
  destruct (JSNumber.gt _ _); [discriminate|].
  unfold resultOf. cbn. intros H. injection H as <-. split; reflexivity.
Qed.

Lemma draftInvalid_name (total attended : JSNumber.number) (n1 n2 : string) :
  draftInvalid total attended n1 = false -> JSString.trim n2 <> "" ->
  draftInvalid total attended n2 = false.
Proof.
  unfold draftInvalid. rewrite !orb_false_iff. intros [H _] Hn.
  split; [exact H|]. apply String.eqb_neq, Hn.
Qed.

(** X5: when [calculateAttendance] shows a percentage and the form is for
    a new record with a period name, a save of the form as it stands
    goes through in both versions: the record made from the form is in
    the collection and in the storage, its percentage is the number
    that the text just shown writes (two decimals, between 0 and 100),
    the message is "Record saved successfully!", and the form is
    cleared for the current month. *)
Theorem calculate_then_save (v : variant) (env : Env) (st : AppState) (text : string) :
  resultOf (calculateAttendance st) = Percentage text ->
  truthy (st_editingRecordId st) = false ->
  JSString.trim (st_periodName st) <> "" ->
  let st' := saveOrUpdateAttendance_of v env (calculateAttendance st) in
  In (createdRecord env st) (st_attendanceRecords st')
  /\ attendancePercentage (createdRecord env st) = JSNumber.parseFloat text
  /\ (exists n, text = JSNumber.hundredths_to_string n /\ 0 <= n <= 10000
                /\ attendancePercentage (createdRecord env st)
                   = JSNumber.Fin (Qred (n # 100)))
  /\ Permutation (st_attendanceRecords st')
                 (createdRecord env st :: st_attendanceRecords st)
  /\ st_localStorage st' = Some (JSON_stringify (st_attendanceRecords st'))
  /\ st_message st' = Some Msg.saved
  /\ st_messageType st' = Some success
  /\ st_periodName st' = todayPeriod env
  /\ st_daysAttended st' = FText ""
  /\ st_extraHolidays st' = FText ""
  /\ st_attendancePercentage st' = None
  /\ st_showAttendanceDisplayInButton st' = false.
Proof.
  intros Hshow Hnew Hname. cbv zeta.
  destruct (calculateAttendance_shows st text Hshow) as (Hv0 & Etext).
  pose proof (draftInvalid_name _ _ _ _ Hv0 Hname) as Hv.
  destruct (calculateAttendance_cells st) as (Ct & Cd & Cp & Ce & Ci & Cr & Cs).
  cbv zeta in *.
  set (st1 := calculateAttendance st) in *.
  assert (Hv1 : draftInvalid (JSNumber.of_Z (st_totalWorkingDays st1))
                  (parseFloat_field (st_daysAttended st1)) (st_periodName st1) = false)
    by (rewrite Ct, Cd, Cp; exact Hv).
  assert (Hnew1 : truthy (st_editingRecordId st1) = false) by (rewrite Ci; exact Hnew).
  assert (Ecr : createdRecord env st1 = createdRecord env st).
  { unfold createdRecord. rewrite Ct, Cd, Cp, Ce. reflexivity. }
  assert (Hsave : forall cmp,
    let st' := saveOrUpdateAttendance_with cmp env st1 in
    st_attendanceRecords st' = js_sort cmp (createdRecord env st :: st_attendanceRecords st)
    /\ st_localStorage st' = Some (JSON_stringify (st_attendanceRecords st'))
    /\ st_message st' = Some Msg.saved
    /\ st_messageType st' = Some success
    /\ st_periodName st' = todayPeriod env
    /\ st_daysAttended st' = FText ""
    /\ st_extraHolidays st' = FText ""
    /\ st_attendancePercentage st' = None
    /\ st_showAttendanceDisplayInButton st' = false).
  { intros cmp. cbv zeta.
    destruct (save_records cmp env st1 Hv1) as (Hrec & Hsto & Hty & Hmsg).
    rewrite (savedList_create env st1 Hnew1), Ecr, Cr in Hrec.
    rewrite Hnew1 in Hmsg.
    split; [exact Hrec|]. split; [exact Hsto|]. split; [exact Hmsg|].
    split; [exact Hty|].
    unfold saveOrUpdateAttendance_with. rewrite Hv1, Hnew1. cbv zeta.
    repeat split. }
  destruct (draftInvalid_false _ _ _ Hv) as (Ht & (a & Ea & Ha) & _).
  destruct (roundedPercentage_value _ a Ht Ha) as (n & En & _ & Hb & Etf).
  assert (Hpct : attendancePercentage (createdRecord env st) = JSNumber.parseFloat text).
  { unfold createdRecord. cbv zeta. cbn [attendancePercentage].
    unfold roundedPercentage. cbv zeta. rewrite Etext. reflexivity. }
  assert (Hn : exists n, text = JSNumber.hundredths_to_string n /\ 0 <= n <= 10000
                /\ attendancePercentage (createdRecord env st)
                   = JSNumber.Fin (Qred (n # 100))).
  { exists n. rewrite Etext, Ea, Etf. split; [reflexivity|]. split; [exact Hb|].
    unfold createdRecord. cbv zeta. cbn [attendancePercentage]. rewrite Ea. exact En. }
  assert (Hall : let st' := saveOrUpdateAttendance_of v env st1 in
    st_attendanceRecords st'
      = js_sort (comparefn_of v env) (createdRecord env st :: st_attendanceRecords st)
    /\ st_localStorage st' = Some (JSON_stringify (st_attendanceRecords st'))
    /\ st_message st' = Some Msg.saved
    /\ st_messageType st' = Some success
    /\ st_periodName st' = todayPeriod env
    /\ st_daysAttended st' = FText ""
    /\ st_extraHolidays st' = FText ""
    /\ st_attendancePercentage st' = None
    /\ st_showAttendanceDisplayInButton st' = false).
  { destruct v; apply Hsave. }
  cbv zeta in Hall. destruct Hall as (Hrec & Hrest).
  split; [rewrite Hrec; apply js_sort_In; left; reflexivity|].
  split; [exact Hpct|]. split; [exact Hn|].
  split; [rewrite Hrec; apply js_sort_perm|]. exact Hrest.
Qed.

Lemma calculate_then_save_witness :
  In (createdRecord sampleEnv formJanuary)
     (st_attendanceRecords
        (saveOrUpdateAttendance_of InAppJsx sampleEnv (calculateAttendance formJanuary)))
  /\ attendancePercentage (createdRecord sampleEnv formJanuary)
     = JSNumber.parseFloat "76.92".
Proof.
  pose proof (calculate_then_save InAppJsx sampleEnv formJanuary "76.92") as H.
  cbv zeta in H.
  destruct H as (H1 & H2 & _).
  - vm_compute. reflexivity.
  - vm_compute. reflexivity.
  - vm_compute. discriminate.
  - split; [exact H1|exact H2].
Defined.

(** ** Ids, updates and the +1 button *)

(** *** The ids of the collection *)

Lemma idOrFresh_truthy (env : Env) (st : AppState) :
  truthy (st_editingRecordId st) = true ->
  st_editingRecordId st = Some (idOrFresh env st) /\ idOrFresh env st <> "".
Proof.
  unfold truthy, idOrFresh. destruct (st_editingRecordId st) as [s|]; [|discriminate].
  intros H. apply negb_true_iff in H. rewrite H. split; [reflexivity|].
  apply String.eqb_neq, H.
Qed.

Lemma idOrFresh_fresh (env : Env) (st : AppState) :
  truthy (st_editingRecordId st) = false -> idOrFresh env st = randomUUID env.
Proof.
  unfold truthy, idOrFresh. destruct (st_editingRecordId st) as [s|]; [|reflexivity].
  intros H. apply negb_false_iff in H. rewrite H. reflexivity.
Qed.

Lemma idOrFresh_nonempty (env : Env) (st : AppState) :
  randomUUID env <> "" -> idOrFresh env st <> "".
Proof.
  intros Hu. destruct (truthy (st_editingRecordId st)) eqn:E.
  - apply (idOrFresh_truthy env st E).
  - rewrite (idOrFresh_fresh env st E). exact Hu.
Qed.

Lemma placed_ids (env : Env) (st : AppState) (new : AttendanceRecord) :
  id new = idOrFresh env st ->
  map id (placed st new)
  = if truthy (st_editingRecordId st)
    then map id (st_attendanceRecords st)
    else randomUUID env :: map id (st_attendanceRecords st).
Proof.
  intros Hid. unfold placed. destruct (truthy (st_editingRecordId st)) eqn:E.
  - destruct (idOrFresh_truthy env st E) as (Ei & _).
    rewrite map_map. apply map_ext. intros r. unfold isEditing. rewrite Ei.
    destruct (String.eqb_spec (id r) (idOrFresh env st)) as [Heq|_]; [|reflexivity].
    rewrite Hid, Heq. reflexivity.
  - cbn [map]. rewrite Hid, (idOrFresh_fresh env st E). reflexivity.
Qed.

Lemma placed_NoDup (env : Env) (st : AppState) (new : AttendanceRecord) :
  id new = idOrFresh env st ->
  NoDup (map id (st_attendanceRecords st)) ->
  ~ In (randomUUID env) (map id (st_attendanceRecords st)) ->
  NoDup (map id (placed st new)).
Proof.
  intros Hid Hn Hf. rewrite (placed_ids env st new Hid).
  destruct (truthy (st_editingRecordId st)); [exact Hn|].
  constructor; assumption.
Qed.

Lemma NoDup_ids_sorted (cmp : AttendanceRecord -> AttendanceRecord -> option Z)
    (l : list AttendanceRecord) :
  NoDup (map id l) -> NoDup (map id (js_sort cmp l)).
Proof.
  apply Permutation_NoDup, Permutation_map, Permutation_sym, js_sort_perm.
Qed.

Lemma NoDup_ids_filter (p : AttendanceRecord -> bool) (l : list AttendanceRecord) :
  NoDup (map id l) -> NoDup (map id (filter p l)).
Proof.
  induction l as [|x l IH]; cbn [map filter]; [intros; constructor|].
  intros H. inversion H as [|? ? Hx Hl]; subst.
  destruct (p x); [|apply IH, Hl].
  cbn [map]. constructor; [|apply IH, Hl].
  intros Hin. apply Hx. apply in_map_iff in Hin. destruct Hin as (y & Ey & Hy).
  apply in_map_iff. exists y. split; [exact Ey|]. apply filter_In in Hy. apply Hy.
Qed.

(** X6: the ids of the collection stay distinct under every handler that
    writes it, as long as [crypto.randomUUID()] gives an id that no
    record has yet: an update and a click on +1 while editing put the
    new record under the id being edited, a create adds the new id, a
    delete only removes. When that id is moreover not the empty text,
    no record gets an empty id either. *)
Theorem ids_stay_distinct (v : variant) (env : Env) (st : AppState) :
  NoDup (map id (st_attendanceRecords st)) ->
  ~ In (randomUUID env) (map id (st_attendanceRecords st)) ->
  (NoDup (map id (st_attendanceRecords (saveOrUpdateAttendance_of v env st)))
   /\ NoDup (map id (st_attendanceRecords (confirmDelete_of v env st)))
   /\ NoDup (map id (st_attendanceRecords (Readme.handlePlusOne env st))))
  /\ (randomUUID env <> "" ->
      Forall (fun r => id r <> "") (st_attendanceRecords st) ->
      Forall (fun r => id r <> "")
             (st_attendanceRecords (saveOrUpdateAttendance_of v env st))
      /\ Forall (fun r => id r <> "")
                (st_attendanceRecords (confirmDelete_of v env st))
      /\ Forall (fun r => id r <> "")
                (st_attendanceRecords (Readme.handlePlusOne env st))).
Proof.
  intros Hn Hf. split.
  - split; [|split].
    + assert (H : forall cmp,
        NoDup (map id (st_attendanceRecords (saveOrUpdateAttendance_with cmp env st)))).
      { intros cmp.
        destruct (draftInvalid (JSNumber.of_Z (st_totalWorkingDays st))
                    (parseFloat_field (st_daysAttended st)) (st_periodName st)) eqn:Hv.
        - unfold saveOrUpdateAttendance_with. rewrite Hv. exact Hn.
        - destruct (save_records cmp env st Hv) as (-> & _).
          apply NoDup_ids_sorted. rewrite savedList_placed.
          apply (placed_NoDup env); [reflexivity|exact Hn|exact Hf]. }
      destruct v; apply H.
    + destruct (st_recordToDelete st) as [r|] eqn:Er.
      * destruct v; cbn [confirmDelete_of].
        -- destruct (appjsx_delete_records env st r Er) as (-> & _).
           apply NoDup_ids_filter, Hn.
        -- destruct (readme_delete_records env st r Er) as (-> & _).
           apply NoDup_ids_sorted, NoDup_ids_filter, Hn.
      * destruct v; cbn [confirmDelete_of];
          unfold AppJsx.confirmDelete, Readme.confirmDelete; rewrite Er; exact Hn.
    + destruct (plusOne_cases env st) as [(-> & _)|(_ & _ & -> & _)]; [exact Hn|].
      apply NoDup_ids_sorted, (placed_NoDup env); [reflexivity|exact Hn|exact Hf].
  - intros Hu Hold.
    apply (writers_keep (fun r => id r <> "") v env st); [|exact Hold].
    intros attended name _. cbn [id]. apply idOrFresh_nonempty, Hu.
Qed.

Lemma ids_stay_distinct_witness :
  NoDup (map id (st_attendanceRecords
                   (saveOrUpdateAttendance_of InReadme sampleEnv formJanuary)))
  /\ NoDup (map id (st_attendanceRecords
                      (confirmDelete_of InReadme sampleEnv formJanuary)))
  /\ NoDup (map id (st_attendanceRecords (Readme.handlePlusOne sampleEnv formJanuary))).
Proof.
  apply (ids_stay_distinct InReadme sampleEnv formJanuary).
  - change (map id (st_attendanceRecords formJanuary)) with ["b"].
    constructor; [intros []|constructor].
  - change (map id (st_attendanceRecords formJanuary)) with ["b"].
    intros [H|[]]. discriminate H.
Defined.

(** *** An update *)

Lemma replace_unique (i : string) (new : AttendanceRecord) (l : list AttendanceRecord) :
  NoDup (map id l) -> In i (map id l) ->
  Permutation (map (fun rec => if String.eqb (id rec) i then new else rec) l)
              (new :: filter (fun rec => negb (String.eqb (id rec) i)) l).
Proof.
  induction l as [|x l IH]; cbn [map filter In]; [intros _ []|].
  intros Hn Hin. inversion Hn as [|? ? Hx Hl]; subst.
  destruct (String.eqb_spec (id x) i) as [Ex|Ex]; cbn [negb].
  - apply perm_skip. rewrite <- Ex in *.
    assert (Hnone : forall y, In y l -> String.eqb (id y) (id x) = false).
    { intros y Hy. apply String.eqb_neq. intros E. apply Hx.
      rewrite <- E. apply in_map, Hy. }
    rewrite (map_unchanged _ l).
    + rewrite forallb_filter_id; [reflexivity|].
      apply forallb_forall. intros y Hy. rewrite (Hnone y Hy). reflexivity.
    + intros y Hy. rewrite (Hnone y Hy). reflexivity.
  - destruct Hin as [Hin|Hin]; [contradiction|].
    rewrite (perm_swap x new). apply perm_skip. apply IH; assumption.
Qed.

(** X7: an update with a valid form, while the record being edited is in
    the collection and ids are distinct, replaces that one record by
    the record made from the form and keeps every other record: the
    collection has the same length and the same ids as before. The
    form stays open on the record and shows the new percentage. *)
Theorem update_replaces_edited (v : variant) (env : Env) (st : AppState) (i : string) :
  st_editingRecordId st = Some i -> i <> "" ->
  NoDup (map id (st_attendanceRecords st)) ->
  In i (map id (st_attendanceRecords st)) ->
  draftInvalid (JSNumber.of_Z (st_totalWorkingDays st))
               (parseFloat_field (st_daysAttended st)) (st_periodName st) = false ->
  let st' := saveOrUpdateAttendance_of v env st in
  Permutation (st_attendanceRecords st')
    (draftRecord env st
     :: filter (fun rec => negb (String.eqb (id rec) i)) (st_attendanceRecords st))
  /\ id (draftRecord env st) = i
  /\ timestamp (draftRecord env st) = now env
  /\ List.length (st_attendanceRecords st') = List.length (st_attendanceRecords st)
  /\ Permutation (map id (st_attendanceRecords st')) (map id (st_attendanceRecords st))
  /\ st_localStorage st' = Some (JSON_stringify (st_attendanceRecords st'))
  /\ st_message st' = Some Msg.updated
  /\ st_messageType st' = Some success
  /\ st_editingRecordId st' = Some i
  /\ st_periodName st' = st_periodName st
  /\ st_daysAttended st' = st_daysAttended st
  /\ st_extraHolidays st' = st_extraHolidays st
  /\ st_showAttendanceDisplayInButton st' = true
  /\ st_attendancePercentage st'
     = Some (FText (JSNumber.toFixed2
                      (JSNumber.mul
                         (JSNumber.div (parseFloat_field (st_daysAttended st))
                                       (JSNumber.of_Z (st_totalWorkingDays st)))
                         (JSNumber.of_Z 100)))).
Proof.
  intros Ei Hi Hn Hin Hv. cbv zeta.
  assert (Ht : truthy (st_editingRecordId st) = true).
  { rewrite Ei. cbn [truthy]. apply negb_true_iff, String.eqb_neq, Hi. }
  assert (Hid : idOrFresh env st = i).
  { unfold idOrFresh. rewrite Ei.
    destruct (String.eqb_spec i "") as [E|_]; [contradiction|reflexivity]. }
  assert (Hplaced : placed st (draftRecord env st)
            = map (fun rec => if String.eqb (id rec) i then draftRecord env st else rec)
                  (st_attendanceRecords st)).
  { unfold placed. rewrite Ht. apply map_ext. intros r. unfold isEditing.
    rewrite Ei. reflexivity. }
  assert (H : forall cmp,
    let st' := saveOrUpdateAttendance_with cmp env st in
    st_attendanceRecords st' = js_sort cmp (placed st (draftRecord env st))
    /\ st_localStorage st' = Some (JSON_stringify (st_attendanceRecords st'))
    /\ st_message st' = Some Msg.updated
    /\ st_messageType st' = Some success
    /\ st_editingRecordId st' = Some i
    /\ st_periodName st' = st_periodName st
    /\ st_daysAttended st' = st_daysAttended st
    /\ st_extraHolidays st' = st_extraHolidays st
    /\ st_showAttendanceDisplayInButton st' = true
    /\ st_attendancePercentage st'
       = Some (FText (JSNumber.toFixed2
                        (JSNumber.mul
                           (JSNumber.div (parseFloat_field (st_daysAttended st))
                                         (JSNumber.of_Z (st_totalWorkingDays st)))
                           (JSNumber.of_Z 100))))).
  { intros cmp. cbv zeta.
    destruct (save_records cmp env st Hv) as (Hrec & Hsto & Hty & Hmsg).
    rewrite Ht in Hmsg. rewrite savedList_placed in Hrec.
    split; [exact Hrec|]. split; [exact Hsto|]. split; [exact Hmsg|].
    split; [exact Hty|].
    unfold saveOrUpdateAttendance_with. rewrite Hv, Ht. cbv zeta.
    repeat split. exact Ei. }
  assert (Hall : let st' := saveOrUpdateAttendance_of v env st in
    st_attendanceRecords st'
      = js_sort (comparefn_of v env) (placed st (draftRecord env st))
    /\ st_localStorage st' = Some (JSON_stringify (st_attendanceRecords st'))
    /\ st_message st' = Some Msg.updated
    /\ st_messageType st' = Some success
    /\ st_editingRecordId st' = Some i
    /\ st_periodName st' = st_periodName st
    /\ st_daysAttended st' = st_daysAttended st
    /\ st_extraHolidays st' = st_extraHolidays st
    /\ st_showAttendanceDisplayInButton st' = true
    /\ st_attendancePercentage st'
       = Some (FText (JSNumber.toFixed2
                        (JSNumber.mul
                           (JSNumber.div (parseFloat_field (st_daysAttended st))
                                         (JSNumber.of_Z (st_totalWorkingDays st)))
                           (JSNumber.of_Z 100))))).
  { destruct v; apply H. }
  cbv zeta in Hall. destruct Hall as (Hrec & Hrest).
  assert (Hperm : Permutation (st_attendanceRecords (saveOrUpdateAttendance_of v env st))
                              (placed st (draftRecord env st))).
  { rewrite Hrec. apply js_sort_perm. }
  split; [rewrite Hperm, Hplaced; apply replace_unique; assumption|].
  split; [exact Hid|]. split; [reflexivity|].
  split; [rewrite (Permutation_length Hperm), Hplaced; apply length_map|].
  split; [|exact Hrest].
  rewrite (Permutation_map id Hperm).
  rewrite (placed_ids env st (draftRecord env st) eq_refl), Ht. reflexivity.
Qed.

Lemma update_replaces_edited_witness :
  Permutation
    (st_attendanceRecords (saveOrUpdateAttendance_of InAppJsx sampleEnv formFull))
    (draftRecord sampleEnv formFull
     :: filter (fun rec => negb (String.eqb (id rec) "a"))
               (st_attendanceRecords formFull))
  /\ id (draftRecord sampleEnv formFull) = "a".
Proof.
  pose proof (update_replaces_edited InAppJsx sampleEnv formFull "a") as H.
  cbv zeta in H. destruct H as (H1 & H2 & _).
  - reflexivity.
  - discriminate.
  - change (map id (st_attendanceRecords formFull)) with ["b"; "a"].
    repeat constructor; cbn [In]; intros H; repeat destruct H as [H|H];
      try discriminate H; exact H.
  - change (map id (st_attendanceRecords formFull)) with ["b"; "a"].
    right. left. reflexivity.
  - vm_compute. reflexivity.
  - split; [exact H1|exact H2].
Defined.

Lemma saveOrUpdateAttendance_of_with (v : variant) (env : Env) (st : AppState) :
  saveOrUpdateAttendance_of v env st
  = saveOrUpdateAttendance_with (comparefn_of v env) env st.
Proof. destruct v; reflexivity. Qed.

(** *** Opening a record and saving it again *)


Lemma holidays_roundtrip (n : Z) : parseInt_or_0 (holidaysOrEmpty n) = n.
Proof.
  unfold holidaysOrEmpty. destruct (Z.eqb_spec n 0) as [->|_]; [reflexivity|].
  apply parseInt_or_0_of_Z.
Qed.





(** *** The +1 button *)










(** ** The working days that the effect computes *)

(** *** The range of the working days *)

Lemma weekday_count_mod (b w n : Z) : weekday_count b w n = weekday_count (b mod 7) w n.
Proof.
  unfold weekday_count. f_equal. f_equal. apply filter_ext. intros j.
  rewrite Z.add_mod_idemp_l by lia. reflexivity.
Qed.

Lemma month_shapes :
  forallb (fun r => forallb (month_shape_ok r) [28; 29; 30; 31]) (Zrange 0 7) = true.
Proof. vm_compute. reflexivity. Qed.

Lemma month_shape (b n : Z) :
  28 <= n <= 31 ->
  2 <= weekday_count b 6 n /\ 23 <= n - weekday_count b 0 n - 1 <= 26.
Proof.
  intros Hn. rewrite (weekday_count_mod b 6), (weekday_count_mod b 0).
  pose proof (Z.mod_pos_bound b 7 ltac:(lia)) as Hr.
  pose proof (forallb_Zrange _ _ _ month_shapes (b mod 7) ltac:(simpl; lia)) as H.
  cbv beta in H. rewrite forallb_forall in H.
  assert (Hin : In n [28; 29; 30; 31]) by (cbn [In]; lia).
  specialize (H n Hin). unfold month_shape_ok in H.
  rewrite !andb_true_iff, !Z.leb_le in H. lia.
Qed.

Lemma daysInMonth_range (m y : Z) : 28 <= CalendarSpec.daysInMonth m y <= 31.
Proof.
  unfold CalendarSpec.daysInMonth.
  destruct m as [|p|p]; try lia.
  destruct (CalendarSpec.isLeapYear y);
    repeat (destruct p as [p|p|]; try lia).
Qed.

(** The calculator in terms of the weekday of the days of the month. *)
Lemma calculator_counts (m y k : Z) :
  1 <= m <= 12 -> 1900 <= y <= 2100 ->
  let b := monthOffset m y in
  calculateMonthlyWorkingDays m y k
  = Z.max 0 (CalendarSpec.daysInMonth m y
             - (weekday_count b 0 (CalendarSpec.daysInMonth m y)
                + (if 2 <=? weekday_count b 6 (CalendarSpec.daysInMonth m y)
                   then 1 else 0))
             - k).
Proof.
  intros Hm Hy. cbv zeta. set (b := monthOffset m y).
  destruct (last_day_of_month y m Hy Hm) as [Hlast Hdim].
  destruct (day_in_month y m (CalendarSpec.daysInMonth m y) Hy Hm ltac:(lia))
    as (_ & _ & Hdate & _).
  destruct (day_in_month y m 1 Hy Hm ltac:(lia)) as (HY & HM & _ & Hclip).
  assert (Hfirst : JSDate.newDate y (m - 1) 1 = Some (JSDate.MakeDay y (m - 1) 1)).
  { unfold JSDate.newDate.
    replace ((0 <=? y) && (y <=? 99)) with false
      by (symmetry; apply andb_false_iff; right; apply Z.leb_gt; lia).
    exact Hclip. }
  unfold calculateMonthlyWorkingDays.
  rewrite Hlast. cbn [JSDate.getDate option_map]. rewrite Hdate. cbv zeta.
  rewrite for_days_counts by (unfold flag_agrees; simpl; split; [lia|reflexivity]).
  cbn [date nonWorkingDays saturdayCount]. rewrite Hfirst.
  rewrite (weekdays_seen_month y m (Z.to_nat (CalendarSpec.daysInMonth m y)) Hy Hm 1
             (JSDate.MakeDay y (m - 1) 1) ltac:(lia) ltac:(lia) HY HM).
  rewrite (map_ext _ (fun j => Some ((b + j) mod 7))).
  2:{ intros j. f_equal. rewrite (MakeDay_in_year y m j Hm). unfold JSDate.WeekDay.
      f_equal. subst b. unfold monthOffset. lia. }
  rewrite !count_seen_map.
  fold (weekday_count b 0 (CalendarSpec.daysInMonth m y)).
  fold (weekday_count b 6 (CalendarSpec.daysInMonth m y)).
  change (0 <? 2) with true. cbn [andb]. rewrite !Z.add_0_l.
  match goal with |- context [?r >? 0] => destruct (Z.gtb_spec r 0) end; lia.
Qed.

(** Every month of 1900..2100 has between 23 and 26 working days
    before extra holidays: its second Saturday always exists, and its
    28 to 31 days hold 4 or 5 Sundays. *)
Lemma working_days_23_26 (m y : Z) :
  1 <= m <= 12 -> 1900 <= y <= 2100 ->
  23 <= calculateMonthlyWorkingDays m y 0 <= 26.
Proof.
  intros Hm Hy. rewrite (calculator_counts m y 0 Hm Hy).
  pose proof (daysInMonth_range m y) as Hn.
  destruct (month_shape (monthOffset m y) _ Hn) as (Hsat & Hsun).
  destruct (Z.leb_spec 2 (weekday_count (monthOffset m y) 6
                            (CalendarSpec.daysInMonth m y))); lia.
Qed.

(** Extra holidays are taken off the working days of the month, and
    the result stops at 0. *)
Lemma working_days_minus_holidays (m y k : Z) :
  1 <= m <= 12 -> 1900 <= y <= 2100 ->
  calculateMonthlyWorkingDays m y k = Z.max 0 (calculateMonthlyWorkingDays m y 0 - k).
Proof.
  intros Hm Hy. pose proof (working_days_23_26 m y Hm Hy) as Hb. revert Hb.
  rewrite (calculator_counts m y k Hm Hy), (calculator_counts m y 0 Hm Hy). lia.
Qed.

(** X11: the total working days that the effect puts into the form, for a
    period name, the field of the extra holidays and the current year:
    it is 0 exactly when the name is no valid period or the holidays
    are at least the working days of the month; a valid month has 23
    to 26 working days before holidays (its second Saturday always
    exists), the holidays [k] are taken off and the result stops at 0.
    So the total is never negative, never above 26 unless the holidays
    are negative, and positive for every valid period with fewer than
    23 holidays. *)
Theorem effect_total_working_days (name : string) (h : field) (c : Z) :
  let k := parseInt_or_0 h in
  let total := workingDaysEffect name h c in
  0 <= total
  /\ (Period.parsePeriod name c = None -> total = 0)
  /\ (forall m y, Period.parsePeriod name c = Some (m, y) ->
        23 <= calculateMonthlyWorkingDays m y 0 <= 26
        /\ total = Z.max 0 (calculateMonthlyWorkingDays m y 0 - k)
        /\ (total = 0 <-> calculateMonthlyWorkingDays m y 0 <= k)
        /\ (k < 23 -> 0 < total))
  /\ (0 <= k -> total <= 26)
  /\ (0 < total -> exists m y, Period.parsePeriod name c = Some (m, y)
                               /\ 1 <= m <= 12 /\ 1900 <= y <= 2100).
Proof.
  cbv zeta. unfold workingDaysEffect.
  assert (Hrange : forall m y, Period.parsePeriod name c = Some (m, y) ->
            1 <= m <= 12 /\ 1900 <= y <= 2100).
  { intros m y E. apply parsePeriod_Some_iff in E. destruct E as ((tok & ws & yr & Hm & _) & Hy).
    split; [apply (month_of_token tok m Hm)|exact Hy]. }
  destruct (Period.parsePeriod name c) as [[m y]|] eqn:E.
  - destruct (Hrange m y eq_refl) as (Hm & Hy).
    pose proof (working_days_23_26 m y Hm Hy) as Hb.
    pose proof (working_days_minus_holidays m y (parseInt_or_0 h) Hm Hy) as Hk.
    split; [lia|]. split; [discriminate|].
    split.
    { intros m' y' E'. injection E' as <- <-. repeat split; lia. }
    split; [lia|]. intros _. exists m, y. tauto.
  - split; [lia|]. split; [reflexivity|].
    split; [discriminate|]. split; [lia|]. lia.
Qed.

(** ** Period names *)

(** *** The two readers of a period name *)

Section KeyProofs.
Import JSString Period PeriodSpec.

(** The first piece that [split(' ')] cuts off. *)
Lemma first_space (s : string) :
  no_space s = true \/ exists a b, s = a ++ String " " b /\ no_space a = true.
Proof.
  induction s as [|c s IH]; [left; reflexivity|].
  destruct (N.eqb_spec (code c) 32) as [E|E].
  - right. exists "", s. split; [|reflexivity].
    cbn [append]. f_equal.
    unfold code in E. rewrite <- (ascii_N_embedding c), E. reflexivity.
  - destruct IH as [H|(a & b & -> & Ha)].
    + left. unfold no_space in *. cbn [all_chars].
      rewrite H, andb_true_r. apply negb_true_iff, N.eqb_neq, E.
    + right. exists (String c a), b. split; [reflexivity|].
      unfold no_space in *. cbn [all_chars].
      rewrite Ha, andb_true_r. apply negb_true_iff, N.eqb_neq, E.
Qed.

Lemma lower_char_sep (c : ascii) : is_sep (lower_char c) = true -> lower_char c = c.
Proof.
  unfold lower_char. cbv zeta.
  destruct ((((65 <=? code c) && (code c <=? 90))
             || ((192 <=? code c) && (code c <=? 222) && negb (code c =? 215)))%N) eqn:E;
    [|reflexivity].
  intros H. exfalso.
  assert (Hc : (code c < 256)%N) by (unfold code; apply N_ascii_bounded).
  assert (Hr : ((65 <= code c <= 90) \/ (192 <= code c <= 222))%N).
  { apply orb_true_iff in E. destruct E as [E|E].
    - apply andb_true_iff in E. destruct E as [E1 E2].
      apply N.leb_le in E1, E2. left. lia.
    - rewrite !andb_true_iff in E. destruct E as [[E1 E2] _].
      apply N.leb_le in E1, E2. right. lia. }
  unfold is_sep, is_space, is_digit, code in H. cbv zeta in H.
  rewrite N_ascii_embedding in H by (unfold code in *; lia).
  unfold code in Hr.
  rewrite !orb_true_iff, !andb_true_iff, !N.leb_le, !N.eqb_eq in H. lia.
Qed.

(** Lower case changes no text whose lower case is white space and
    digits only. *)
Lemma toLowerCase_seps (b : string) :
  all_chars is_sep (toLowerCase b) = true -> toLowerCase b = b.
Proof.
  induction b as [|c b IH]; [reflexivity|].
  cbn [toLowerCase all_chars]. intros H. apply andb_true_iff in H.
  destruct H as [Hc Hb]. rewrite (lower_char_sep c Hc), (IH Hb). reflexivity.
Qed.

Lemma seps_app (ws yr : string) :
  all_chars is_space ws = true -> year_text yr -> all_chars is_sep (ws ++ yr) = true.
Proof.
  intros Hws Hyr. rewrite all_chars_app. apply andb_true_iff. split.
  - clear Hyr. induction ws as [|c ws IH]; [reflexivity|].
    cbn [all_chars] in *. apply andb_true_iff in Hws. destruct Hws as [Hc Hw].
    unfold is_sep at 1. rewrite Hc, (IH Hw). reflexivity.
  - destruct Hyr as [->|[_ Hd]]; [reflexivity|].
    clear - Hd. induction yr as [|c yr IH]; [reflexivity|].
    cbn [all_chars] in *. apply andb_true_iff in Hd. destruct Hd as [Hc Hy].
    unfold is_sep at 1. rewrite Hc, orb_true_r, (IH Hy). reflexivity.
Qed.

Lemma parseInt_space (c : ascii) (p : string) :
  is_space c = true -> parseInt (String c p) = parseInt p.
Proof. intros H. unfold parseInt. cbn [skip_spaces]. rewrite H. reflexivity. Qed.

(** The piece of [ws ++ yr] in front of its first space is read as a
    number only when it is the year itself behind white space. *)
Lemma year_piece (ws yr : string) (y' : Z) :
  all_chars is_space ws = true -> year_text yr ->
  parseInt (hd "" (split_space (ws ++ yr))) = Some y' ->
  four_digits yr = true /\ y' = decimal yr.
Proof.
  intros Hws Hyr. induction ws as [|c ws IH]; cbn [append].
  - destruct (year_text_cases yr Hyr) as [->|(H4 & _ & _)].
    + intros H. vm_compute in H. discriminate H.
    + assert (Hns : no_space yr = true).
      { destruct (four_digits_inv yr H4) as (a & b & d & e & -> & Ha & Hb & Hd & He).
        unfold no_space. cbn [all_chars].
        assert (Hdig : forall x, is_digit x = true -> negb (code x =? 32)%N = true).
        { intros x Hx. unfold is_digit in Hx. cbv zeta in Hx.
          apply andb_true_iff in Hx. destruct Hx as [Hx _]. apply N.leb_le in Hx.
          apply negb_true_iff, N.eqb_neq. lia. }
        rewrite (Hdig a Ha), (Hdig b Hb), (Hdig d Hd), (Hdig e He). reflexivity. }
      rewrite (split_space_no_space yr Hns). cbn [hd].
      rewrite (parseInt_four_digits yr H4). intros H. injection H as <-.
      split; [exact H4|reflexivity].
  - cbn [all_chars] in Hws. apply andb_true_iff in Hws. destruct Hws as [Hc Hw].
    cbn [split_space]. destruct (code c =? 32)%N.
    + cbn [hd]. intros H. vm_compute in H. discriminate H.
    + destruct (split_space (ws ++ yr)) as [|p ps] eqn:E.
      * cbn [hd] in *. rewrite (parseInt_space c "" Hc). exact (IH Hw).
      * cbn [hd] in *. rewrite (parseInt_space c p Hc). exact (IH Hw).
Qed.

Lemma monthMap_names (k : string) (i : Z) :
  Readme.assoc k Readme.monthMap = Some i -> names_month k (i + 1) /\ is_word k = true.
Proof.
  unfold Readme.monthMap. cbn [Readme.assoc].
  repeat (match goal with
          | |- context [String.eqb ?a k] => destruct (String.eqb_spec a k) as [<-|_]
          end;
          [intros H; injection H as <-; split;
           [unfold names_month, month_table; cbn [In];
            repeat (first [left; reflexivity | right])
           | reflexivity]|]).
  discriminate.
Qed.

Lemma names_month_unique (tok : string) (m m' : Z) :
  names_month tok m -> names_month tok m' -> m = m'.
Proof.
  intros H H'. destruct (month_of_token tok m H) as [<- _].
  destruct (month_of_token tok m' H') as [<- _]. reflexivity.
Qed.

Lemma names_month_word (tok : string) (m : Z) : names_month tok m -> is_word tok = true.
Proof.
  intros H. apply month_table_alternatives in H.
  pose proof month_alternatives_words as W. rewrite forallb_forall in W. apply W, H.
Qed.

Lemma space_is_sep (r : string) c r' : String " " r = String c r' -> is_sep c = true.
Proof. intros H. injection H as <- _. reflexivity. Qed.

(** Where both readers find a month and a year, they find the same. *)
Lemma readers_agree (s a b : string) (c m y mi y' : Z) :
  reads_as s c m y ->
  s = a ++ String " " b -> 
  Readme.monthMap_get (toLowerCase a) = Readme.MonthIndex mi ->
  parseInt (hd "" (split_space b)) = Some y' ->
  mi = m - 1 /\ y' = y.
Proof.
  intros (tok & ws & yr & Hm & Hws & Hyr & Hlow & Hy) -> Hmi Hy'.
  rewrite toLowerCase_app in Hlow. cbn [toLowerCase] in Hlow.
  change (lower_char " ") with " "%char in Hlow.
  unfold Readme.monthMap_get in Hmi.
  destruct (Readme.assoc (toLowerCase a) Readme.monthMap) as [i|] eqn:Ea.
  2:{ destruct (_ || _); discriminate Hmi. }
  injection Hmi as ->.
  destruct (monthMap_names _ _ Ea) as (Hm' & Hwa).
  pose proof (names_month_word tok m Hm) as Hwt.
  assert (Etok : toLowerCase a = tok
                 /\ String " " (toLowerCase b) = ws ++ yr).
  { destruct (string_app_eq_app _ _ _ _ Hlow) as [(x & E1 & E2)|(x & E1 & E2)].
    - (* the month word of the form is shorter *)
      assert (x = "").
      { apply (word_meets_rest x (String " " (toLowerCase b))).
        - rewrite E1 in Hwa. apply (is_word_app_inv tok x Hwa).
        - intros c0 r0 E0. rewrite <- E2 in E0.
          apply (rest_head_sep ws yr c0 r0 Hws Hyr E0). }
      subst x. rewrite string_app_nil_r in E1. split; [exact E1|].
      symmetry. exact E2.
    - assert (x = "").
      { apply (word_meets_rest x (ws ++ yr)).
        - rewrite E1 in Hwt. apply (is_word_app_inv (toLowerCase a) x Hwt).
        - intros c0 r0 E0. rewrite <- E2 in E0. apply (space_is_sep _ _ _ E0). }
      subst x. rewrite string_app_nil_r in E1. split; [symmetry; exact E1|exact E2]. }
  destruct Etok as (Etok & Erest). rewrite Etok in Hm'.
  split; [pose proof (names_month_unique tok _ _ Hm Hm'); lia|].
  (* the year *)
  destruct ws as [|w ws].
  { cbn [append] in Erest. destruct (year_text_cases yr Hyr) as [->|(H4 & _ & _)].
    - discriminate Erest.
    - destruct (four_digits_inv yr H4) as (d1 & d2 & d3 & d4 & -> & Hd & _).
      injection Erest as <- _. discriminate Hd. }
  cbn [append all_chars] in Erest, Hws. injection Erest as _ Eb.
  apply andb_true_iff in Hws. destruct Hws as [_ Hws].
  assert (Eb' : b = ws ++ yr).
  { rewrite <- Eb. symmetry. apply toLowerCase_seps. rewrite Eb.
    apply seps_app; assumption. }
  rewrite Eb' in Hy'.
  destruct (year_piece ws yr y' Hws Hyr Hy') as (H4 & ->).
  rewrite Hy. unfold year_of.
  destruct (String.eqb_spec yr "") as [->|_]; [discriminate H4|reflexivity].
Qed.

Lemma split_space_cons (b : string) : exists p ps, split_space b = p :: ps.
Proof.
  induction b as [|c b (p & ps & IH)]; cbn [split_space]; [eauto|].
  destruct (code c =? 32)%N; [eauto|]. rewrite IH. eauto.
Qed.

Lemma token_head (tok : string) (m : Z) :
  names_month tok m ->
  exists c r, tok = String c r /\ c <> "c"%char /\ c <> "_"%char.
Proof.
  unfold names_month, month_table. intros H.
  repeat (destruct H as [H|H];
          [injection H as <- <-; eexists; eexists;
           split; [reflexivity|split; discriminate]|]).
  destruct H.
Qed.

(** The name of a valid period has none of the inherited keys of
    [monthMap] as its first piece. *)
Lemma not_inherited (s a b : string) (c m y : Z) :
  reads_as s c m y -> s = a ++ String " " b ->
  Readme.monthMap_get (toLowerCase a) <> Readme.Inherited.
Proof.
  intros (tok & ws & yr & Hm & _ & _ & Hlow & _) ->.
  rewrite toLowerCase_app in Hlow.
  destruct (token_head tok m Hm) as (c0 & r0 & -> & Hc & Hu).
  unfold Readme.monthMap_get.
  destruct (Readme.assoc (toLowerCase a) Readme.monthMap); [discriminate|].
  destruct (String.eqb_spec (toLowerCase a) "constructor") as [E|_].
  { rewrite E in Hlow. injection Hlow as E0 _. congruence. }
  destruct (String.eqb_spec (toLowerCase a) "__proto__") as [E|_].
  { rewrite E in Hlow. injection Hlow as E0 _. congruence. }
  discriminate.
Qed.

(** The first day of a month of 1900..2100 is a valid date in every
    time zone. *)
Lemma firstOfMonth_valid (tz y mi : Z) :
  Z.abs tz <= msPerDay -> 1900 <= y <= 2100 -> 0 <= mi <= 11 ->
  exists t, Readme.firstOfMonth tz y mi = Some t.
Proof.
  intros Htz Hy Hmi. unfold Readme.firstOfMonth.
  replace ((0 <=? y) && (y <=? 99)) with false
    by (symmetry; apply andb_false_iff; right; apply Z.leb_gt; lia).
  rewrite (MakeDay_first y mi Hmi).
  pose proof (DayFromYear_bounds y ltac:(lia)) as Hd.
  destruct (days_before_month_bounds mi _ Hmi (InLeapYearOf_bound y)) as [Hb _].
  unfold msPerDay in *.
  destruct (Z.leb_spec
              (Z.abs ((JSDate.DayFromYear y
                       + JSDate.days_before_month mi (JSDate.InLeapYearOf y)) * 86400000
                      - tz)) 8640000000000000); [eauto|lia].
Qed.

End KeyProofs.

(** For a name that the form reads as month [m] of year [y], the sort
    finds the first day of that month or nothing at all. *)
Lemma accepted_key (tz : Z) (s : string) (c m y : Z) :
  PeriodSpec.reads_as s c m y ->
  Readme.parsePeriodNameToSortableDate tz s = Readme.firstOfMonth tz y (m - 1)
  \/ Readme.parsePeriodNameToSortableDate tz s = Some 0.
Proof.
  intros Hr.
  destruct (first_space s) as [H|(a & b & E & Ha)].
  { right. apply unparseable_key. unfold unparseable.
    rewrite (split_space_no_space s H). exact I. }
  pose proof (not_inherited s a b c m y Hr E) as Hinh.
  unfold Readme.parsePeriodNameToSortableDate. rewrite E.
  rewrite (split_space_app a b Ha).
  destruct (split_space_cons b) as (p & ps & Eb). rewrite Eb.
  destruct (Readme.monthMap_get (JSString.toLowerCase a)) as [mi| |] eqn:Emi;
    [|right; reflexivity|contradiction].
  destruct (JSString.parseInt p) as [y'|] eqn:Ey; [|right; reflexivity].
  destruct (readers_agree s a b c m y mi y' Hr E Emi) as (-> & ->).
  { rewrite Eb. exact Ey. }
  left. reflexivity.
Qed.

(** Such a name never gives an invalid date. *)
Lemma accepted_key_valid (tz : Z) (s : string) (c : Z) :
  Z.abs tz <= msPerDay -> Period.parsePeriod s c <> None ->
  Readme.parsePeriodNameToSortableDate tz s <> None.
Proof.
  intros Htz Hp. destruct (Period.parsePeriod s c) as [[m y]|] eqn:E; [|contradiction].
  apply parsePeriod_Some_iff in E. destruct E as (Hr & Hy).
  assert (Hm : 1 <= m <= 12).
  { destruct Hr as (tok & ws & yr & Hm & _). apply (month_of_token tok m Hm). }
  destruct (firstOfMonth_valid tz y (m - 1) Htz Hy ltac:(lia)) as (t & Et).
  destruct (accepted_key tz s c m y Hr) as [-> | ->]; [rewrite Et|]; discriminate.
Qed.

(** X12: the form and the sort of the README variant read a period name
    each in their own way. For a name that the form accepts as month
    [m] of year [y], the date that [parsePeriodNameToSortableDate]
    gives is either the first day of that very month or the epoch, and
    never another month or an invalid date: where the sort finds a
    month and a year at all, they are the ones the form found. It is
    the epoch for every accepted name without a space character (a
    month alone, or a month and a year written together). *)
Theorem sort_key_agrees_with_form (tz : Z) (s : string) (c m y : Z) :
  Period.parsePeriod s c = Some (m, y) ->
  (Readme.parsePeriodNameToSortableDate tz s = Readme.firstOfMonth tz y (m - 1)
   \/ Readme.parsePeriodNameToSortableDate tz s = Some 0)
  /\ (no_space s = true -> Readme.parsePeriodNameToSortableDate tz s = Some 0)
  /\ (forall mi y', labelled s mi y' ->
        mi = m - 1 /\ y' = y
        /\ Readme.parsePeriodNameToSortableDate tz s = Readme.firstOfMonth tz y (m - 1))
  /\ (Z.abs tz <= msPerDay ->
        exists t, Readme.firstOfMonth tz y (m - 1) = Some t
                  /\ Readme.parsePeriodNameToSortableDate tz s <> None).
Proof.
  intros Hp. apply parsePeriod_Some_iff in Hp. destruct Hp as (Hr & Hy).
  assert (Hm : 1 <= m <= 12).
  { destruct Hr as (tok & ws & yr & Hm & _). apply (month_of_token tok m Hm). }
  pose proof (accepted_key tz s c m y Hr) as Hdich.
  split; [exact Hdich|]. split.
  { intros H. apply unparseable_key. unfold unparseable.
    rewrite (split_space_no_space s H). exact I. }
  split.
  - intros mi y' Hl. pose proof (labelled_key tz s mi y' Hl) as Hk.
    destruct Hl as (M & yr & E & HM & Hyr & Hmi & Hy').
    destruct (readers_agree s M yr c m y mi y' Hr E Hmi) as (-> & ->).
    { rewrite (split_space_no_space yr Hyr). exact Hy'. }
    repeat split. exact Hk.
  - intros Htz. destruct (firstOfMonth_valid tz y (m - 1) Htz Hy ltac:(lia)) as (t & Et).
    exists t. split; [exact Et|].
    destruct Hdich as [-> | ->]; [rewrite Et|]; discriminate.
Qed.

Lemma sort_key_agrees_with_form_witness :
  Readme.parsePeriodNameToSortableDate 0 "March 2025"
  = Readme.firstOfMonth 0 2025 (3 - 1)
  \/ Readme.parsePeriodNameToSortableDate 0 "March 2025" = Some 0.
Proof.
  apply (sort_key_agrees_with_form 0 "March 2025" 1999 3 2025).
  vm_compute. reflexivity.
Defined.


(** *** The name that is stored *)

Section TrimProofs.
Import JSString Period PeriodSpec.

Lemma lower_char_space (c : ascii) : is_space (lower_char c) = is_space c.
Proof.
  unfold lower_char. cbv zeta.
  destruct ((((65 <=? code c) && (code c <=? 90))
             || ((192 <=? code c) && (code c <=? 222) && negb (code c =? 215)))%N) eqn:E;
    [|reflexivity].
  assert (Hr : ((65 <= code c <= 90) \/ (192 <= code c <= 222))%N).
  { apply orb_true_iff in E. destruct E as [E|E].
    - apply andb_true_iff in E. destruct E as [E1 E2].
      apply N.leb_le in E1, E2. left. lia.
    - rewrite !andb_true_iff in E. destruct E as [[E1 E2] _].
      apply N.leb_le in E1, E2. right. lia. }
  unfold is_space. cbv zeta. unfold code in *.
  rewrite N_ascii_embedding by lia.
  destruct (N.leb_spec 9 (N_of_ascii c + 32)), (N.leb_spec (N_of_ascii c + 32) 13),
           (N.eqb_spec (N_of_ascii c + 32) 32), (N.eqb_spec (N_of_ascii c + 32) 160),
           (N.leb_spec 9 (N_of_ascii c)), (N.leb_spec (N_of_ascii c) 13),
           (N.eqb_spec (N_of_ascii c) 32), (N.eqb_spec (N_of_ascii c) 160);
    try reflexivity; lia.
Qed.

Lemma toLowerCase_skip_spaces (s : string) :
  toLowerCase (skip_spaces s) = skip_spaces (toLowerCase s).
Proof.
  induction s as [|c s IH]; [reflexivity|].
  cbn [skip_spaces toLowerCase]. rewrite lower_char_space.
  destruct (is_space c); [exact IH|reflexivity].
Qed.

Lemma toLowerCase_rev (s : string) :
  toLowerCase (rev_string s) = rev_string (toLowerCase s).
Proof.
  induction s as [|c s IH]; [reflexivity|].
  cbn [rev_string toLowerCase]. rewrite toLowerCase_app, IH. reflexivity.
Qed.

Lemma toLowerCase_trim (s : string) : toLowerCase (trim s) = trim (toLowerCase s).
Proof.
  unfold trim, trimEnd.
  rewrite toLowerCase_rev, toLowerCase_skip_spaces, toLowerCase_rev,
          toLowerCase_skip_spaces.
  reflexivity.
Qed.

Lemma skip_spaces_all (w r : string) :
  all_chars is_space w = true -> skip_spaces (w ++ r) = skip_spaces r.
Proof.
  induction w as [|c w IH]; [reflexivity|].
  cbn [all_chars append skip_spaces]. intros H. apply andb_true_iff in H.
  destruct H as [-> Hw]. exact (IH Hw).
Qed.

Lemma all_chars_rev (p : ascii -> bool) (s : string) :
  all_chars p (rev_string s) = all_chars p s.
Proof.
  induction s as [|c s IH]; [reflexivity|].
  cbn [rev_string all_chars]. rewrite all_chars_app, IH. cbn [all_chars].
  rewrite andb_true_r. apply andb_comm.
Qed.

Lemma trimEnd_spaces (x w : string) :
  all_chars is_space w = true -> trimEnd (x ++ w) = trimEnd x.
Proof.
  intros H. unfold trimEnd. rewrite rev_string_app, skip_spaces_all; [reflexivity|].
  rewrite all_chars_rev. exact H.
Qed.

Lemma trimEnd_last (x : string) (c : ascii) :
  is_space c = false -> trimEnd (x ++ String c "") = x ++ String c "".
Proof.
  intros H. unfold trimEnd. rewrite rev_string_app. cbn [rev_string append skip_spaces].
  rewrite H. change (String c (rev_string x)) with (rev_string (String c "") ++ rev_string x).
  rewrite <- rev_string_app, rev_string_involutive. reflexivity.
Qed.

Lemma last_char (s : string) : s <> "" -> exists x c, s = x ++ String c "".
Proof.
  induction s as [|c s IH]; [intros H; contradiction|]. intros _.
  destruct s as [|d s].
  - exists "", c. reflexivity.
  - destruct IH as (x & e & E); [discriminate|]. exists (String c x), e.
    cbn [append]. rewrite <- E. reflexivity.
Qed.

Lemma all_chars_last (p : ascii -> bool) (x : string) (c : ascii) :
  all_chars p (x ++ String c "") = true -> p c = true.
Proof.
  rewrite all_chars_app. cbn [all_chars]. rewrite andb_true_r.
  intros H. apply andb_true_iff in H. apply H.
Qed.

Lemma letter_not_space (c : ascii) : is_lower_letter c = true -> is_space c = false.
Proof.
  unfold is_lower_letter, is_space. cbv zeta. intros H.
  apply andb_true_iff in H. destruct H as [H1 H2]. apply N.leb_le in H1, H2.
  destruct (N.leb_spec 9 (code c)), (N.leb_spec (code c) 13),
           (N.eqb_spec (code c) 32), (N.eqb_spec (code c) 160);
    try reflexivity; lia.
Qed.

(** What [trim] leaves of a month word, white space and a year part. *)
Lemma trim_label (tok ws yr : string) (m : Z) :
  names_month tok m -> all_chars is_space ws = true -> year_text yr ->
  trim (tok ++ ws ++ yr) = tok ++ (if String.eqb yr "" then "" else ws) ++ yr.
Proof.
  intros Hm Hws Hyr.
  pose proof (names_month_word tok m Hm) as Hw.
  destruct (token_head tok m Hm) as (c0 & r0 & E0 & _).
  assert (Hskip : skip_spaces (tok ++ ws ++ yr) = tok ++ ws ++ yr).
  { rewrite E0 in *. cbn [append skip_spaces]. cbn [is_word all_chars] in Hw.
    apply andb_true_iff in Hw. destruct Hw as [Hc _].
    rewrite (letter_not_space c0 Hc). reflexivity. }
  unfold trim. rewrite Hskip.
  destruct (year_text_cases yr Hyr) as [->|(H4 & Hne & _)].
  - cbn [String.eqb]. rewrite !string_app_nil_r, (trimEnd_spaces tok ws Hws).
    destruct (last_char tok) as (x & c & E); [rewrite E0; discriminate|].
    rewrite E in *. apply trimEnd_last, letter_not_space.
    apply (all_chars_last is_lower_letter x c Hw).
  - rewrite Hne.
    destruct (four_digits_inv yr H4) as (d1 & d2 & d3 & d4 & -> & _ & _ & _ & Hd).
    change (tok ++ ws ++ String d1 (String d2 (String d3 (String d4 ""))))
      with (tok ++ ws ++ String d1 (String d2 (String d3 "")) ++ String d4 "").
    rewrite <- !string_app_assoc. apply trimEnd_last, digit_not_space, Hd.
Qed.

End TrimProofs.

(** The trimmed text of a name that the form accepts is accepted as
    the same month and year. *)
Lemma accepted_trim (s : string) (c m y : Z) :
  Period.parsePeriod s c = Some (m, y) ->
  Period.parsePeriod (JSString.trim s) c = Some (m, y).
Proof.
  intros Hp. apply parsePeriod_Some_iff in Hp.
  destruct Hp as ((tok & ws & yr & Hm & Hws & Hyr & Hlow & Hy) & Hrange).
  pose proof (trim_label tok ws yr m Hm Hws Hyr) as Ht.
  rewrite <- Hlow, <- toLowerCase_trim in Ht.
  apply parsePeriod_Some_iff. split; [|exact Hrange].
  exists tok, (if String.eqb yr "" then "" else ws), yr.
  repeat split; try assumption.
  destruct (String.eqb yr ""); [reflexivity|exact Hws].
Qed.

(** X13: a save stores [periodName.trim()], while the form reads the
    period from the name as it was typed. Nothing is lost: a name
    that the form accepts as month [m] of year [y] starts with no
    white space, and its trimmed text is not empty and is read as the
    same month and year. The trimming matters only for white space
    behind a month that has no year. *)
Theorem stored_name_reads_alike (s : string) (c m y : Z) :
  Period.parsePeriod s c = Some (m, y) ->
  Period.parsePeriod (JSString.trim s) c = Some (m, y)
  /\ JSString.trim s <> ""
  /\ JSString.skip_spaces s = s
  /\ (JSString.trim s = s \/ y = c).
Proof.
  intros Hp. apply parsePeriod_Some_iff in Hp.
  destruct Hp as ((tok & ws & yr & Hm & Hws & Hyr & Hlow & Hy) & Hrange).
  pose proof (trim_label tok ws yr m Hm Hws Hyr) as Ht.
  rewrite <- Hlow, <- toLowerCase_trim in Ht.
  destruct (token_head tok m Hm) as (c0 & r0 & E0 & _).
  split; [|split; [|split]].
  - apply accepted_trim, parsePeriod_Some_iff. split; [|exact Hrange].
    exists tok, ws, yr. repeat split; assumption.
  - intros E. rewrite E, E0 in Ht. discriminate Ht.
  - destruct s as [|c1 s1]; [reflexivity|].
    cbn [JSString.toLowerCase] in Hlow. rewrite E0 in Hlow. cbn [append] in Hlow.
    injection Hlow as Ec _.
    pose proof (names_month_word tok m Hm) as Hw. rewrite E0 in Hw.
    cbn [is_word PeriodSpec.all_chars] in Hw. apply andb_true_iff in Hw.
    destruct Hw as [Hc _]. apply letter_not_space in Hc.
    rewrite <- Ec, lower_char_space in Hc.
    cbn [JSString.skip_spaces]. rewrite Hc. reflexivity.
  - destruct (String.eqb_spec yr "") as [->|Hne].
    + right. rewrite Hy. reflexivity.
    + left. unfold JSString.trim.
      assert (Hskip : JSString.skip_spaces s = s).
      { destruct s as [|c1 s1]; [reflexivity|].
        cbn [JSString.toLowerCase] in Hlow. rewrite E0 in Hlow. cbn [append] in Hlow.
        injection Hlow as Ec _.
        pose proof (names_month_word tok m Hm) as Hw. rewrite E0 in Hw.
        cbn [is_word PeriodSpec.all_chars] in Hw. apply andb_true_iff in Hw.
        destruct Hw as [Hc _]. apply letter_not_space in Hc.
        rewrite <- Ec, lower_char_space in Hc.
        cbn [JSString.skip_spaces]. rewrite Hc. reflexivity. }
      rewrite Hskip.
      destruct (year_text_cases yr Hyr) as [->|(H4 & _ & _)]; [contradiction|].
      destruct (four_digits_inv yr H4) as (d1 & d2 & d3 & d4 & -> & _ & _ & _ & Hd).
      destruct (last_char s) as (x & e & ->).
      { intros ->. rewrite E0 in Hlow. discriminate Hlow. }
      apply trimEnd_last.
      rewrite toLowerCase_app in Hlow.
      change (tok ++ ws ++ String d1 (String d2 (String d3 (String d4 ""))))
        with (tok ++ ws ++ String d1 (String d2 (String d3 "")) ++ String d4 "") in Hlow.
      rewrite <- !string_app_assoc in Hlow.
      apply (f_equal JSString.rev_string) in Hlow.
      rewrite !rev_string_app in Hlow. cbn [JSString.toLowerCase JSString.rev_string append] in Hlow.
      injection Hlow as Ee _.
      rewrite <- (lower_char_space e), Ee. apply digit_not_space, Hd.
Qed.

Lemma stored_name_reads_alike_witness :
  Period.parsePeriod (JSString.trim "March  ") 2025 = Some (3, 2025)
  /\ JSString.trim "March  " <> "".
Proof.
  destruct (stored_name_reads_alike "March  " 2025 3 2025) as (H1 & H2 & _).
  - vm_compute. reflexivity.
  - split; [exact H1|exact H2].
Defined.

(** ** The yearly summary and the order on mount *)

(** *** The years of the summary divide the collection *)

Lemma filter_split {A : Type} (p : A -> bool) (l : list A) :
  Permutation (filter p l ++ filter (fun x => negb (p x)) l) l.
Proof.
  induction l as [|x l IH]; [constructor|].
  cbn [filter]. destruct (p x); cbn [negb app].
  - apply perm_skip, IH.
  - apply Permutation_sym, Permutation_cons_app, Permutation_sym, IH.
Qed.

Lemma groups_partition {A : Type} (f : A -> Z) (ys : list Z) :
  NoDup ys ->
  forall l, (forall x, In x l -> In (f x) ys) ->
  Permutation (List.concat (map (fun y => filter (fun x => f x =? y) l) ys)) l.
Proof.
  induction 1 as [|y ys Hy Hn IH]; intros l Hall.
  - destruct l as [|x l]; [constructor|]. destruct (Hall x (or_introl eq_refl)).
  - cbn [map List.concat].
    rewrite (map_ext_in _ (fun y' => filter (fun x => f x =? y')
                                       (filter (fun x => negb (f x =? y)) l))).
    + rewrite (IH (filter (fun x => negb (f x =? y)) l)).
      * apply filter_split.
      * intros x Hx. apply filter_In in Hx. destruct Hx as [Hx Hne].
        destruct (Hall x Hx) as [E|H]; [|exact H].
        rewrite E, Z.eqb_refl in Hne. discriminate Hne.
    + intros y' Hy'. induction l as [|x l IHl]; [reflexivity|].
      cbn [filter].
      destruct (Z.eqb_spec (f x) y') as [E|E]; destruct (Z.eqb_spec (f x) y) as [E'|E'];
        cbn [negb filter].
      * exfalso. apply Hy. rewrite <- E', E. exact Hy'.
      * rewrite E, Z.eqb_refl. f_equal. apply IHl. intros z Hz. apply Hall. right. exact Hz.
      * apply IHl. intros z Hz. apply Hall. right. exact Hz.
      * destruct (Z.eqb_spec (f x) y'); [contradiction|].
        apply IHl. intros z Hz. apply Hall. right. exact Hz.
Qed.

Lemma sumZ_app (a b : list Z) : sumZ (a ++ b) = sumZ a + sumZ b.
Proof. induction a as [|x a IH]; cbn [app sumZ fold_right] in *; [reflexivity|]. unfold sumZ in *. lia. Qed.

Lemma sumZ_perm (a b : list Z) : Permutation a b -> sumZ a = sumZ b.
Proof.
  unfold sumZ. induction 1; cbn [fold_right]; lia.
Qed.

Lemma sumZ_concat {A : Type} (g : A -> Z) (groups : list (list A)) :
  sumZ (map g (List.concat groups)) = sumZ (map (fun grp => sumZ (map g grp)) groups).
Proof.
  induction groups as [|grp groups IH]; [reflexivity|].
  cbn [List.concat map]. rewrite map_app, sumZ_app, IH. reflexivity.
Qed.

Lemma length_concat_sum {A : Type} (groups : list (list A)) :
  Z.of_nat (List.length (List.concat groups))
  = sumZ (map (fun grp => Z.of_nat (List.length grp)) groups).
Proof.
  induction groups as [|grp groups IH]; [reflexivity|].
  cbn [List.concat map]. rewrite length_app, Nat2Z.inj_add, IH. reflexivity.
Qed.

Lemma summary_total (tz : Z) (records : list AttendanceRecord) (y : Z) :
  sum_totalWorkingDays (summaryOfYear tz records y)
  = sumZ (map totalWorkingDays (inYear tz y records)).
Proof.
  unfold summaryOfYear, inYear. cbv zeta. cbn [sum_totalWorkingDays].
  rewrite fold_left_sumZ. lia.
Qed.

(** X14: the years of the summary divide the collection: every record is
    counted in exactly one year, the one of its timestamp. So the
    groups of the years, put together, are the collection again up to
    order, the total working days of the years add up to those of all
    records, the numbers of records of the years add up to the number
    of records, and there are no more years than records. *)
Theorem yearly_summary_divides (tz : Z) (records : list AttendanceRecord) :
  let summaries := calculateYearlySummary tz records in
  Permutation (yearGroups tz records) records
  /\ NoDup (map year summaries)
  /\ (forall r, In r records ->
        exists s, In s summaries /\ year s = fullYearOf tz (timestamp r)
                  /\ In r (inYear tz (year s) records))
  /\ sumZ (map sum_totalWorkingDays summaries) = sumZ (map totalWorkingDays records)
  /\ sumZ (map (fun s => Z.of_nat (List.length (inYear tz (year s) records))) summaries)
     = Z.of_nat (List.length records)
  /\ (List.length summaries <= List.length records)%nat
  /\ (forall s, In s summaries -> inYear tz (year s) records <> []).
Proof.
  cbv zeta.
  set (f := fun record : AttendanceRecord => fullYearOf tz (timestamp record)).
  set (years := js_sort descending (newSet (map f records))).
  assert (Hsum : calculateYearlySummary tz records = map (summaryOfYear tz records) years)
    by reflexivity.
  assert (Hyears : map year (calculateYearlySummary tz records) = years)
    by apply years_of_summary.
  assert (Hnd : NoDup years).
  { apply (Permutation_NoDup (Permutation_sym (js_sort_perm _ _))), newSet_NoDup. }
  assert (Hin : forall y, In y years <-> In y (map f records)).
  { intros y. unfold years. rewrite js_sort_In, newSet_In. reflexivity. }
  assert (Hgroups : yearGroups tz records
                    = List.concat (map (fun y => filter (fun x => f x =? y) records) years)).
  { unfold yearGroups. rewrite <- Hyears, map_map. reflexivity. }
  assert (Hperm : Permutation (yearGroups tz records) records).
  { rewrite Hgroups. apply groups_partition; [exact Hnd|].
    intros x Hx. apply Hin, in_map, Hx. }
  split; [exact Hperm|]. split; [rewrite Hyears; exact Hnd|]. split.
  { intros r Hr. exists (summaryOfYear tz records (f r)).
    split; [rewrite Hsum; apply in_map, Hin, in_map, Hr|].
    split; [reflexivity|].
    unfold inYear. apply filter_In. split; [exact Hr|]. apply Z.eqb_refl. }
  split.
  { rewrite <- (sumZ_perm _ _ (Permutation_map totalWorkingDays Hperm)).
    unfold yearGroups. rewrite sumZ_concat, map_map.
    f_equal. apply map_ext_in. intros s Hs. rewrite Hsum in Hs.
    apply in_map_iff in Hs. destruct Hs as (y & <- & _). apply summary_total. }
  split.
  { rewrite <- (Permutation_length Hperm). unfold yearGroups.
    rewrite length_concat_sum, map_map. reflexivity. }
  split.
  { rewrite Hsum, length_map.
    apply (Nat.le_trans _ (List.length (map f records))); [|rewrite length_map; lia].
    apply NoDup_incl_length; [exact Hnd|]. intros y Hy. apply Hin, Hy. }
  intros s Hs E. rewrite Hsum in Hs. apply in_map_iff in Hs.
  destruct Hs as (y & <- & Hy). apply Hin, in_map_iff in Hy.
  destruct Hy as (r & Er & Hr).
  assert (Hr' : In r (inYear tz (year (summaryOfYear tz records y)) records)).
  { unfold inYear. apply filter_In. split; [exact Hr|]. apply Z.eqb_eq. exact Er. }
  rewrite E in Hr'. destruct Hr'.
Qed.

(** *** Sorting what is sorted *)

Lemma js_sort_fixed {A : Type} (cmp : A -> A -> option Z) (key : A -> Z) (l : list A) :
  keyed_by cmp key l -> sorted_desc key l -> js_sort cmp l = l.
Proof.
  unfold sorted_desc. intros Hk Hs. induction Hs as [|x l Hs IH Hx]; [reflexivity|].
  cbn [js_sort]. rewrite IH.
  - destruct l as [|y l]; [reflexivity|]. cbn [sort_insert].
    rewrite (keyed_by_compare cmp key (x :: y :: l) x y Hk);
      [|left; reflexivity|right; left; reflexivity].
    apply Forall_inv in Hx.
    destruct (Z.leb_spec (key y - key x) 0); [reflexivity|lia].
  - intros a b Ha Hb. apply Hk; right; assumption.
Qed.

Lemma validKeys_perm (tz : Z) (l l' : list AttendanceRecord) :
  Permutation l l' -> validKeys tz l = true -> validKeys tz l' = true.
Proof.
  unfold validKeys. intros P H. rewrite forallb_forall in *.
  intros r Hr. apply H. apply (Permutation_in _ (Permutation_sym P)), Hr.
Qed.

(** X15: the effect on mount of the README variant sorts what it reads.
    When no period name of the stored records gives an invalid date,
    the collection after the mount is sorted by period, latest first,
    and holds the stored records; a stored list that is sorted already
    is taken as it is. In particular the list that a save has written
    comes back record for record in the same order, as long as the
    time zone is the same. *)
Theorem readme_load_order (env : Env) (st0 : AppState) (l : list AttendanceRecord) :
  JSON_parse_slot (st_localStorage st0) = Parsed l ->
  validKeys (tzOffset env) l = true ->
  exists st,
    Readme.loadEffect env st0 = Some st
    /\ sorted_desc (sortKey (tzOffset env)) (st_attendanceRecords st)
    /\ Permutation (st_attendanceRecords st) l
    /\ (sorted_desc (sortKey (tzOffset env)) l -> st_attendanceRecords st = l)
    /\ (forall env1 st1,
          tzOffset env1 = tzOffset env ->
          draftInvalid (JSNumber.of_Z (st_totalWorkingDays st1))
                       (parseFloat_field (st_daysAttended st1)) (st_periodName st1)
          = false ->
          l = st_attendanceRecords (Readme.saveOrUpdateAttendance env1 st1) ->
          st_attendanceRecords st = l).
Proof.
  intros E Hv.
  destruct (readme_load_parsed env st0 l E) as (st & Hload & Hrec).
  pose proof (period_keyed _ _ (validKeys_Forall _ _ Hv)) as Hk.
  assert (Hfix : sorted_desc (sortKey (tzOffset env)) l -> st_attendanceRecords st = l).
  { intros Hs. rewrite Hrec. apply (js_sort_fixed _ (sortKey (tzOffset env))); assumption. }
  exists st. split; [exact Hload|].
  split; [rewrite Hrec; apply js_sort_sorted, Hk|].
  split; [rewrite Hrec; apply js_sort_perm|].
  split; [exact Hfix|].
  intros env1 st1 Htz Hd El. apply Hfix.
  destruct (save_records (Readme.comparefn (tzOffset env1)) env1 st1 Hd) as (Hsaved & _).
  unfold Readme.saveOrUpdateAttendance in El. rewrite Hsaved, Htz in El.
  rewrite El. apply js_sort_sorted, period_keyed.
  apply validKeys_Forall.
  apply (validKeys_perm _ l); [|exact Hv].
  rewrite El. apply js_sort_perm.
Qed.

Lemma readme_load_order_witness :
  exists st,
    Readme.loadEffect sampleEnv
      (setItem (Some (JSON_stringify [recordMarch; recordApril])) initialState) = Some st
    /\ sorted_desc (sortKey (tzOffset sampleEnv)) (st_attendanceRecords st).
Proof.
  destruct (readme_load_order sampleEnv
              (setItem (Some (JSON_stringify [recordMarch; recordApril])) initialState)
              [recordMarch; recordApril])
    as (st & H1 & H2 & _).
  - vm_compute. reflexivity.
  - vm_compute. reflexivity.
  - exists st. split; [exact H1|exact H2].
Defined.

(** ** The component over its life *)

Lemma number_is_refl (x : JSNumber.number) : number_is x x = true.
Proof.
  destruct x as [|b|q]; cbn [number_is]; [reflexivity|apply eqb_reflx|].
  apply Qeq_bool_iff. reflexivity.
Qed.

Lemma field_is_refl (a : field) : field_is a a = true.
Proof. destruct a; cbn [field_is]; [apply String.eqb_refl|apply number_is_refl]. Qed.

Lemma quot_Qeq (p q : Q) :
  (p == q)%Q -> Z.quot (Qnum p) (Z.pos (Qden p)) = Z.quot (Qnum q) (Z.pos (Qden q)).
Proof.
  unfold Qeq. intros H.
  rewrite <- (Z.quot_mul_cancel_r (Qnum p) (Z.pos (Qden p)) (Z.pos (Qden q))) by lia.
  rewrite <- (Z.quot_mul_cancel_r (Qnum q) (Z.pos (Qden q)) (Z.pos (Qden p))) by lia.
  rewrite H. f_equal. lia.
Qed.

Lemma field_is_parseInt (a b : field) :
  field_is a b = true -> parseInt_or_0 a = parseInt_or_0 b.
Proof.
  destruct a as [s|x], b as [t|y]; cbn [field_is]; try discriminate.
  - intros H. apply String.eqb_eq in H. subst t. reflexivity.
  - destruct x as [|a|p], y as [|b|q]; cbn [number_is]; try discriminate;
      try reflexivity.
    intros H. apply Qeq_bool_iff in H.
    unfold parseInt_or_0, parseInt_field. rewrite (quot_Qeq p q H). reflexivity.
Qed.

Lemma workingDaysEffect_holidays (name : string) (h h' : field) (c : Z) :
  parseInt_or_0 h = parseInt_or_0 h' ->
  workingDaysEffect name h c = workingDaysEffect name h' c.
Proof. intros H. unfold workingDaysEffect. rewrite H. reflexivity. Qed.

Lemma workingDaysEffect_le_26 (name : string) (h : field) (c : Z) :
  0 <= parseInt_or_0 h -> workingDaysEffect name h c <= 26.
Proof.
  intros Hk. unfold workingDaysEffect.
  destruct (Period.parsePeriod name c) as [[m y]|] eqn:E; [|lia].
  apply parsePeriod_Some_iff in E. destruct E as ((tok & ws & yr & Hm & _) & Hy).
  pose proof (proj2 (month_of_token tok m Hm)) as Hm'.
  pose proof (working_days_23_26 m y Hm' Hy).
  pose proof (calculateMonthlyWorkingDays_antitone m y 0 (parseInt_or_0 h) Hk). lia.
Qed.

Lemma consistent_storable (r : AttendanceRecord) : consistent r -> storable r.
Proof.
  intros (_ & _ & _ & a & n & Ea & _ & Ep & _). exists a, (Qred (n # 100)).
  split; assumption.
Qed.

Lemma collection_storable (l : list AttendanceRecord) :
  collectionOk l -> Forall storable l.
Proof.
  intros [H _]. rewrite Forall_forall in *. intros r Hr.
  apply consistent_storable, (H r Hr).
Qed.

Lemma collection_perm (l l' : list AttendanceRecord) :
  Permutation l l' -> collectionOk l -> collectionOk l'.
Proof.
  intros P [H N]. split.
  - apply (Forall_perm _ _ _ P H).
  - apply (Permutation_NoDup (Permutation_map id P) N).
Qed.

Lemma collection_filter (p : AttendanceRecord -> bool) (l : list AttendanceRecord) :
  collectionOk l -> collectionOk (filter p l).
Proof.
  intros [H N]. split.
  - rewrite Forall_forall in *. intros r Hr. apply filter_In in Hr. apply H, Hr.
  - apply NoDup_ids_filter, N.
Qed.

(** A collection that has just been written is in the storage. *)
Lemma written_persisted (v : variant) (st : AppState) :
  collectionOk (st_attendanceRecords st) ->
  st_localStorage st = Some (JSON_stringify (st_attendanceRecords st)) ->
  persisted v st.
Proof.
  intros Hc Hs. unfold persisted. rewrite Hs.
  rewrite (JSON_roundtrip _ (collection_storable _ Hc)).
  split; [reflexivity|intros _; reflexivity].
Qed.

Lemma persisted_cells (v : variant) (st st' : AppState) :
  st_attendanceRecords st' = st_attendanceRecords st ->
  st_localStorage st' = st_localStorage st ->
  persisted v st -> persisted v st'.
Proof. unfold persisted. intros -> ->. exact (fun H => H). Qed.

Lemma editing_cells (st st' : AppState) :
  st_attendanceRecords st' = st_attendanceRecords st ->
  st_editingRecordId st' = st_editingRecordId st ->
  editingOk st -> editingOk st'.
Proof. unfold editingOk. intros -> ->. exact (fun H => H). Qed.

Lemma shown_cells (st st' : AppState) :
  st_editingRecordId st' = st_editingRecordId st ->
  st_attendancePercentage st' = st_attendancePercentage st ->
  st_totalWorkingDays st' = st_totalWorkingDays st ->
  st_daysAttended st' = st_daysAttended st ->
  shownOk st -> shownOk st'.
Proof. unfold shownOk. intros -> -> -> ->. exact (fun H => H). Qed.

Lemma banner_cells (st st' : AppState) :
  st_message st' = st_message st -> st_messageType st' = st_messageType st ->
  bannerPaired st -> bannerPaired st'.
Proof. unfold bannerPaired. intros -> ->. exact (fun H => H). Qed.

Lemma dialogue_cells (st st' : AppState) :
  st_showDeleteConfirm st' = st_showDeleteConfirm st ->
  st_recordToDelete st' = st_recordToDelete st ->
  dialoguePaired st -> dialoguePaired st'.
Proof. unfold dialoguePaired. intros -> ->. exact (fun H => H). Qed.

Lemma editingOk_truthy (st : AppState) :
  editingOk st -> truthy (st_editingRecordId st) = false -> st_editingRecordId st = None.
Proof.
  unfold editingOk, truthy. destruct (st_editingRecordId st) as [i|]; [|reflexivity].
  intros [Hi _] H. apply negb_false_iff, String.eqb_eq in H. contradiction.
Qed.

Lemma clamp_nonneg (val : string) :
  0 <= parseInt_or_0 (if String.eqb val "" then FText ""
                      else FNumber (Math_max_0 (JSString.parseInt val))).
Proof.
  destruct (String.eqb val ""); [vm_compute; discriminate|].
  destruct (JSString.parseInt val) as [n|]; cbn [Math_max_0].
  - rewrite parseInt_or_0_of_Z. lia.
  - vm_compute. discriminate.
Qed.

Ltac frame st :=
  first
    [ assumption
    | reflexivity
    | exact I
    | apply (persisted_cells _ st); [reflexivity|reflexivity|assumption]
    | apply (editing_cells st); [reflexivity|reflexivity|assumption]
    | apply (banner_cells st); [reflexivity|reflexivity|assumption]
    | apply (dialogue_cells st); [reflexivity|reflexivity|assumption]
    | (right; right; reflexivity)
    | (left; split; [reflexivity|split; [reflexivity|
         apply (shown_cells st);
         [reflexivity|reflexivity|reflexivity|reflexivity|assumption]]]) ].

(** *** The handlers, one by one *)

Lemma typing_handled (v : variant) (st : AppState) (value : string) :
  invariant v st ->
  handled v st (changePeriodName value st)
  /\ handled v st (changeExtraHolidays value st)
  /\ handled v st (changeDaysAttended value st).
Proof.
  intros [Hl Hb Hd Hc Ho He [Hh Ht] Hs Hp].
  split; [|split].
  - constructor; unfold changePeriodName; run_cells; frame st.
  - constructor; unfold changeExtraHolidays; run_cells; try frame st.
    apply clamp_nonneg.
  - constructor; unfold changeDaysAttended; run_cells; frame st.
Qed.

Lemma small_handled (v : variant) (env : Env) (st : AppState) :
  invariant v st ->
  handled v st (Readme.plusOneTimeout st)
  /\ handled v st (handleBackToMain env st)
  /\ handled v st (dismissMessage st)
  /\ handled v st (cancelDelete st).
Proof.
  intros [Hl Hb Hd Hc Ho He [Hh Ht] Hs Hp].
  split; [|split; [|split]].
  - constructor; unfold Readme.plusOneTimeout; run_cells; frame st.
  - constructor; unfold handleBackToMain; run_cells; frame st.
  - constructor; unfold dismissMessage; run_cells; frame st.
  - constructor; unfold cancelDelete; run_cells; try frame st.
    unfold dialoguePaired. run_cells. split; [discriminate|intros H; contradiction].
Qed.

Lemma record_handled (v : variant) (st : AppState) (r : AttendanceRecord) :
  invariant v st -> In r (st_attendanceRecords st) ->
  handled v st (clickRecord r st) /\ handled v st (handleDeleteClick r st).
Proof.
  intros [Hl Hb Hd Hc Ho He [Hh Ht] Hs Hp] Hr.
  assert (Hok : recordOk r).
  { destruct Hc as [Hall _]. rewrite Forall_forall in Hall. apply Hall, Hr. }
  destruct Hok as (_ & Hid & Hhol & _).
  split.
  - unfold clickRecord. destruct (isEditing st r); [constructor; frame st|].
    constructor; unfold handleEditRecord; run_cells; try frame st.
    + unfold editingOk. run_cells. split; [exact Hid|apply in_map, Hr].
    + rewrite holidays_roundtrip. exact Hhol.
    + right. left. cbn [truthy]. apply negb_true_iff, String.eqb_neq, Hid.
  - constructor; unfold handleDeleteClick; run_cells; try frame st.
    unfold dialoguePaired. run_cells. split; [discriminate|reflexivity].
Qed.

Lemma calculate_handled (v : variant) (st : AppState) :
  invariant v st -> handled v st (calculateAttendance st).
Proof.
  intros [Hl Hb Hd Hc Ho He [Hh Ht] Hs Hp].
  unfold calculateAttendance. cbv zeta.
  destruct (JSNumber.le _ _) eqn:E1.
  { constructor; run_cells; try frame st.
    unfold bannerPaired. run_cells. cbn [In]. tauto. }
  destruct (JSNumber.isNaN _) eqn:E2.
  { cbn [orb]. constructor; run_cells; try frame st.
    unfold bannerPaired. run_cells. cbn [In]. tauto. }
  destruct (JSNumber.lt _ _) eqn:E3.
  { cbn [orb]. constructor; run_cells; try frame st.
    unfold bannerPaired. run_cells. cbn [In]. tauto. }
  cbn [orb].
  destruct (JSNumber.gt _ _) eqn:E4.
  { constructor; run_cells; try frame st.
    unfold bannerPaired. run_cells. cbn [In]. tauto. }
  constructor; run_cells; try frame st.
  left. split; [reflexivity|split; [reflexivity|]].
  unfold shownOk. run_cells. intros _ _.
  destruct (checks_passed _ _ E1 E2 E3 E4) as [H1 H2].
  split; [exact H1|split; [exact H2|reflexivity]].
Qed.

(** The record made from a valid form is a record as the collection
    wants it. *)
Lemma draft_recordOk (env : Env) (st : AppState) (attended : JSNumber.number)
    (name : string) :
  formOk st -> randomUUID env <> "" ->
  JSString.trim name = JSString.trim (st_periodName st) ->
  draftInvalid (JSNumber.of_Z (st_totalWorkingDays st)) attended name = false ->
  recordOk (mkRecord (JSString.trim name) (st_totalWorkingDays st) attended
                     (parseInt_or_0 (st_extraHolidays st))
                     (roundedPercentage attended (JSNumber.of_Z (st_totalWorkingDays st)))
                     (now env) (idOrFresh env st)).
Proof.
  intros [Hh (cy & Ht)] Hu Hname Hv. unfold recordOk.
  cbn [id extraHolidays totalWorkingDays periodName].
  split; [apply draft_consistent, Hv|]. split; [apply idOrFresh_nonempty, Hu|].
  split; [exact Hh|]. split; [rewrite Ht; apply workingDaysEffect_le_26, Hh|].
  exists cy. rewrite Hname.
  destruct (draftInvalid_false _ _ _ Hv) as (Hpos & _).
  destruct (Period.parsePeriod (st_periodName st) cy) as [[m y]|] eqn:E.
  - rewrite (accepted_trim _ _ _ _ E). discriminate.
  - rewrite (parsePeriod_invalid_no_days _ (st_extraHolidays st) _ E) in Ht. lia.
Qed.

Lemma recordOk_validKey (tz : Z) (r : AttendanceRecord) :
  Z.abs tz <= msPerDay -> recordOk r -> validKey tz r.
Proof.
  intros Htz (_ & _ & _ & _ & c & Hc). unfold validKey.
  apply (accepted_key_valid tz _ c Htz Hc).
Qed.

(** A list that a variant has sorted with its comparator is in its
    order. *)
Lemma sorted_ordered (v : variant) (env : Env) (l : list AttendanceRecord) :
  saneEnv env -> Forall recordOk l -> ordered v (js_sort (comparefn_of v env) l).
Proof.
  intros [_ Htz] Hall. destruct v; cbn [ordered comparefn_of].
  - apply js_sort_sorted, timestamp_keyed.
  - exists (tzOffset env). split; [exact Htz|].
    apply js_sort_sorted, period_keyed.
    rewrite Forall_forall in *. intros r Hr. apply recordOk_validKey; [exact Htz|].
    apply Hall, Hr.
Qed.

Lemma placed_collection (env : Env) (st : AppState) (new : AttendanceRecord)
    (cmp : AttendanceRecord -> AttendanceRecord -> option Z) :
  recordOk new -> id new = idOrFresh env st ->
  ~ In (randomUUID env) (map id (st_attendanceRecords st)) ->
  collectionOk (st_attendanceRecords st) ->
  collectionOk (js_sort cmp (placed st new)).
Proof.
  intros Hnew Hid Hf [Hall Hn]. split.
  - apply js_sort_Forall, placed_Forall; assumption.
  - apply NoDup_ids_sorted, (placed_NoDup env); assumption.
Qed.

Lemma placed_editing (env : Env) (st : AppState) (new : AttendanceRecord)
    (cmp : AttendanceRecord -> AttendanceRecord -> option Z) (i : string) :
  id new = idOrFresh env st ->
  truthy (st_editingRecordId st) = true ->
  In i (map id (st_attendanceRecords st)) ->
  In i (map id (js_sort cmp (placed st new))).
Proof.
  intros Hid Ht Hi.
  apply (Permutation_in _ (Permutation_map id (Permutation_sym (js_sort_perm cmp _)))).
  rewrite (placed_ids env st new Hid), Ht. exact Hi.
Qed.

Lemma save_handled (v : variant) (env : Env) (st : AppState) :
  invariant v st -> saneEnv env -> freshId env st ->
  handled v st (saveOrUpdateAttendance_with (comparefn_of v env) env st).
Proof.
  intros [Hl Hb Hd Hc Ho He Hf Hs Hp] Hsane Hfresh.
  pose proof Hsane as [Hu _]. pose proof Hf as [Hh Ht].
  unfold saveOrUpdateAttendance_with. cbv zeta.
  destruct (draftInvalid _ _ _) eqn:Hv.
  { constructor; run_cells; try frame st.
    unfold bannerPaired. run_cells. cbn [In]. tauto. }
  pose proof (draft_recordOk env st _ _ Hf Hu eq_refl Hv) as Hnew.
  fold (draftRecord env st) in *.
  pose proof (placed_collection env st (draftRecord env st) (comparefn_of v env)
                Hnew eq_refl Hfresh Hc) as Hcoll.
  pose proof (sorted_ordered v env (placed st (draftRecord env st)) Hsane
                (placed_Forall _ st _ Hnew (proj1 Hc))) as Hord.
  unfold placed in Hcoll, Hord.
  destruct (truthy (st_editingRecordId st)) eqn:Etr.
  - (* update *)
    constructor; run_cells; try frame st.
    + unfold bannerPaired. run_cells. cbn [In]. tauto.
    + unfold editingOk in *. run_cells.
      destruct (st_editingRecordId st) as [i|] eqn:Ei; [|exact I].
      destruct He as [Hi Hin]. split; [exact Hi|].
      pose proof (placed_editing env st (draftRecord env st) (comparefn_of v env) i
                    eq_refl) as H.
      unfold placed in H. rewrite Ei in H. cbn [truthy] in *. rewrite Etr in H.
      apply H; [reflexivity|exact Hin].
    + apply written_persisted; run_cells; [exact Hcoll|reflexivity].
    + right. left. exact Etr.
  - (* create *)
    constructor; run_cells; try frame st.
    + unfold bannerPaired. run_cells. cbn [In]. tauto.
    + unfold editingOk. run_cells. rewrite (editingOk_truthy st He Etr). exact I.
    + apply written_persisted; run_cells; [exact Hcoll|reflexivity].
Qed.

Lemma plusOne_handled (env : Env) (st : AppState) :
  invariant InReadme st -> saneEnv env -> freshId env st ->
  truthy (st_editingRecordId st) = true ->
  handled InReadme st (Readme.handlePlusOne env st).
Proof.
  intros [Hl Hb Hd Hc Ho He Hf Hs Hp] Hsane Hfresh Etr.
  pose proof Hsane as [Hu _]. pose proof Hf as [Hh Ht].
  unfold Readme.handlePlusOne. cbv zeta. fold (plusOneDays st).
  destruct (JSNumber.gt _ _).
  { constructor; run_cells; try frame st.
    unfold bannerPaired. run_cells. cbn [In]. tauto. }
  destruct (draftInvalid _ _ _) eqn:Hv.
  { constructor; run_cells; try frame st.
    unfold bannerPaired. run_cells. cbn [In]. tauto. }
  pose proof (draft_recordOk env st _ _ Hf Hu (trim_idempotent _) Hv) as Hnew.
  rewrite trim_idempotent in Hnew. fold (plusOneRecord env st) in *.
  pose proof (placed_collection env st (plusOneRecord env st)
                (Readme.comparefn (tzOffset env)) Hnew eq_refl Hfresh Hc) as Hcoll.
  pose proof (sorted_ordered InReadme env (placed st (plusOneRecord env st)) Hsane
                (placed_Forall _ st _ Hnew (proj1 Hc))) as Hord.
  cbn [comparefn_of] in Hord. unfold placed in Hcoll, Hord.
  rewrite Etr in *.
  constructor; run_cells; try frame st.
  - unfold bannerPaired. run_cells. cbn [In]. tauto.
  - unfold editingOk in *. run_cells.
    destruct (st_editingRecordId st) as [i|] eqn:Ei; [|exact I].
    destruct He as [Hi Hin]. split; [exact Hi|].
    pose proof (placed_editing env st (plusOneRecord env st)
                  (Readme.comparefn (tzOffset env)) i eq_refl) as H.
    unfold placed in H. rewrite Ei in H. cbn [truthy] in *. rewrite Etr in H.
    apply H; [reflexivity|exact Hin].
  - apply written_persisted; run_cells; [exact Hcoll|reflexivity].
Qed.

Lemma others_editing (st : AppState) (r : AttendanceRecord) (i : string)
    (l' : list AttendanceRecord) :
  st_editingRecordId st = Some i -> isEditing st r = false ->
  In i (map id (st_attendanceRecords st)) ->
  Permutation l'
    (filter (fun rec => negb (String.eqb (id rec) (id r))) (st_attendanceRecords st)) ->
  In i (map id l').
Proof.
  intros Ei Hed Hin P. unfold isEditing in Hed. rewrite Ei in Hed.
  apply (Permutation_in _ (Permutation_map id (Permutation_sym P))).
  apply in_map_iff in Hin. destruct Hin as (x & Ex & Hx).
  apply in_map_iff. exists x. split; [exact Ex|].
  apply filter_In. split; [exact Hx|].
  apply negb_true_iff, String.eqb_neq. intros E. rewrite Ex in E.
  apply String.eqb_neq in Hed. apply Hed. symmetry. exact E.
Qed.

Lemma reordered_ordered (v : variant) (env : Env) (p : AttendanceRecord -> bool)
    (l : list AttendanceRecord) :
  saneEnv env -> Forall recordOk l -> ordered v l ->
  ordered v (reordered v env (filter p l)).
Proof.
  intros Hsane Hall Ho. destruct v; cbn [reordered].
  - cbn [ordered] in *. apply sorted_desc_filter, Ho.
  - apply (sorted_ordered InReadme env (filter p l) Hsane).
    rewrite Forall_forall in *. intros r Hr. apply filter_In in Hr. apply Hall, Hr.
Qed.

Lemma confirm_handled (v : variant) (env : Env) (st : AppState) :
  invariant v st -> saneEnv env -> handled v st (confirmDelete_of v env st).
Proof.
  intros [Hl Hb Hd Hc Ho He [Hh Ht] Hs Hp] Hsane.
  assert (Hshape : confirmDelete_of v env st =
    match st_recordToDelete st with
    | Some recordToDelete =>
        let updatedRecords :=
          reordered v env
            (filter (fun rec => negb (String.eqb (id rec) (id recordToDelete)))
                    (st_attendanceRecords st)) in
        run [setAttendanceRecords updatedRecords;
             setItem (Some (JSON_stringify updatedRecords));
             setMessage (Some Msg.deleted);
             setMessageType (Some success);
             setShowDeleteConfirm false;
             setRecordToDelete None;
             if isEditing st recordToDelete then handleBackToMain env else (fun s => s)] st
    | None => st
    end) by (destruct v; reflexivity).
  rewrite Hshape. clear Hshape.
  destruct (st_recordToDelete st) as [r|] eqn:Er; [|constructor; frame st].
  cbv zeta.
  pose proof (reordered_ordered v env
                (fun rec => negb (String.eqb (id rec) (id r))) _ Hsane (proj1 Hc) Ho)
    as Hord.
  set (others := filter (fun rec => negb (String.eqb (id rec) (id r)))
                        (st_attendanceRecords st)) in *.
  pose proof (reordered_perm v env others) as P.
  assert (Hcoll : collectionOk (reordered v env others)).
  { apply (collection_perm _ _ (Permutation_sym P)), collection_filter, Hc. }
  destruct (isEditing st r) eqn:Eed.
  - constructor; unfold handleBackToMain; run_cells; try frame st.
    + unfold dialoguePaired. run_cells. split; [discriminate|intros H; contradiction].
    + apply written_persisted; run_cells; [exact Hcoll|reflexivity].
  - constructor; run_cells; try frame st.
    + unfold bannerPaired. run_cells. cbn [In]. tauto.
    + unfold dialoguePaired. run_cells. split; [discriminate|intros H; contradiction].
    + unfold editingOk in *. run_cells.
      destruct (st_editingRecordId st) as [i|] eqn:Ei; [|exact I].
      destruct He as [Hi Hin]. split; [exact Hi|].
      apply (others_editing st r i _ Ei Eed Hin P).
    + apply written_persisted; run_cells; [exact Hcoll|reflexivity].
Qed.

(** Every handler that the page offers leaves the invariant but for
    the total working days, which is the part of the effect. *)
Lemma handler_handled (v : variant) (env : Env) (ev : event) (st : AppState) :
  invariant v st -> saneEnv env -> freshId env st -> offered v ev st = true ->
  handled v st (handler v env ev st).
Proof.
  intros Hinv Hsane Hfresh Hoff.
  unfold offered in Hoff. apply andb_true_iff in Hoff. destruct Hoff as [_ Hoff].
  destruct ev; cbn [handler].
  - apply (typing_handled v st value Hinv).
  - apply (typing_handled v st val Hinv).
  - apply (typing_handled v st value Hinv).
  - destruct (truthy (st_editingRecordId st)).
    + rewrite saveOrUpdateAttendance_of_with. apply save_handled; assumption.
    + apply calculate_handled, Hinv.
  - rewrite saveOrUpdateAttendance_of_with. apply save_handled; assumption.
  - destruct v; [discriminate Hoff|].
    apply andb_true_iff in Hoff. destruct Hoff as [Etr _].
    apply plusOne_handled; assumption.
  - apply (small_handled v env st Hinv).
  - apply (small_handled v env st Hinv).
  - apply (small_handled v env st Hinv).
  - destruct (nth_error (st_attendanceRecords st) n) as [r|] eqn:En;
      [|discriminate Hoff].
    apply (record_handled v st r Hinv (nth_error_In _ _ En)).
  - destruct (nth_error (st_attendanceRecords st) n) as [r|] eqn:En;
      [|discriminate Hoff].
    apply (record_handled v st r Hinv (nth_error_In _ _ En)).
  - apply (small_handled v env st Hinv).
  - apply confirm_handled; assumption.
Qed.

(** *** Events, mounts, and all that can be reached *)

Lemma effect_invariant (v : variant) (env : Env) (st st' : AppState) :
  handled v st st' ->
  truthy (st_editingRecordId st') = true \/ st_attendancePercentage st' = None ->
  invariant v (runWorkingDaysEffect env st').
Proof.
  intros [Hl Hb Hd Hc Ho He Hh Hp Ht _] Hnodeps. unfold runWorkingDaysEffect.
  constructor;
    [ exact Hl | exact Hb | exact Hd | exact Hc | exact Ho
    | apply (editing_cells st'); [reflexivity|reflexivity|exact He]
    | split; [exact Hh | eexists; reflexivity]
    |
    | apply (persisted_cells v st'); [reflexivity|reflexivity|exact Hp] ].
  unfold shownOk. run_cells. destruct Hnodeps as [Htr|Hnone].
  - intros Hfalse. rewrite Htr in Hfalse. discriminate Hfalse.
  - intros _ Hsome. contradiction.
Qed.

Lemma step_invariant (v : variant) (env env' : Env) (ev : event) (st : AppState) :
  invariant v st -> saneEnv env -> freshId env st ->
  invariant v (step v env env' ev st).
Proof.
  intros Hinv Hsane Hfresh. unfold step.
  destruct (offered v ev st) eqn:Hoff; [|exact Hinv].
  pose proof (handler_handled v env ev st Hinv Hsane Hfresh Hoff) as H.
  cbv zeta. set (st' := handler v env ev st) in *.
  pose proof H as [Hl Hb Hd Hc Ho He Hh Hp Ht Hdeps].
  destruct Hinv as [_ _ _ _ _ _ [_ (cy & Hsync)] _ _].
  unfold depsChanged.
  destruct (String.eqb_spec (st_periodName st) (st_periodName st')) as [En|En];
    [destruct (field_is (st_extraHolidays st) (st_extraHolidays st')) eqn:Ef|];
    cbn [andb negb].
  - (* no dependency has changed: the effect does not run *)
    constructor; try assumption.
    + split; [exact Hh|]. exists cy. rewrite Ht, Hsync, <- En.
      apply workingDaysEffect_holidays, field_is_parseInt, Ef.
    + destruct Hdeps as [(_ & _ & Hs)|[Htr|Hnone]]; [exact Hs| |].
      * intros Hfalse. rewrite Htr in Hfalse. discriminate Hfalse.
      * intros _ Hsome. contradiction.
  - (* the extra holidays have changed *)
    apply (effect_invariant v env' st st' H).
    destruct Hdeps as [(_ & E & _)|Hn]; [|exact Hn].
    rewrite E, field_is_refl in Ef. discriminate Ef.
  - (* the period name has changed *)
    apply (effect_invariant v env' st st' H).
    destruct Hdeps as [(E & _ & _)|Hn]; [|exact Hn].
    symmetry in E. contradiction.
Qed.

Lemma mount_invariant (v : variant) (env : Env) (slot : option stored_item)
    (st : AppState) :
  saneEnv env ->
  match JSON_parse_slot slot with
  | NothingStored => True
  | Parsed l => collectionOk l /\ (v = InAppJsx -> sorted_desc timestamp l)
  | ParseFailed | OutsideSchema => False
  end ->
  mount v env slot = Some st -> invariant v st.
Proof.
  intros Hsane Hslot. unfold mount.
  set (st0 := setItem slot initialState).
  assert (Hload : loadEffect_of v env st0 =
    match JSON_parse_slot slot with
    | NothingStored =>
        Some (run [setPeriodName (todayPeriod env); setIsLoading false] st0)
    | ParseFailed =>
        Some (run [setPeriodName (todayPeriod env);
                   setMessage (Some Msg.loadFailed);
                   setMessageType (Some error);
                   setIsLoading false] st0)
    | Parsed parsedRecords =>
        Some (run [setPeriodName (todayPeriod env);
                   setAttendanceRecords (reordered v env parsedRecords);
                   match reordered v env parsedRecords with
                   | lastRecord :: _ => handleEditRecord lastRecord
                   | [] => fun s => s
                   end;
                   setIsLoading false] st0)
    | OutsideSchema => None
    end) by (destruct v; reflexivity).
  rewrite Hload. clear Hload.
  destruct (JSON_parse_slot slot) as [| |l|] eqn:Eslot; try contradiction.
  - cbn [option_map]. intros H. injection H as <-.
    unfold runWorkingDaysEffect, st0, initialState.
    constructor; run_cells.
    + reflexivity.
    + exact I.
    + unfold dialoguePaired. run_cells. split; [discriminate|intros H; contradiction].
    + split; constructor.
    + destruct v; cbn [ordered]; [constructor|].
      exists 0. split; [unfold msPerDay; lia|constructor].
    + exact I.
    + split; [reflexivity|eexists; reflexivity].
    + unfold shownOk. run_cells. intros _ H. contradiction.
    + unfold persisted. run_cells. rewrite Eslot. reflexivity.
  - cbn [option_map]. intros H. injection H as <-.
    destruct Hslot as [Hl Hsorted].
    pose proof (reordered_perm v env l) as P.
    assert (Hcoll : collectionOk (reordered v env l))
      by (apply (collection_perm _ _ (Permutation_sym P)), Hl).
    assert (Hord : ordered v (reordered v env l)).
    { destruct v; cbn [reordered].
      - apply Hsorted. reflexivity.
      - apply (sorted_ordered InReadme env l Hsane (proj1 Hl)). }
    assert (Hpers : forall st',
              st_localStorage st' = slot ->
              st_attendanceRecords st' = reordered v env l -> persisted v st').
    { intros st' Es Er. unfold persisted. rewrite Es, Eslot, Er.
      split; [apply Permutation_sym, P|]. intros ->. reflexivity. }
    destruct (reordered v env l) as [|r rest] eqn:Er.
    + unfold runWorkingDaysEffect, st0, initialState.
      constructor; run_cells.
      * reflexivity.
      * exact I.
      * unfold dialoguePaired. run_cells. split; [discriminate|intros H; contradiction].
      * split; constructor.
      * exact Hord.
      * exact I.
      * split; [reflexivity|eexists; reflexivity].
      * unfold shownOk. run_cells. intros _ H. contradiction.
      * apply Hpers; reflexivity.
    + assert (Hr : recordOk r).
      { destruct Hcoll as [Hall _]. apply Forall_inv in Hall. exact Hall. }
      destruct Hr as (_ & Hid & Hhol & _).
      unfold runWorkingDaysEffect, handleEditRecord, st0, initialState.
      constructor; run_cells.
      * reflexivity.
      * exact I.
      * unfold dialoguePaired. run_cells. split; [discriminate|intros H; contradiction].
      * exact Hcoll.
      * exact Hord.
      * unfold editingOk. run_cells. split; [exact Hid|left; reflexivity].
      * unfold formOk. run_cells.
        split; [rewrite holidays_roundtrip; exact Hhol|eexists; reflexivity].
      * unfold shownOk. run_cells. cbn [truthy]. intros H.
        apply negb_false_iff, String.eqb_eq in H. contradiction.
      * apply Hpers; reflexivity.
Qed.

(** What the storage of a state with the invariant gives to the next
    mount. *)
Lemma invariant_slot (v : variant) (st : AppState) :
  invariant v st ->
  match JSON_parse_slot (st_localStorage st) with
  | NothingStored => True
  | Parsed l => collectionOk l /\ (v = InAppJsx -> sorted_desc timestamp l)
  | ParseFailed | OutsideSchema => False
  end.
Proof.
  intros [_ _ _ Hc Ho _ _ _ Hp]. unfold persisted in Hp.
  destruct (JSON_parse_slot (st_localStorage st)) as [| |l|]; try exact Hp; [exact I|].
  destruct Hp as [P Heq]. split.
  - apply (collection_perm _ _ (Permutation_sym P)), Hc.
  - intros ->. rewrite <- (Heq eq_refl). exact Ho.
Qed.

(** Every state that the component reaches satisfies the invariant. *)
Lemma reachable_invariant (v : variant) (st : AppState) :
  reachable v st -> invariant v st.
Proof.
  induction 1 as [env st Hs Hm|env st0 st _ IH Hs Hm|env env' ev st _ IH Hs Hf].
  - apply (mount_invariant v env None st Hs); [exact I|exact Hm].
  - apply (mount_invariant v env (st_localStorage st0) st Hs); [|exact Hm].
    apply invariant_slot, IH.
  - apply step_invariant; assumption.
Qed.

Lemma sample_reachable (v : variant) :
  reachable v (sampleMounted v) /\ reachable v (sampleCalculated v)
  /\ reachable v (sampleSaved v) /\ reachable v (sampleEditing v).
Proof.
  assert (Hsane : saneEnv sampleEnv) by (split; [discriminate|vm_compute; discriminate]).
  assert (Hlater : saneEnv laterEnv) by (split; [discriminate|vm_compute; discriminate]).
  assert (Hf : forall env s, st_attendanceRecords s = [] -> freshId env s)
    by (intros env s E H; rewrite E in H; exact H).
  assert (H0 : reachable v (sampleMounted v)).
  { apply (reach_first v sampleEnv _ Hsane). destruct v; reflexivity. }
  assert (H1 : reachable v (step v sampleEnv sampleEnv (TypeDaysAttended "20")
                                 (sampleMounted v))).
  { apply (reach_step v sampleEnv sampleEnv (TypeDaysAttended "20") _ H0 Hsane).
    apply Hf. destruct v; vm_compute; reflexivity. }
  assert (H2 : reachable v (sampleCalculated v)).
  { apply (reach_step v sampleEnv sampleEnv ClickPrimary _ H1 Hsane).
    apply Hf. destruct v; vm_compute; reflexivity. }
  assert (H3 : reachable v (sampleSaved v)).
  { apply (reach_step v sampleEnv sampleEnv ClickSave _ H2 Hsane).
    apply Hf. destruct v; vm_compute; reflexivity. }
  split; [exact H0|]. split; [exact H2|]. split; [exact H3|].
  apply (reach_step v laterEnv laterEnv (ClickRecord 0) _ H3 Hlater).
  assert (E : map id (st_attendanceRecords (sampleSaved v)) = ["uuid-1"])
    by (destruct v; vm_compute; reflexivity).
  unfold freshId. rewrite E. intros [H|H]; [discriminate H|exact H].
Qed.

Lemma sampleCalculated_reachable (v : variant) : reachable v (sampleCalculated v).
Proof. exact (proj1 (proj2 (sample_reachable v))). Qed.

Lemma sampleSaved_reachable (v : variant) : reachable v (sampleSaved v).
Proof. exact (proj1 (proj2 (proj2 (sample_reachable v)))). Qed.

Lemma sampleEditing_reachable (v : variant) : reachable v (sampleEditing v).
Proof. exact (proj2 (proj2 (proj2 (sample_reachable v)))). Qed.

Lemma NoDup_ids_inj (l : list AttendanceRecord) (r r' : AttendanceRecord) :
  NoDup (map id l) -> In r l -> In r' l -> id r = id r' -> r = r'.
Proof.
  induction l as [|x l IH]; cbn [map In]; [intros _ []|].
  intros N Hr Hr' E. inversion N as [|? ? Hx N']; subst.
  destruct Hr as [->|Hr], Hr' as [->|Hr'].
  - reflexivity.
  - exfalso. apply Hx. rewrite E. apply in_map, Hr'.
  - exfalso. apply Hx. rewrite <- E. apply in_map, Hr.
  - apply IH; assumption.
Qed.

Lemma loadEffect_of_cases (v : variant) (env : Env) (st0 : AppState) :
  loadEffect_of v env st0 =
    match JSON_parse_slot (st_localStorage st0) with
    | NothingStored =>
        Some (run [setPeriodName (todayPeriod env); setIsLoading false] st0)
    | ParseFailed =>
        Some (run [setPeriodName (todayPeriod env);
                   setMessage (Some Msg.loadFailed);
                   setMessageType (Some error);
                   setIsLoading false] st0)
    | Parsed parsedRecords =>
        Some (run [setPeriodName (todayPeriod env);
                   setAttendanceRecords (reordered v env parsedRecords);
                   match reordered v env parsedRecords with
                   | lastRecord :: _ => handleEditRecord lastRecord
                   | [] => fun s => s
                   end;
                   setIsLoading false] st0)
    | OutsideSchema => None
    end.
Proof. destruct v; reflexivity. Qed.

Lemma offered_save (v : variant) (st : AppState) :
  offered v ClickSave st = true ->
  truthy (st_editingRecordId st) = false
  /\ JSString.trim (st_periodName st) <> ""
  /\ st_attendancePercentage st <> None.
Proof.
  unfold offered, saveDisabled. rewrite !andb_true_iff, !negb_true_iff, !orb_false_iff.
  intros (_ & Hed & (((Hn & _) & _) & _) & Hp).
  split; [exact Hed|]. split; [apply String.eqb_neq, Hn|].
  destruct (st_attendancePercentage st); [discriminate|discriminate Hp].
Qed.

Lemma valid_not_draftInvalid (total : Z) (a : Q) (name : string) :
  0 < total -> (0 <= a <= inject_Z total)%Q -> JSString.trim name <> "" ->
  draftInvalid (JSNumber.of_Z total) (JSNumber.Fin a) name = false.
Proof.
  intros Ht [Ha1 Ha2] Hn. unfold draftInvalid. rewrite !orb_false_iff.
  repeat split.
  - unfold JSNumber.le, JSNumber.of_Z.
    destruct (Qle_bool (inject_Z total) (inject_Z 0)) eqn:E; [|reflexivity].
    apply Qle_bool_iff in E. rewrite <- Zle_Qle in E. lia.
  - apply Qltb_ge, Ha1.
  - unfold JSNumber.gt. apply Qltb_ge, Ha2.
  - apply String.eqb_neq, Hn.
Qed.

(** ** What holds in every state that the component reaches *)

(** X16: whenever the button "Save Attendance Record" can be clicked, a
    click saves: the message is that of a saved record and never the one
    about fields that are not filled in correctly, the record made from
    the form is sorted into the history, the storage holds the new
    history, and the record carries the percentage that was on show. *)
Theorem enabled_save_saves (v : variant) (env env' : Env) (st : AppState) :
  reachable v st -> offered v ClickSave st = true ->
  st_message (step v env env' ClickSave st) = Some Msg.saved
  /\ st_messageType (step v env env' ClickSave st) = Some success
  /\ st_attendanceRecords (step v env env' ClickSave st)
     = js_sort (comparefn_of v env) (draftRecord env st :: st_attendanceRecords st)
  /\ st_localStorage (step v env env' ClickSave st)
     = Some (JSON_stringify (st_attendanceRecords (step v env env' ClickSave st)))
  /\ exists text,
       st_attendancePercentage st = Some (FText text)
       /\ attendancePercentage (draftRecord env st) = JSNumber.parseFloat text.
Proof.
  intros Hr Hoff.
  pose proof (reachable_invariant v st Hr) as [_ _ _ _ _ _ _ Hs _].
  destruct (offered_save v st Hoff) as (Hed & Hn & Hp).
  destruct (Hs Hed Hp) as (Ht & (a & Ea & Ha) & Etext).
  assert (Hv : draftInvalid (JSNumber.of_Z (st_totalWorkingDays st))
                            (parseFloat_field (st_daysAttended st)) (st_periodName st)
               = false)
    by (rewrite Ea; apply valid_not_draftInvalid; assumption).
  unfold step. rewrite Hoff. cbn [handler].
  rewrite saveOrUpdateAttendance_of_with.
  unfold saveOrUpdateAttendance_with. cbv zeta. rewrite Hv, Hed.
  fold (draftRecord env st).
  assert (Hlast : exists text,
             st_attendancePercentage st = Some (FText text)
             /\ attendancePercentage (draftRecord env st) = JSNumber.parseFloat text).
  { eexists. split; [exact Etext|reflexivity]. }
  destruct (depsChanged _ _); unfold runWorkingDaysEffect; run_cells;
    repeat split; try reflexivity; exact Hlast.
Qed.

Lemma enabled_save_saves_witness :
  st_message (step InAppJsx sampleEnv sampleEnv ClickSave (sampleCalculated InAppJsx))
  = Some Msg.saved.
Proof.
  assert (Hoff : offered InAppJsx ClickSave (sampleCalculated InAppJsx) = true)
    by (vm_compute; reflexivity).
  exact (proj1 (enabled_save_saves InAppJsx sampleEnv sampleEnv
                  (sampleCalculated InAppJsx) (sampleCalculated_reachable _) Hoff)).
Defined.

(** X17: in new-record mode a percentage on show is never stale: it is
    the percentage, with two decimals, of the days attended and the
    total working days that the form holds now, and these are a number
    between 0 and a positive total. *)
Theorem shown_percentage_is_current (v : variant) (st : AppState) (shown : field) :
  reachable v st ->
  truthy (st_editingRecordId st) = false ->
  st_attendancePercentage st = Some shown ->
  shown = FText (percentageText (st_daysAttended st) (st_totalWorkingDays st))
  /\ 0 < st_totalWorkingDays st
  /\ exists a, parseFloat_field (st_daysAttended st) = JSNumber.Fin a
               /\ (0 <= a <= inject_Z (st_totalWorkingDays st))%Q.
Proof.
  intros Hr Hed Hp.
  pose proof (reachable_invariant v st Hr) as [_ _ _ _ _ _ _ Hs _].
  destruct (Hs Hed) as (Ht & Ha & Etext); [rewrite Hp; discriminate|].
  rewrite Hp in Etext. injection Etext as ->.
  split; [reflexivity|]. split; assumption.
Qed.

Lemma shown_percentage_is_current_witness :
  FText "83.33"
  = FText (percentageText (st_daysAttended (sampleCalculated InAppJsx))
                          (st_totalWorkingDays (sampleCalculated InAppJsx))).
Proof.
  assert (Hed : truthy (st_editingRecordId (sampleCalculated InAppJsx)) = false)
    by (vm_compute; reflexivity).
  assert (Hp : st_attendancePercentage (sampleCalculated InAppJsx) = Some (FText "83.33"))
    by (vm_compute; reflexivity).
  exact (proj1 (shown_percentage_is_current InAppJsx (sampleCalculated InAppJsx) _
                  (sampleCalculated_reachable _) Hed Hp)).
Defined.

(** X18: the ids of the history are never empty and never shared by two
    records, and while a record is edited its id is the id of exactly
    one record of the history. *)
Theorem edited_record_is_in_history (v : variant) (st : AppState) :
  reachable v st ->
  NoDup (map id (st_attendanceRecords st))
  /\ ~ In "" (map id (st_attendanceRecords st))
  /\ forall i, st_editingRecordId st = Some i ->
       truthy (Some i) = true
       /\ exists r, In r (st_attendanceRecords st) /\ id r = i
                    /\ forall r', In r' (st_attendanceRecords st) -> id r' = i -> r' = r.
Proof.
  intros Hr.
  pose proof (reachable_invariant v st Hr) as [_ _ _ [Hall Hn] _ He _ _ _].
  split; [exact Hn|]. split.
  - intros Hin. apply in_map_iff in Hin. destruct Hin as (r & Er & Hin).
    rewrite Forall_forall in Hall. destruct (Hall r Hin) as (_ & Hid & _).
    contradiction.
  - intros i Ei. unfold editingOk in He. rewrite Ei in He. destruct He as [Hi Hin].
    split; [cbn [truthy]; apply negb_true_iff, String.eqb_neq, Hi|].
    apply in_map_iff in Hin. destruct Hin as (r & Er & Hin).
    exists r. split; [exact Hin|]. split; [exact Er|].
    intros r' Hin' Er'.
    apply (NoDup_ids_inj (st_attendanceRecords st)); try assumption.
    rewrite Er, Er'. reflexivity.
Qed.

Lemma edited_record_is_in_history_witness :
  NoDup (map id (st_attendanceRecords (sampleEditing InReadme))).
Proof.
  exact (proj1 (edited_record_is_in_history InReadme (sampleEditing InReadme)
                  (sampleEditing_reachable _))).
Defined.

(** X19: the storage always holds the history: a new mount on it never
    fails and never shows the message of a failed load, it shows the
    same records (in [src/App.jsx] in the same order), and it opens the
    first of them in the form. *)
Theorem reload_keeps_history (v : variant) (env : Env) (st : AppState) :
  reachable v st ->
  exists st',
    mount v env (st_localStorage st) = Some st'
    /\ Permutation (st_attendanceRecords st) (st_attendanceRecords st')
    /\ (v = InAppJsx -> st_attendanceRecords st' = st_attendanceRecords st)
    /\ st_message st' = None
    /\ st_editingRecordId st' = option_map id (hd_error (st_attendanceRecords st')).
Proof.
  intros Hr.
  pose proof (reachable_invariant v st Hr) as [_ _ _ _ _ _ _ _ Hp].
  unfold persisted in Hp. unfold mount. rewrite loadEffect_of_cases.
  change (st_localStorage (setItem (st_localStorage st) initialState))
    with (st_localStorage st).
  destruct (JSON_parse_slot (st_localStorage st)) as [| |l|]; try contradiction.
  - eexists. split; [reflexivity|]. unfold runWorkingDaysEffect, initialState. run_cells.
    rewrite Hp. repeat split; reflexivity.
  - destruct Hp as [P Heq].
    pose proof (reordered_perm v env l) as P'.
    assert (Hsame : v = InAppJsx -> reordered v env l = st_attendanceRecords st).
    { intros ->. rewrite (Heq eq_refl). reflexivity. }
    cbn [option_map].
    destruct (reordered v env l) as [|r rest].
    + eexists. split; [reflexivity|].
      unfold runWorkingDaysEffect, initialState.
      run_cells.
      split; [apply Permutation_sym, (Permutation_trans P' P)|].
      split; [exact Hsame|]. split; reflexivity.
    + eexists. split; [reflexivity|].
      unfold runWorkingDaysEffect, handleEditRecord, initialState.
      run_cells.
      split; [apply Permutation_sym, (Permutation_trans P' P)|].
      split; [exact Hsame|]. split; reflexivity.
Qed.

Lemma reload_keeps_history_witness :
  exists st',
    mount InAppJsx laterEnv (st_localStorage (sampleSaved InAppJsx)) = Some st'
    /\ Permutation (st_attendanceRecords (sampleSaved InAppJsx)) (st_attendanceRecords st').
Proof.
  destruct (reload_keeps_history InAppJsx laterEnv (sampleSaved InAppJsx))
    as (st' & H1 & H2 & _).
  - exact (sampleSaved_reachable _).
  - exists st'. split; [exact H1|exact H2].
Defined.

(** X20: the total working days of the form are never stale and never
    out of range: they are what the effect computes from the period
    name and the extra holidays that the form holds now (in the year of
    some clock), between 0 and 26, and the extra holidays of the form
    count as a number that is not negative. *)
Theorem total_follows_form (v : variant) (st : AppState) :
  reachable v st ->
  0 <= parseInt_or_0 (st_extraHolidays st)
  /\ 0 <= st_totalWorkingDays st <= 26
  /\ exists currentYear,
       st_totalWorkingDays st
       = workingDaysEffect (st_periodName st) (st_extraHolidays st) currentYear.
Proof.
  intros Hr.
  pose proof (reachable_invariant v st Hr) as [_ _ _ _ _ _ [Hh (c & Ht)] _ _].
  split; [exact Hh|]. split; [|exists c; exact Ht].
  rewrite Ht. split; [|apply workingDaysEffect_le_26, Hh].
  unfold workingDaysEffect.
  destruct (Period.parsePeriod _ _) as [[m y]|]; [|reflexivity].
  apply calculateMonthlyWorkingDays_nonneg.
Qed.

Lemma total_follows_form_witness :
  0 <= parseInt_or_0 (st_extraHolidays (sampleEditing InAppJsx)).
Proof.
  exact (proj1 (total_follows_form InAppJsx (sampleEditing InAppJsx)
                  (sampleEditing_reachable _))).
Defined.

(** X21: the banner and the dialogue are never half set: there is a
    message exactly when there is a message type, a success type goes
    with one of the five messages of success and an error type with one
    of the seven messages of error, and the dialogue is open exactly
    while a record is chosen for deletion; the loading text is never
    on show again after the mount. *)
Theorem banner_and_dialogue_paired (v : variant) (st : AppState) :
  reachable v st ->
  st_isLoading st = false /\ bannerPaired st /\ dialoguePaired st.
Proof.
  intros Hr.
  pose proof (reachable_invariant v st Hr) as [Hl Hb Hd _ _ _ _ _ _].
  split; [exact Hl|]. split; assumption.
Qed.

Lemma banner_and_dialogue_paired_witness :
  st_isLoading (sampleSaved InReadme) = false.
Proof.
  exact (proj1 (banner_and_dialogue_paired InReadme (sampleSaved InReadme)
                  (sampleSaved_reachable _))).
Defined.

(** X22: the history is always in order, whatever has been saved,
    updated, deleted or loaded: by timestamp, latest first, in
    [src/App.jsx], and by period, latest first, in the README variant. *)
Theorem history_stays_ordered (v : variant) (st : AppState) :
  reachable v st -> ordered v (st_attendanceRecords st).
Proof.
  intros Hr. apply (inv_ordered v st), reachable_invariant, Hr.
Qed.

Lemma history_stays_ordered_witness :
  ordered InAppJsx (st_attendanceRecords (sampleSaved InAppJsx)).
Proof.
  exact (history_stays_ordered InAppJsx (sampleSaved InAppJsx)
           (sampleSaved_reachable _)).
Defined.






